(** * Lembretes: the reminder store and its scheduler

    A shallow embedding of [main.py]: the JSON document held by [Store],
    its persistence through [json.dump] / [json.load], the store
    operations ([listar], [adicionar], [atualizar], [remover]), the
    validation of times of day, the clock ([agora_hhmm], [hoje_iso]),
    one poll cycle of the [Scheduler] ([verificar]), its loop ([run]),
    and the handlers of the window that call the store (add, save of the
    edit dialog, toggle, delete, demonstration mode).

    Python values are modelled by the type [json]: the values that
    [json.load] builds and [json.dump] writes, floats apart (floating
    point is outside the embedding).  A [str] is the string of the bytes
    of its UTF-8 encoding, a surrogate code point being written as its
    three bytes.  A [dict] is an association list in insertion order
    whose keys are pairwise distinct ([chaves_unicas]).

    [dumps] and [loads] are the codec without the limits of the
    interpreter: ints of any length, nesting of any depth.  The write as
    CPython makes it, chunk by chunk through the UTF-8 file, is
    [json_dump]; [codificavel] tells the documents that it writes in
    full, on which [salvar] is what [Store.salvar] does, and
    [json_valido] tells the texts that [json.load] takes. *)

From Stdlib Require Import Bool Arith ZArith List String Ascii Lia.
From Stdlib Require Import Decimal DecimalFacts DecimalPos DecimalN DecimalZ DecimalString.
Import ListNotations.
Local Open Scope string_scope.

(** ** Python values *)

#[local] Set Warnings "-register-all".
#[local] Unset Elimination Schemes.
Inductive json : Type :=
| JNull
| JBool (b : bool)
| JInt (n : Z)
| JStr (s : string)
| JList (l : list json)
| JObj (kv : list (string * json)).
#[local] Set Elimination Schemes.

(** The induction principle that reaches inside lists and dicts. *)
Section JsonInd.
Variable P : json -> Prop.
Hypothesis HNull : P JNull.
Hypothesis HBool : forall b, P (JBool b).
Hypothesis HInt : forall n, P (JInt n).
Hypothesis HStr : forall s, P (JStr s).
Hypothesis HList : forall l, Forall P l -> P (JList l).
Hypothesis HObj : forall kv, Forall (fun p => P (snd p)) kv -> P (JObj kv).

Fixpoint json_ind_nested (j : json) : P j :=
  match j with
  | JNull => HNull
  | JBool b => HBool b
  | JInt n => HInt n
  | JStr s => HStr s
  | JList l =>
      HList l ((fix go (l : list json) : Forall P l :=
                  match l with
                  | [] => Forall_nil _
                  | x :: l' => Forall_cons _ (json_ind_nested x) (go l')
                  end) l)
  | JObj kv =>
      HObj kv ((fix go (kv : list (string * json)) : Forall (fun p => P (snd p)) kv :=
                  match kv with
                  | [] => Forall_nil _
                  | p :: kv' => Forall_cons _ (json_ind_nested (snd p)) (go kv')
                  end) kv)
  end.
End JsonInd.

(** *** dict operations (insertion-ordered, as Python's dict) *)

(** [d.get(k)] / [d[k]]: the value bound to [k], if any. *)
Fixpoint dict_get (k : string) (d : list (string * json)) : option json :=
  match d with
  | [] => None
  | (k', v) :: d' => if String.eqb k k' then Some v else dict_get k d'
  end.

(** [d[k] = v]: an existing key keeps its place, a new key goes last. *)
Fixpoint dict_set (k : string) (v : json) (d : list (string * json))
  : list (string * json) :=
  match d with
  | [] => [(k, v)]
  | (k', v') :: d' =>
      if String.eqb k k' then (k', v) :: d' else (k', v') :: dict_set k v d'
  end.

(** [d.update(campos)]. *)
Definition dict_update (d campos : list (string * json)) : list (string * json) :=
  fold_left (fun acc p => dict_set (fst p) (snd p) acc) campos d.

(** [dict(pairs)]: later pairs override earlier ones. *)
Definition py_dict (pairs : list (string * json)) : list (string * json) :=
  dict_update [] pairs.

(** The keys of every dict inside the value are pairwise distinct. *)
Inductive chaves_unicas : json -> Prop :=
| cu_null : chaves_unicas JNull
| cu_bool b : chaves_unicas (JBool b)
| cu_int n : chaves_unicas (JInt n)
| cu_str s : chaves_unicas (JStr s)
| cu_list l : Forall chaves_unicas l -> chaves_unicas (JList l)
| cu_obj kv :
    NoDup (map fst kv) ->
    Forall (fun p => chaves_unicas (snd p)) kv ->
    chaves_unicas (JObj kv).

(** *** Truth value and equality of Python values *)

(** [bool(x)], [if x:], [not x]. *)
Definition py_truthy (j : json) : bool :=
  match j with
  | JNull => false
  | JBool b => b
  | JInt n => negb (Z.eqb n 0)
  | JStr s => negb (String.eqb s EmptyString)
  | JList l => match l with [] => false | _ => true end
  | JObj kv => match kv with [] => false | _ => true end
  end.

(** [a == b]: [bool] is a subclass of [int] ([True == 1]); lists compare
    element by element; dicts compare as mappings, whatever the order. *)
Fixpoint py_eq (a b : json) {struct a} : bool :=
  match a, b with
  | JNull, JNull => true
  | JBool x, JBool y => Bool.eqb x y
  | JBool x, JInt n => Z.eqb (Z.b2z x) n
  | JInt n, JBool x => Z.eqb n (Z.b2z x)
  | JInt n, JInt m => Z.eqb n m
  | JStr s, JStr t => String.eqb s t
  | JList l, JList m =>
      (fix go (l m : list json) {struct l} : bool :=
         match l, m with
         | [], [] => true
         | x :: l', y :: m' => py_eq x y && go l' m'
         | _, _ => false
         end) l m
  | JObj o, JObj p =>
      Nat.eqb (List.length o) (List.length p) &&
      forallb (fun kv =>
                 match kv with
                 | (k, v) => match dict_get k p with
                             | Some v' => py_eq v v'
                             | None => false
                             end
                 end) o
  | _, _ => false
  end.

(** *** str helpers *)

(** [str.isspace] on one character of the ASCII range:
    [\t \n \v \f \r], [\x1c]..[\x1f] and the space. *)
Definition is_space (c : ascii) : bool :=
  let n := N_of_ascii c in
  ((9 <=? n) && (n <=? 13) || (28 <=? n) && (n <=? 32))%N.

(** A continuation byte of UTF-8. *)
Definition continua (c : ascii) : bool :=
  let n := N_of_ascii c in ((128 <=? n) && (n <? 192))%N.

(** The code point that two, three or four bytes encode in UTF-8. *)
Definition ponto2 (a b : ascii) : option N :=
  let x := N_of_ascii a in
  if ((194 <=? x) && (x <? 224))%N && continua b
  then Some ((x - 192) * 64 + (N_of_ascii b - 128))%N
  else None.

Definition ponto3 (a b c : ascii) : option N :=
  let x := N_of_ascii a in
  if ((224 <=? x) && (x <? 240))%N && continua b && continua c then
    let n := ((x - 224) * 4096 + (N_of_ascii b - 128) * 64 + (N_of_ascii c - 128))%N in
    if (2048 <=? n)%N then Some n else None
  else None.

Definition ponto4 (a b c d : ascii) : option N :=
  let x := N_of_ascii a in
  if ((240 <=? x) && (x <? 245))%N && continua b && continua c && continua d then
    let n := ((x - 240) * 262144 + (N_of_ascii b - 128) * 4096 +
              (N_of_ascii c - 128) * 64 + (N_of_ascii d - 128))%N in
    if ((65536 <=? n) && (n <? 1114112))%N then Some n else None
  else None.

(** [str.isspace] on a code point beyond ASCII: U+0085, U+00A0, U+1680,
    U+2000 to U+200A, U+2028, U+2029, U+202F, U+205F and U+3000. *)
Definition espaco_unicode (n : N) : bool :=
  ((n =? 133) || (n =? 160) || (n =? 5760) || (8192 <=? n) && (n <=? 8202) ||
   (n =? 8232) || (n =? 8233) || (n =? 8239) || (n =? 8287) || (n =? 12288))%N.

Definition espaco2 (a b : ascii) : bool :=
  match ponto2 a b with
  | Some n => espaco_unicode n
  | None => false
  end.

Definition espaco3 (a b c : ascii) : bool :=
  match ponto3 a b c with
  | Some n => espaco_unicode n
  | None => false
  end.

(** [s.lstrip()]: the white-space characters at the head of the text are
    dropped, those of one byte and those of two or three. *)
Fixpoint lstrip (s : string) : string :=
  match s with
  | EmptyString => EmptyString
  | String a r =>
      if is_space a then lstrip r
      else
        match r with
        | EmptyString => s
        | String b r2 =>
            if espaco2 a b then lstrip r2
            else
              match r2 with
              | EmptyString => s
              | String c r3 => if espaco3 a b c then lstrip r3 else s
              end
        end
  end.

(** The text is one white-space character. *)
Definition um_espaco (s : string) : bool :=
  match s with
  | String a EmptyString => is_space a
  | String a (String b EmptyString) => espaco2 a b
  | String a (String b (String c EmptyString)) => espaco3 a b c
  | _ => false
  end.

(** [s.rstrip()]: the tail is stripped first; what is left of it, with
    the byte before it, is dropped when it is one white-space character. *)
Fixpoint rstrip (s : string) : string :=
  match s with
  | EmptyString => EmptyString
  | String c r =>
      let r' := rstrip r in
      if um_espaco (String c r') then EmptyString else String c r'
  end.

(** [s.strip()] *)
Definition strip (s : string) : string := rstrip (lstrip s).

(** ** The persisted format

    [salvar] writes the document with
    [json.dump(dados, f, ensure_ascii=False, indent=2)] and [carregar]
    reads it back with [json.load(f)].  Both are functions of CPython's
    [json] package; they are transcribed here from [json/encoder.py],
    [json/decoder.py] and [json/scanner.py]. *)

Definition c_quote : ascii := "034"%char.
Definition c_bslash : ascii := "092"%char.
Definition c_nl : ascii := "010"%char.

(** *** Encoder *)

Definition hex_digit (n : N) : ascii :=
  if (n <? 10)%N then ascii_of_N (48 + n) else ascii_of_N (87 + n).

(** [ESCAPE_DCT]: the replacement of one character of a str when
    [ensure_ascii] is false. *)
Definition escape_char (c : ascii) : string :=
  let n := N_of_ascii c in
  if Ascii.eqb c c_quote then String c_bslash (String c_quote EmptyString)
  else if Ascii.eqb c c_bslash then String c_bslash (String c_bslash EmptyString)
  else if (n =? 10)%N then "\n"
  else if (n =? 13)%N then "\r"
  else if (n =? 9)%N then "\t"
  else if (n =? 8)%N then "\b"
  else if (n =? 12)%N then "\f"
  else if (n <? 32)%N then
    "\u00" ++ String (hex_digit (n / 16)) (String (hex_digit (n mod 16)) EmptyString)
  else String c EmptyString.

Fixpoint escape_all (s : string) : string :=
  match s with
  | EmptyString => EmptyString
  | String c r => escape_char c ++ escape_all r
  end.

(** [encode_basestring]: the str between double quotes. *)
Definition encode_basestring (s : string) : string :=
  String c_quote (escape_all s ++ String c_quote EmptyString).

(** [int.__repr__] *)
Definition repr_int (n : Z) : string := NilEmpty.string_of_int (Z.to_int n).

Fixpoint indent_str (level : nat) : string :=
  match level with
  | O => EmptyString
  | S l => "  " ++ indent_str l
  end.

Definition newline_indent (level : nat) : string :=
  String c_nl (indent_str level).

(** The items of a non-empty container: [sep] between two items, [close]
    after the last one. *)
Section EncodeItems.
Context {A : Type}.
Variable enc1 : A -> string.
Variables sep close : string.

Fixpoint encode_items (l : list A) : string :=
  match l with
  | [] => close
  | x :: l' =>
      enc1 x ++ match l' with
                | [] => close
                | _ :: _ => sep ++ encode_items l'
                end
  end.
End EncodeItems.

(** [_iterencode] with [indent=2]: item separator [","], key separator
    [": "], one item per line. *)
Fixpoint iterencode (level : nat) (j : json) {struct j} : string :=
  match j with
  | JNull => "null"
  | JBool true => "true"
  | JBool false => "false"
  | JInt n => repr_int n
  | JStr s => encode_basestring s
  | JList [] => "[]"
  | JList l =>
      "[" ++ newline_indent (S level) ++
      encode_items (iterencode (S level))
        ("," ++ newline_indent (S level)) (newline_indent level ++ "]") l
  | JObj [] => "{}"
  | JObj kv =>
      "{" ++ newline_indent (S level) ++
      encode_items
        (fun p => encode_basestring (fst p) ++ ": " ++ iterencode (S level) (snd p))
        ("," ++ newline_indent (S level)) (newline_indent level ++ "}") kv
  end.

(** [json.dumps(d, ensure_ascii=False, indent=2)] *)
Definition dumps (d : json) : string := iterencode 0 d.

(** *** Decoder *)

(** [WHITESPACE]: space, tab, line feed, carriage return. *)
Definition is_ws (c : ascii) : bool :=
  let n := N_of_ascii c in
  ((n =? 32) || (n =? 9) || (n =? 10) || (n =? 13))%N.

Fixpoint skip_ws (s : string) : string :=
  match s with
  | EmptyString => EmptyString
  | String c r => if is_ws c then skip_ws r else s
  end.

Definition digit_cons (c : ascii) : option (uint -> uint) :=
  match c with
  | "0" => Some D0 | "1" => Some D1 | "2" => Some D2 | "3" => Some D3
  | "4" => Some D4 | "5" => Some D5 | "6" => Some D6 | "7" => Some D7
  | "8" => Some D8 | "9" => Some D9
  | _ => None
  end%char.

(** The longest run of decimal digits at the head of [s]. *)
Fixpoint scan_digits (s : string) : uint * string :=
  match s with
  | EmptyString => (Nil, s)
  | String c r =>
      match digit_cons c with
      | Some f => let (d, r') := scan_digits r in (f d, r')
      | None => (Nil, s)
      end
  end.

(** [NUMBER_RE], integer part (an optional minus sign, then either a
    single 0 or a digit from 1 to 9 followed by digits), converted by [int].
    A fraction or an exponent after it would make CPython build a float;
    here the integer is returned and the dot or the [e] is left in the
    input, where no caller accepts it: [loads] reads no value from a
    text with a float.  An int of more digits than [int] converts
    ([max_str_digits], below) is read as any other. *)
Definition scan_int (s : string) : option (Z * string) :=
  let (neg, s1) :=
    match s with
    | String c r => if Ascii.eqb c "-" then (true, r) else (false, s)
    | EmptyString => (false, s)
    end in
  match s1 with
  | EmptyString => None
  | String c r =>
      if Ascii.eqb c "0" then Some (0%Z, r)
      else match digit_cons c with
           | Some _ =>
               let (d, r') := scan_digits s1 in
               Some (if neg then Z.opp (Z.of_uint d) else Z.of_uint d, r')
           | None => None
           end
  end.

Fixpoint strip_prefix (p s : string) : option string :=
  match p with
  | EmptyString => Some s
  | String a p' =>
      match s with
      | String b s' => if Ascii.eqb a b then strip_prefix p' s' else None
      | EmptyString => None
      end
  end.

Definition hex_val (c : ascii) : option N :=
  let n := N_of_ascii c in
  if ((48 <=? n) && (n <=? 57))%N then Some (n - 48)%N
  else if ((97 <=? n) && (n <=? 102))%N then Some (n - 87)%N
  else if ((65 <=? n) && (n <=? 70))%N then Some (n - 55)%N
  else None.

(** [_decode_uXXXX]: four hexadecimal digits. *)
Definition hex4 (a b c d : ascii) : option N :=
  match hex_val a, hex_val b, hex_val c, hex_val d with
  | Some x, Some y, Some z, Some w => Some (((x * 16 + y) * 16 + z) * 16 + w)%N
  | _, _, _, _ => None
  end.

(** [BACKSLASH]: the one-letter escapes. *)
Definition backslash (e : ascii) : option ascii :=
  if Ascii.eqb e c_quote then Some c_quote
  else if Ascii.eqb e c_bslash then Some c_bslash
  else if Ascii.eqb e "/" then Some "/"%char
  else if Ascii.eqb e "b" then Some "008"%char
  else if Ascii.eqb e "f" then Some "012"%char
  else if Ascii.eqb e "n" then Some "010"%char
  else if Ascii.eqb e "r" then Some "013"%char
  else if Ascii.eqb e "t" then Some "009"%char
  else None.

(** What [py_scanstring] reads between the quotes: plain characters and
    [\uXXXX] code units. *)
Inductive unidade : Type :=
| UByte (c : ascii)
| UEsc (n : N).

(** [py_scanstring] (strict), first half: from just after the opening
    quote up to the closing one. *)
Fixpoint scan_units (s : string) : option (list unidade * string) :=
  match s with
  | EmptyString => None
  | String c r =>
      if Ascii.eqb c c_quote then Some ([], r)
      else if Ascii.eqb c c_bslash then
        match r with
        | EmptyString => None
        | String e r1 =>
            if Ascii.eqb e "u" then
              match r1 with
              | String h1 (String h2 (String h3 (String h4 r2))) =>
                  match hex4 h1 h2 h3 h4 with
                  | Some n =>
                      match scan_units r2 with
                      | Some (us, r') => Some (UEsc n :: us, r')
                      | None => None
                      end
                  | None => None
                  end
              | _ => None
              end
            else
              match backslash e with
              | Some b =>
                  match scan_units r1 with
                  | Some (us, r') => Some (UByte b :: us, r')
                  | None => None
                  end
              | None => None
              end
        end
      else if (N_of_ascii c <? 32)%N then None
      else
        match scan_units r with
        | Some (us, r') => Some (UByte c :: us, r')
        | None => None
        end
  end.

(** The UTF-8 bytes of a code point. *)
Definition utf8 (n : N) : string :=
  let b x := ascii_of_N x in
  (if n <? 128 then String (b n) EmptyString
   else if n <? 2048 then
     String (b (192 + n / 64)) (String (b (128 + n mod 64)) EmptyString)
   else if n <? 65536 then
     String (b (224 + n / 4096))
       (String (b (128 + (n / 64) mod 64)) (String (b (128 + n mod 64)) EmptyString))
   else
     String (b (240 + n / 262144))
       (String (b (128 + (n / 4096) mod 64))
          (String (b (128 + (n / 64) mod 64))
             (String (b (128 + n mod 64)) EmptyString))))%N.

(** [py_scanstring], second half: a high surrogate followed at once by a
    low one is one code point. *)
Fixpoint decode_units (l : list unidade) : string :=
  match l with
  | [] => EmptyString
  | UByte c :: l' => String c (decode_units l')
  | UEsc hi :: l' =>
      match l' with
      | UEsc lo :: l'' =>
          if ((55296 <=? hi) && (hi <=? 56319) && (56320 <=? lo) && (lo <=? 57343))%N
          then utf8 (65536 + ((hi - 55296) * 1024 + (lo - 56320))) ++ decode_units l''
          else utf8 hi ++ decode_units l'
      | _ => utf8 hi ++ decode_units l'
      end
  end.

Definition scanstring (s : string) : option (string * string) :=
  match scan_units s with
  | Some (us, r) => Some (decode_units us, r)
  | None => None
  end.

(** [scan_once], [JSONObject] and [JSONArray].  [fuel] bounds the depth
    of the calls; [loads] gives them more than the length of the text. *)
Fixpoint scan_once (fuel : nat) (s : string) {struct fuel} : option (json * string) :=
  match fuel with
  | O => None
  | S f =>
      match s with
      | EmptyString => None
      | String c r =>
          if Ascii.eqb c c_quote then
            match scanstring r with
            | Some (t, r') => Some (JStr t, r')
            | None => None
            end
          else if Ascii.eqb c "{" then
            match skip_ws r with
            | EmptyString => None
            | String c1 r1 =>
                if Ascii.eqb c1 "}" then Some (JObj [], r1)
                else match JSONObject f (String c1 r1) with
                     | Some (pairs, r') => Some (JObj (py_dict pairs), r')
                     | None => None
                     end
            end
          else if Ascii.eqb c "[" then
            match skip_ws r with
            | EmptyString => None
            | String c1 r1 =>
                if Ascii.eqb c1 "]" then Some (JList [], r1)
                else match JSONArray f (String c1 r1) with
                     | Some (vs, r') => Some (JList vs, r')
                     | None => None
                     end
            end
          else
            match strip_prefix "null" s with
            | Some r' => Some (JNull, r')
            | None =>
                match strip_prefix "true" s with
                | Some r' => Some (JBool true, r')
                | None =>
                    match strip_prefix "false" s with
                    | Some r' => Some (JBool false, r')
                    | None =>
                        match scan_int s with
                        | Some (n, r') => Some (JInt n, r')
                        | None => None
                        end
                    end
                end
            end
      end
  end

(** The pairs of an object, from the opening quote of a key. *)
with JSONObject (fuel : nat) (s : string) {struct fuel}
  : option (list (string * json) * string) :=
  match fuel with
  | O => None
  | S f =>
      match s with
      | EmptyString => None
      | String c r =>
          if Ascii.eqb c c_quote then
            match scanstring r with
            | None => None
            | Some (key, r1) =>
                match skip_ws r1 with
                | EmptyString => None
                | String c2 r2 =>
                    if Ascii.eqb c2 ":" then
                      match scan_once f (skip_ws r2) with
                      | None => None
                      | Some (v, r3) =>
                          match skip_ws r3 with
                          | EmptyString => None
                          | String c4 r4 =>
                              if Ascii.eqb c4 "}" then Some ([(key, v)], r4)
                              else if Ascii.eqb c4 "," then
                                match JSONObject f (skip_ws r4) with
                                | Some (ps, r5) => Some ((key, v) :: ps, r5)
                                | None => None
                                end
                              else None
                          end
                      end
                    else None
                end
            end
          else None
      end
  end

(** The values of an array, from the first character of a value. *)
with JSONArray (fuel : nat) (s : string) {struct fuel}
  : option (list json * string) :=
  match fuel with
  | O => None
  | S f =>
      match scan_once f s with
      | None => None
      | Some (v, r1) =>
          match skip_ws r1 with
          | EmptyString => None
          | String c2 r2 =>
              if Ascii.eqb c2 "]" then Some ([v], r2)
              else if Ascii.eqb c2 "," then
                match JSONArray f (skip_ws r2) with
                | Some (vs, r3) => Some (v :: vs, r3)
                | None => None
                end
              else None
          end
      end
  end.

(** [json.loads]: one value, white space around it, nothing else. *)
Definition loads (s : string) : option json :=
  match scan_once (S (String.length s)) (skip_ws s) with
  | Some (j, r) =>
      match skip_ws r with
      | EmptyString => Some j
      | String _ _ => None
      end
  | None => None
  end.

(** *** str() and repr() of a value, for the f-string of the message *)

Definition c_apos : ascii := "'"%char.

Fixpoint contem (c : ascii) (s : string) : bool :=
  match s with
  | EmptyString => false
  | String a r => Ascii.eqb a c || contem c r
  end.

(** One character inside [repr] of a str quoted with [q].  Bytes from 128
    on are taken as printable characters and copied. *)
Definition repr_char (q c : ascii) : string :=
  let n := N_of_ascii c in
  if Ascii.eqb c q || Ascii.eqb c c_bslash then String c_bslash (String c EmptyString)
  else if (n =? 9)%N then "\t"
  else if (n =? 10)%N then "\n"
  else if (n =? 13)%N then "\r"
  else if ((n <? 32) || (n =? 127))%N then
    "\x" ++ String (hex_digit (n / 16)) (String (hex_digit (n mod 16)) EmptyString)
  else String c EmptyString.

Fixpoint repr_chars (q : ascii) (s : string) : string :=
  match s with
  | EmptyString => EmptyString
  | String c r => repr_char q c ++ repr_chars q r
  end.

Definition repr_str (s : string) : string :=
  let q := if contem c_apos s && negb (contem c_quote s) then c_quote else c_apos in
  String q (repr_chars q s ++ String q EmptyString).

Fixpoint junta (sep : string) (l : list string) : string :=
  match l with
  | [] => EmptyString
  | [x] => x
  | x :: l' => x ++ sep ++ junta sep l'
  end.

Fixpoint py_repr (j : json) : string :=
  match j with
  | JNull => "None"
  | JBool true => "True"
  | JBool false => "False"
  | JInt n => repr_int n
  | JStr s => repr_str s
  | JList l => "[" ++ junta ", " (map py_repr l) ++ "]"
  | JObj kv =>
      "{" ++ junta ", " (map (fun p => repr_str (fst p) ++ ": " ++ py_repr (snd p)) kv) ++ "}"
  end.

(** [str(x)], what [f"{x}"] inserts. *)
Definition py_str (j : json) : string :=
  match j with
  | JStr s => s
  | _ => py_repr j
  end.

(** The items that [for x in v] / [list(v)] go through; [None] when [v]
    is not iterable.  A str gives its characters and a dict its keys:
    strs, on which every caller below fails at the first item. *)
Definition py_iter (v : json) : option (list json) :=
  match v with
  | JList l => Some l
  | JStr s => Some (map (fun c => JStr (String c EmptyString)) (list_ascii_of_string s))
  | JObj kv => Some (map (fun p => JStr (fst p)) kv)
  | _ => None
  end.

(** ** The world of the program *)

(** The file at [caminho].  [Texto txt]: it exists and holds the text
    whose UTF-8 encoding is [txt].  [Ilegivel]: it exists and reading it
    raises (its bytes are not UTF-8 text, say). *)
Inductive arquivo : Type :=
| Ausente
| Ilegivel
| Texto (txt : string).

Inductive excecao : Type :=
| KeyError (arg : string)
| AttributeError
| TypeError
| OSError
| OutraExcecao (nome : string).

(** What the program does to the outside, in the order it does it. *)
Inductive evento : Type :=
| EvEscrita (txt : string)
| EvExportado (txt : string)
| EvNotify (titulo mensagem : string)
| EvPopup (titulo mensagem : string)
| EvStatus (txt : string)
| EvPrint (txt : string) (e : excecao)
| EvSleep (segundos : Z)
| EvWarning (titulo mensagem : string)
| EvRefresh.

(** [dados]: [Store.dados]; [disco]: the file at [Store.caminho];
    [gravavel]: whether opening it for writing succeeds; [saida]: the
    events so far, oldest first. *)
Record Mundo : Type := mkMundo {
  dados : json;
  disco : arquivo;
  gravavel : bool;
  saida : list evento
}.

Inductive resultado (A : Type) : Type :=
| Retorna (a : A)
| Levanta (e : excecao).
Arguments Retorna {A} a.
Arguments Levanta {A} e.

(** Computations that read and change the world and may raise; the world
    at the moment of the raise is kept. *)
Definition M (A : Type) : Type := Mundo -> Mundo * resultado A.

Definition ret {A} (a : A) : M A := fun w => (w, Retorna a).

Definition levantar {A} (e : excecao) : M A := fun w => (w, Levanta e).

Definition bind {A B} (c : M A) (k : A -> M B) : M B :=
  fun w =>
    match c w with
    | (w', Retorna a) => k a w'
    | (w', Levanta e) => (w', Levanta e)
    end.

(** [try: c  except Exception as e: h e] *)
Definition tentar {A} (c : M A) (h : excecao -> M A) : M A :=
  fun w =>
    match c w with
    | (w', Retorna a) => (w', Retorna a)
    | (w', Levanta e) => h e w'
    end.

Notation "x <- c ;; k" := (bind c (fun x => k))
  (at level 61, c at next level, right associativity).
Notation "c ;;; k" := (bind c (fun _ => k))
  (at level 61, right associativity).

Definition ler_dados : M json := fun w => (w, Retorna (dados w)).

Definition por_dados (d : json) : M unit :=
  fun w => (mkMundo d (disco w) (gravavel w) (saida w), Retorna tt).

Definition emitir (e : evento) : M unit :=
  fun w => (mkMundo (dados w) (disco w) (gravavel w) (saida w ++ [e]), Retorna tt).

(** The call of a callback: the call is observed, then the callback
    returns or raises.  The callback sees what happened before it. *)
Definition chamar (e : evento) (cb : list evento -> option excecao) : M unit :=
  fun w =>
    let w' := mkMundo (dados w) (disco w) (gravavel w) (saida w ++ [e]) in
    match cb (saida w) with
    | None => (w', Retorna tt)
    | Some x => (w', Levanta x)
    end.

Fixpoint para_cada {A} (f : A -> M unit) (l : list A) : M unit :=
  match l with
  | [] => ret tt
  | x :: l' => f x ;;; para_cada f l'
  end.

(** ** Store *)

Definition documento_vazio : json := JObj [("lembretes", JList [])].

(** [Store.salvar]: [open(caminho, "w")] then [json.dump], for a document
    that [json.dump] writes in full ([codificavel], below); on the other
    documents the write stops part-way, see [salvar_utf8]. *)
Definition salvar : M unit :=
  fun w =>
    if gravavel w then
      let txt := dumps (dados w) in
      (mkMundo (dados w) (Texto txt) true (saida w ++ [EvEscrita txt]), Retorna tt)
    else (w, Levanta OSError).

(** [Store.carregar].  A text from which [loads] reads no value is taken
    for one on which [json.load] raises; this is so when [json_valido]
    is false (the texts with a float, which [json.load] reads and
    [loads] does not, are the others). *)
Definition carregar : M unit :=
  fun w =>
    match disco w with
    | Ausente => salvar w
    | Ilegivel => por_dados documento_vazio w
    | Texto txt =>
        match loads txt with
        | Some d => por_dados d w
        | None => por_dados documento_vazio w
        end
    end.

(** [Store.__init__] *)
Definition Store_init : M unit :=
  por_dados documento_vazio ;;; carregar.

(** [self.dados.get("lembretes", [])] *)
Definition obter_lembretes : M json :=
  d <- ler_dados ;;
  match d with
  | JObj kv =>
      ret (match dict_get "lembretes" kv with
           | Some v => v
           | None => JList []
           end)
  | _ => levantar AttributeError
  end.

(** [Store.listar] *)
Definition listar : M json := obter_lembretes.

(** [Store.adicionar]; [agora_ms] is what
    [int(datetime.now().timestamp() * 1000)] gives at the call. *)
Definition adicionar (agora_ms : Z) (texto horario : string) (ativo : json) : M json :=
  let item := JObj [("id", JInt agora_ms);
                    ("texto", JStr (strip texto));
                    ("horario", JStr (strip horario));
                    ("ativo", JBool (py_truthy ativo));
                    ("ultimo_disparo_em", JNull)] in
  d <- ler_dados ;;
  match d with
  | JObj kv =>
      match dict_get "lembretes" kv with
      | None =>
          por_dados (JObj (dict_set "lembretes" (JList [item]) kv)) ;;;
          salvar ;;; ret item
      | Some (JList l) =>
          por_dados (JObj (dict_set "lembretes" (JList (l ++ [item])) kv)) ;;;
          salvar ;;; ret item
      | Some _ => levantar AttributeError
      end
  | _ => levantar AttributeError
  end.

(** The loop of [Store.atualizar] over the items: the list with the first
    item whose id is [item_id] updated, and that item. *)
Fixpoint atualizar_em (item_id : json) (campos : list (string * json)) (l : list json)
  : resultado (list json * json) :=
  match l with
  | [] => Levanta (KeyError "Item não encontrado")
  | it :: l' =>
      match it with
      | JObj kv =>
          match dict_get "id" kv with
          | None => Levanta (KeyError "id")
          | Some v =>
              if py_eq v item_id then
                let it' := JObj (dict_update kv campos) in
                Retorna (it' :: l', it')
              else
                match atualizar_em item_id campos l' with
                | Retorna (l'', r) => Retorna (it :: l'', r)
                | Levanta e => Levanta e
                end
          end
      | _ => Levanta TypeError
      end
  end.

(** The value bound to ["lembretes"] replaced in place; a document
    without the key is left as it is (the list the loops went through was
    then the default [[]], which holds no item to change). *)
Definition por_lembretes (l : list json) : M unit :=
  d <- ler_dados ;;
  match d with
  | JObj kv =>
      match dict_get "lembretes" kv with
      | Some (JList _) => por_dados (JObj (dict_set "lembretes" (JList l) kv))
      | _ => ret tt
      end
  | _ => ret tt
  end.

(** [Store.atualizar(item_id, **campos)] *)
Definition atualizar (item_id : json) (campos : list (string * json)) : M json :=
  v <- obter_lembretes ;;
  match py_iter v with
  | None => levantar TypeError
  | Some l =>
      match atualizar_em item_id campos l with
      | Levanta e => levantar e
      | Retorna (l', it) =>
          por_lembretes l' ;;; salvar ;;; ret it
      end
  end.

(** The list comprehension of [Store.remover]. *)
Fixpoint remover_de (item_id : json) (l : list json) : resultado (list json) :=
  match l with
  | [] => Retorna []
  | x :: l' =>
      match x with
      | JObj kv =>
          match dict_get "id" kv with
          | None => Levanta (KeyError "id")
          | Some v =>
              match remover_de item_id l' with
              | Retorna l'' => Retorna (if py_eq v item_id then l'' else x :: l'')
              | Levanta e => Levanta e
              end
          end
      | _ => Levanta TypeError
      end
  end.

(** [Store.remover] *)
Definition remover (item_id : json) : M unit :=
  v <- obter_lembretes ;;
  match py_iter v with
  | None => levantar TypeError
  | Some l =>
      match remover_de item_id l with
      | Levanta e => levantar e
      | Retorna l' =>
          d <- ler_dados ;;
          match d with
          | JObj kv => por_dados (JObj (dict_set "lembretes" (JList l') kv)) ;;; salvar
          | _ => levantar TypeError
          end
      end
  end.


(** ** validar_horario *)

Definition is_digit (c : ascii) : bool :=
  match digit_cons c with
  | Some _ => true
  | None => false
  end.

(** A digit from 0 to [m]. *)
Definition digito_ate (m : N) (c : ascii) : bool :=
  let n := N_of_ascii c in ((48 <=? n) && (n <=? 48 + m))%N.

(** The first character of a text, as a code point, and the rest of the
    text. *)
Definition ponto (s : string) : option (N * string) :=
  match s with
  | EmptyString => None
  | String a r =>
      if (N_of_ascii a <? 128)%N then Some (N_of_ascii a, r)
      else
        match r with
        | EmptyString => None
        | String b r2 =>
            match ponto2 a b with
            | Some n => Some (n, r2)
            | None =>
                match r2 with
                | EmptyString => None
                | String c r3 =>
                    match ponto3 a b c with
                    | Some n => Some (n, r3)
                    | None =>
                        match r3 with
                        | EmptyString => None
                        | String d r4 =>
                            match ponto4 a b c d with
                            | Some n => Some (n, r4)
                            | None => None
                            end
                        end
                    end
                end
            end
        end
  end.

(** The decimal digits of Unicode (category [Nd]) as runs, each given by
    its first code point and its length: the table of the Unicode
    database 14.0, the one that CPython 3.11 carries.  The first run is
    the ten ASCII digits. *)
Definition decimais : list (N * N) :=
  ([(48, 10); (1632, 10); (1776, 10); (1984, 10); (2406, 10); (2534, 10);
   (2662, 10); (2790, 10); (2918, 10); (3046, 10); (3174, 10); (3302, 10);
   (3430, 10); (3558, 10); (3664, 10); (3792, 10); (3872, 10); (4160, 10);
   (4240, 10); (6112, 10); (6160, 10); (6470, 10); (6608, 10); (6784, 10);
   (6800, 10); (6992, 10); (7088, 10); (7232, 10); (7248, 10); (42528, 10);
   (43216, 10); (43264, 10); (43472, 10); (43504, 10); (43600, 10);
   (44016, 10); (65296, 10); (66720, 10); (68912, 10); (69734, 10);
   (69872, 10); (69942, 10); (70096, 10); (70384, 10); (70736, 10);
   (70864, 10); (71248, 10); (71360, 10); (71472, 10); (71904, 10);
   (72016, 10); (72784, 10); (73040, 10); (73120, 10); (92768, 10);
   (92864, 10); (93008, 10); (120782, 50); (123200, 10); (123632, 10);
   (125264, 10); (130032, 10)])%N.

Definition decimal (n : N) : bool :=
  existsb (fun p => ((fst p <=? n) && (n <? fst p + snd p))%N) decimais.

(** [\d] of a regular expression on a str: one decimal digit of Unicode
    at the head of the text.  The rest of the text is returned. *)
Definition casa_d (s : string) : option string :=
  match ponto s with
  | Some (n, r) => if decimal n then Some r else None
  | None => None
  end.

(** The directive [%M] of [_strptime], [[0-5]\d|\d]: an ASCII digit from
    0 to 5 and a decimal digit, or else one decimal digit.  The rest of
    the text is returned. *)
Definition casa_M (s : string) : option string :=
  let alt1 :=
    match s with
    | String a r => if digito_ate 5 a then casa_d r else None
    | EmptyString => None
    end in
  match alt1 with
  | Some r => Some r
  | None => casa_d s
  end.

(** The colon of the format, then [%M]. *)
Definition casa_dois_pontos_M (s : string) : option string :=
  match s with
  | EmptyString => None
  | String c r => if Ascii.eqb c ":" then casa_M r else None
  end.

(** The regular expression that [_strptime] builds for ["%H:%M"],
    [(2[0-3]|[0-1]\d|\d):([0-5]\d|\d)], matched at the head of the text:
    for [%H] a 2 and an ASCII digit up to 3, or else a 0 or a 1 and a
    decimal digit, or else one decimal digit, tried in this order, each
    followed by the colon and [%M]. *)
Definition casa_HM (s : string) : option string :=
  let alt1 :=
    match s with
    | String a (String b r) =>
        if Ascii.eqb a "2" && digito_ate 3 b then casa_dois_pontos_M r else None
    | _ => None
    end in
  let alt2 :=
    match s with
    | String a r =>
        if digito_ate 1 a then
          match casa_d r with
          | Some r' => casa_dois_pontos_M r'
          | None => None
          end
        else None
    | EmptyString => None
    end in
  let alt3 :=
    match casa_d s with
    | Some r => casa_dois_pontos_M r
    | None => None
    end in
  match alt1 with
  | Some r => Some r
  | None => match alt2 with
            | Some r => Some r
            | None => alt3
            end
  end.

(** [datetime.strptime(s, "%H:%M")] does not raise: the expression
    matches and nothing of the text remains. *)
Definition strptime_HM (s : string) : bool :=
  match casa_HM s with
  | Some EmptyString => true
  | _ => false
  end.

(** [validar_horario]: any exception of [strptime], the [TypeError] for
    an argument that is not a str included, gives [False]. *)
Definition validar_horario (hhmm : json) : bool :=
  match hhmm with
  | JStr s => strptime_HM s
  | _ => false
  end.

(** ** Scheduler *)

Definition callback : Type := list evento -> option excecao.

(** [notification]: [notification.notify] of plyer when its import
    succeeded ([PLYER_OK]), [None] otherwise. *)
Record Scheduler : Type := mkScheduler {
  intervalo : Z;
  demo_speed : bool;
  notification : option (string -> string -> callback);
  ui_callback_status : option (string -> callback);
  ui_callback_popup : option (string -> string -> callback)
}.

(** [Scheduler.__init__] *)
Definition Scheduler_init (notification : option (string -> string -> callback))
    (ui_callback_status : option (string -> callback))
    (ui_callback_popup : option (string -> string -> callback))
    (intervalo : Z) : Scheduler :=
  mkScheduler (Z.max 1 intervalo) false notification ui_callback_status ui_callback_popup.

(** [d.get(k, padrao)] *)
Definition get_ou (k : string) (padrao : json) (kv : list (string * json)) : json :=
  match dict_get k kv with
  | Some v => v
  | None => padrao
  end.

(** [it[k]] for a str [k] *)
Definition subscrito (k : string) (it : json) : M json :=
  match it with
  | JObj kv =>
      match dict_get k kv with
      | Some v => ret v
      | None => levantar (KeyError k)
      end
  | _ => levantar TypeError
  end.

(** The object that the snapshot [list(self.store.listar())] holds at
    position [i], as it is now: the snapshot copies the list, not the
    dicts, so it is the item at position [i] of the list of the store
    ([it0], the item as it was, when the store holds no such list). *)
Definition elemento (i : nat) (it0 : json) : M json :=
  d <- ler_dados ;;
  ret (match d with
       | JObj kv =>
           match dict_get "lembretes" kv with
           | Some (JList l) => nth i l it0
           | _ => it0
           end
       | _ => it0
       end).

(** Lines 123 to 136: the native notification, then the popup. *)
Definition notificar (self : Scheduler) (titulo mensagem : string) : M unit :=
  match notification self with
  | Some f =>
      tentar (chamar (EvNotify titulo mensagem) (f titulo mensagem)) (fun _ => ret tt)
  | None => ret tt
  end ;;;
  match ui_callback_popup self with
  | Some f =>
      tentar (chamar (EvPopup titulo mensagem) (f titulo mensagem))
             (fun e => emitir (EvPrint "Erro ao solicitar popup:" e))
  | None => ret tt
  end.

(** The body of the loop of [verificar] for the item at position [i]. *)
Definition verificar_item (self : Scheduler) (hh hoje : string) (p : nat * json) : M unit :=
  it <- elemento (fst p) (snd p) ;;
  match it with
  | JObj kv =>
      if negb (py_truthy (get_ou "ativo" (JBool true) kv)) then ret tt
      else if negb (validar_horario (get_ou "horario" (JStr EmptyString) kv)) then ret tt
      else if py_eq (get_ou "ultimo_disparo_em" JNull kv) (JStr hoje) then ret tt
      else
        h <- subscrito "horario" it ;;
        if py_eq h (JStr hh) then
          id <- subscrito "id" it ;;
          atualizar id [("ultimo_disparo_em", JStr hoje)] ;;;
          it' <- elemento (fst p) (snd p) ;;
          h' <- subscrito "horario" it' ;;
          t' <- subscrito "texto" it' ;;
          notificar self "Lembrete" (py_str h' ++ " - " ++ py_str t')
        else ret tt
  | _ => levantar AttributeError
  end.

(** [Scheduler.verificar]; [hh] and [hoje] are what [agora_hhmm()] and
    [hoje_iso()] give at the start of the cycle. *)
Definition verificar (self : Scheduler) (hh hoje : string) : M unit :=
  v <- listar ;;
  match py_iter v with
  | None => levantar TypeError
  | Some l =>
      para_cada (verificar_item self hh hoje) (combine (seq 0 (List.length l)) l) ;;;
      match ui_callback_status self with
      | Some f =>
          tentar (chamar (EvStatus ("Monitorando — " ++ hh)) (f ("Monitorando — " ++ hh)))
                 (fun _ => ret tt)
      | None => ret tt
      end
  end.

(** [Scheduler.run]: one cycle for each reading of the clock made before
    [_stop] is set. *)
Fixpoint run (self : Scheduler) (relogio : list (string * string)) : M unit :=
  match relogio with
  | [] => ret tt
  | (hh, hoje) :: relogio' =>
      tentar (verificar self hh hoje) (fun e => emitir (EvPrint "Erro Scheduler:" e)) ;;;
      emitir (EvSleep (if demo_speed self then 1%Z else intervalo self)) ;;;
      run self relogio'
  end.

(** ** The handlers of the window that write to the store

    The widgets are left out: what the user typed is an argument, a
    warning box is an event, and so is the refresh of the list, which
    reads the store and changes nothing in it. *)

(** [App.adicionar] *)
Definition App_adicionar (agora_ms : Z) (ent_texto ent_horario : string) : M unit :=
  let txt := strip ent_texto in
  let hh := strip ent_horario in
  if String.eqb txt EmptyString then
    emitir (EvWarning "Atenção" "Digite o texto do lembrete.")
  else if negb (validar_horario (JStr hh)) then
    emitir (EvWarning "Atenção" "Informe o horário no formato HH:MM (24h).")
  else
    adicionar agora_ms txt hh (JBool true) ;;; emitir EvRefresh.

(** The [salvar] closure of [App.editar], for the selected id [sel]. *)
Definition App_editar_salvar (sel : Z) (ent_t ent_h : string) : M unit :=
  let ntxt := strip ent_t in
  let nh := strip ent_h in
  if String.eqb ntxt EmptyString || negb (validar_horario (JStr nh)) then
    emitir (EvWarning "Atenção" "Preencha corretamente.")
  else
    atualizar (JInt sel) [("texto", JStr ntxt); ("horario", JStr nh)] ;;; emitir EvRefresh.

(** ** The reminders of the data model

    The typed view of a reminder, and the document that holds a sequence
    of them in the persisted format: the dict that [Store.adicionar]
    builds, key for key.  Every document that the store reaches from the
    empty one through the calls of the window has this shape. *)

Record Lembrete : Type := mkLembrete {
  lid : Z;
  ltexto : string;
  lhorario : string;
  lativo : bool;
  lultimo : option string
}.

Definition json_de_ultimo (u : option string) : json :=
  match u with
  | Some d => JStr d
  | None => JNull
  end.

Definition json_de_lembrete (r : Lembrete) : json :=
  JObj [("id", JInt (lid r));
        ("texto", JStr (ltexto r));
        ("horario", JStr (lhorario r));
        ("ativo", JBool (lativo r));
        ("ultimo_disparo_em", json_de_ultimo (lultimo r))].

Definition doc_de (ls : list Lembrete) : json :=
  JObj [("lembretes", JList (map json_de_lembrete ls))].

(** In the words of the specification: the reminder is due at minute
    [hh] of date [hoje] when it is active, its time of day is a valid
    HH:MM string equal to [hh], and it has not fired on [hoje]. *)
Definition dispara (hh hoje : string) (r : Lembrete) : Prop :=
  lativo r = true /\
  validar_horario (JStr (lhorario r)) = true /\
  lhorario r = hh /\
  lultimo r <> Some hoje.

Definition ultimo_e (hoje : string) (u : option string) : bool :=
  match u with
  | Some d => String.eqb d hoje
  | None => false
  end.

Definition dispara_b (hh hoje : string) (r : Lembrete) : bool :=
  lativo r && validar_horario (JStr (lhorario r)) &&
  String.eqb (lhorario r) hh && negb (ultimo_e hoje (lultimo r)).

(** The reminder with its fired-mark set to [hoje]. *)
Definition marcar (hoje : string) (r : Lembrete) : Lembrete :=
  mkLembrete (lid r) (ltexto r) (lhorario r) (lativo r) (Some hoje).

(** The list with the first reminder whose id is [n] marked: what
    [atualizar(n, ultimo_disparo_em=hoje)] does to the document. *)
Fixpoint marcar_primeiro (hoje : string) (n : Z) (ls : list Lembrete) : list Lembrete :=
  match ls with
  | [] => []
  | x :: l =>
      if Z.eqb (lid x) n then marcar hoje x :: l
      else x :: marcar_primeiro hoje n l
  end.

(** The reminder after a cycle at minute [hh] of date [hoje]. *)
Definition apos_ciclo (hh hoje : string) (r : Lembrete) : Lembrete :=
  if dispara_b hh hoje r then marcar hoje r else r.

(** The message of the notification of a reminder. *)
Definition mensagem (r : Lembrete) : string :=
  lhorario r ++ " - " ++ ltexto r.

(** What [notificar] adds to the events when the events so far are
    [hist]. *)
Definition eventos_notificar (self : Scheduler) (hist : list evento)
    (titulo msg : string) : list evento :=
  let e1 := match notification self with
            | Some _ => [EvNotify titulo msg]
            | None => []
            end in
  let e2 := match ui_callback_popup self with
            | Some g =>
                EvPopup titulo msg ::
                match g titulo msg (hist ++ e1)%list with
                | Some e => [EvPrint "Erro ao solicitar popup:" e]
                | None => []
                end
            | None => []
            end in
  (e1 ++ e2)%list.

(** What the loop of a cycle adds to the events: for each due reminder,
    the write of the document in which it is marked, then its
    notification.  [feitos]: the reminders already gone through, as they
    are now; [resto]: those still to go through. *)
Fixpoint eventos_itens (self : Scheduler) (hh hoje : string)
    (feitos resto : list Lembrete) (hist : list evento) : list evento :=
  match resto with
  | [] => []
  | r :: resto' =>
      if dispara_b hh hoje r then
        let e1 := [EvEscrita (dumps (doc_de (feitos ++ marcar hoje r :: resto')))] in
        let e2 := eventos_notificar self (hist ++ e1) "Lembrete" (mensagem r) in
        (e1 ++ e2 ++
         eventos_itens self hh hoje (feitos ++ [marcar hoje r]) resto'
           (hist ++ e1 ++ e2))%list
      else eventos_itens self hh hoje (feitos ++ [r]) resto' hist
  end.

(** What the call of the status callback adds. *)
Definition eventos_status (self : Scheduler) (hh : string) : list evento :=
  match ui_callback_status self with
  | Some _ => [EvStatus ("Monitorando — " ++ hh)]
  | None => []
  end.

(** The calls of the popup callback among the events: title, message. *)
Fixpoint chamadas_popup (l : list evento) : list (string * string) :=
  match l with
  | [] => []
  | EvPopup t m :: l' => (t, m) :: chamadas_popup l'
  | _ :: l' => chamadas_popup l'
  end.

(** The calls of [notification.notify] among the events. *)
Fixpoint chamadas_notify (l : list evento) : list (string * string) :=
  match l with
  | [] => []
  | EvNotify t m :: l' => (t, m) :: chamadas_notify l'
  | _ :: l' => chamadas_notify l'
  end.

(** The number of sleeps among the events: the cycles that ended. *)
Fixpoint conta_sleep (l : list evento) : nat :=
  match l with
  | [] => 0
  | EvSleep _ :: l' => S (conta_sleep l')
  | _ :: l' => conta_sleep l'
  end.

(** What a cycle may do to a reminder: leave it, or mark it when it is
    due. *)
Definition passo_ciclo (hh hoje : string) (x x' : Lembrete) : Prop :=
  x' = x \/ (dispara_b hh hoje x = true /\ x' = marcar hoje x).

(** The call (title, message) is the notification of a reminder of [l]. *)
Definition chamada_de (l : list Lembrete) (c : string * string) : Prop :=
  exists x, In x l /\ c = ("Lembrete", mensagem x).

(** The computation only adds events, and no sleep among them. *)
Definition sem_sleep {A} (c : M A) : Prop :=
  forall w w' r, c w = (w', r) ->
    exists novos, saida w' = (saida w ++ novos)%list /\ conta_sleep novos = 0.

(** The ids of the items of the document, in order. *)
Definition ids_de (d : json) : list json :=
  match d with
  | JObj kv =>
      match dict_get "lembretes" kv with
      | Some (JList l) =>
          flat_map (fun x => match x with
                             | JObj ikv => match dict_get "id" ikv with
                                           | Some v => [v]
                                           | None => []
                                           end
                             | _ => []
                             end) l
      | _ => []
      end
  | _ => []
  end.

(** No two of the values are equal for [==]. *)
Fixpoint ids_distintos (l : list json) : bool :=
  match l with
  | [] => true
  | x :: l' => forallb (fun y => negb (py_eq x y)) l' && ids_distintos l'
  end.

(** A caller that makes one call of [adicionar] after the other,
    whatever each of them does.  A call: the reading of the clock, the
    text, the time of day, the active flag. *)
Definition adicionar_todos (chamadas : list (Z * string * string * json)) : M unit :=
  para_cada (fun c =>
               match c with
               | (ms, t, h, a) =>
                   tentar (adicionar ms t h a ;;; ret tt) (fun _ => ret tt)
               end)
            chamadas.

(** The reading of the clock of a call of [adicionar_todos]. *)
Definition ms_de (c : Z * string * string * json) : Z := fst (fst (fst c)).

(** The item is a dict whose id is [item_id] / is another value. *)
Definition tem_id (item_id x : json) : Prop :=
  exists kv v, x = JObj kv /\ dict_get "id" kv = Some v /\ py_eq v item_id = true.

Definition tem_outro_id (item_id x : json) : Prop :=
  exists kv v, x = JObj kv /\ dict_get "id" kv = Some v /\ py_eq v item_id = false.

(** The world of a fresh install: no file yet, a directory that can be
    written, nothing observed. *)
Definition mundo_novo : Mundo := mkMundo JNull Ausente true [].

(** ** Measures and side conditions used by the statements *)

(** The depth of calls that [scan_once] needs to read the value back. *)
Fixpoint jsize (j : json) : nat :=
  match j with
  | JList l => S (list_sum (map (fun x => S (jsize x)) l))
  | JObj kv => S (list_sum (map (fun p => S (jsize (snd p))) kv))
  | _ => 1
  end.

(** The text does not go on with a decimal digit. *)
Definition nao_digito (s : string) : Prop :=
  match s with
  | EmptyString => True
  | String c _ => digit_cons c = None
  end.

(** The characters that a JSON number starts with. *)
Definition inicio_numero (c : ascii) : bool :=
  Ascii.eqb c "-" || is_digit c.

(** The characters that the text of a value starts with. *)
Definition inicio_valor (c : ascii) : bool :=
  inicio_numero c || Ascii.eqb c c_quote || Ascii.eqb c "[" || Ascii.eqb c "{"
  || Ascii.eqb c "n" || Ascii.eqb c "t" || Ascii.eqb c "f".

(** The value is read back from its text, whatever follows the text. *)
Definition lido_de_volta (x : json) : Prop :=
  forall level fuel r,
    jsize x <= fuel -> nao_digito r ->
    scan_once fuel (iterencode level x ++ r) = Some (x, r).

(** ** The clock *)

(** [%02d] of a number below 100: what [strftime] writes for [%H] and
    [%M], and [isoformat] for the month and the day. *)
Definition dois_digitos (n : N) : string :=
  String (ascii_of_N (48 + n / 10))
    (String (ascii_of_N (48 + n mod 10)) EmptyString).

(** [%04d] of a number below 10000: the year of [isoformat]. *)
Definition quatro_digitos (n : N) : string :=
  String (ascii_of_N (48 + n / 1000))
    (String (ascii_of_N (48 + (n / 100) mod 10)) (dois_digitos (n mod 100))).

(** [agora_hhmm()] when [datetime.now()] has the hour [hora] and the
    minute [minuto]. *)
Definition agora_hhmm (hora minuto : N) : string :=
  dois_digitos hora ++ ":" ++ dois_digitos minuto.

(** [hoje_iso()] when [date.today()] is the day [dia] of the month [mes]
    of the year [ano]. *)
Definition hoje_iso (ano mes dia : N) : string :=
  quatro_digitos ano ++ "-" ++ dois_digitos mes ++ "-" ++ dois_digitos dia.

(** [(agora + timedelta(minutes=k)).strftime("%H:%M")] for an [agora]
    whose hour and minute are [hora] and [minuto]. *)
Definition hhmm_apos (k hora minuto : N) : string :=
  let t := (hora * 60 + minuto + k)%N in
  agora_hhmm ((t / 60) mod 24) (t mod 60).

(** ** The other handlers of the window

    [sel] is what [_selecionado()] returned: [None] when no row is
    selected, the id of the selected row otherwise; [if not sel: return]
    leaves the handler on [None] and on the id 0.  A question box is an
    argument (the answer given), and the information box that closes a
    handler is not observed. *)

(** [[x for x in itens if x["id"] == sel]] *)
Fixpoint filtrar_id (item_id : json) (l : list json) : resultado (list json) :=
  match l with
  | [] => Retorna []
  | x :: l' =>
      match x with
      | JObj kv =>
          match dict_get "id" kv with
          | None => Levanta (KeyError "id")
          | Some v =>
              match filtrar_id item_id l' with
              | Retorna l'' => Retorna (if py_eq v item_id then x :: l'' else l'')
              | Levanta e => Levanta e
              end
          end
      | _ => Levanta TypeError
      end
  end.

(** [App.toggle] *)
Definition App_toggle (sel : option Z) : M unit :=
  match sel with
  | None => ret tt
  | Some n =>
      if Z.eqb n 0 then ret tt
      else
        v <- listar ;;
        match py_iter v with
        | None => levantar TypeError
        | Some l =>
            match filtrar_id (JInt n) l with
            | Levanta e => levantar e
            | Retorna [] => ret tt
            | Retorna (it :: _) =>
                match it with
                | JObj kv =>
                    atualizar (JInt n)
                      [("ativo",
                        JBool (negb (py_truthy (get_ou "ativo" (JBool true) kv))))] ;;;
                    emitir EvRefresh
                | _ => levantar AttributeError
                end
            end
        end
  end.

(** [App.excluir]; [confirma]: the answer to the question box. *)
Definition App_excluir (sel : option Z) (confirma : bool) : M unit :=
  match sel with
  | None => ret tt
  | Some n =>
      if Z.eqb n 0 then ret tt
      else if confirma then remover (JInt n) ;;; emitir EvRefresh
      else ret tt
  end.

(** [App.ativar_demo]; [hora] and [minuto]: the [datetime.now()] of its
    first line; [ms1], [ms2], [ms3]: the readings of the millisecond
    clock of the three calls of [adicionar].  The scheduler is returned
    with [demo_speed] set. *)
Definition App_ativar_demo (self : Scheduler) (hora minuto : N) (ms1 ms2 ms3 : Z)
  : M Scheduler :=
  adicionar ms1 "Beber água" (hhmm_apos 1 hora minuto) (JBool true) ;;;
  adicionar ms2 "Alongar as costas" (hhmm_apos 2 hora minuto) (JBool true) ;;;
  adicionar ms3 "Enviar relatório" (hhmm_apos 3 hora minuto) (JBool true) ;;;
  emitir EvRefresh ;;;
  ret (mkScheduler (intervalo self) true (notification self)
         (ui_callback_status self) (ui_callback_popup self)).

(** ** More of the data model *)

(** The value of one decimal digit. *)
Definition valor_digito (c : ascii) : option N :=
  if is_digit c then Some (N_of_ascii c - 48)%N else None.

(** The number that one or two decimal digits write. *)
Definition le_numero (s : string) : option N :=
  match s with
  | String a EmptyString => valor_digito a
  | String a (String b EmptyString) =>
      match valor_digito a, valor_digito b with
      | Some x, Some y => Some (10 * x + y)%N
      | _, _ => None
      end
  | _ => None
  end.

(** The list with [f] applied to the first reminder whose id is [n]. *)
Fixpoint no_primeiro (f : Lembrete -> Lembrete) (n : Z) (ls : list Lembrete)
  : list Lembrete :=
  match ls with
  | [] => []
  | x :: l => if Z.eqb (lid x) n then f x :: l else x :: no_primeiro f n l
  end.

(** The first reminder whose id is [n]. *)
Fixpoint primeiro_com_id (n : Z) (ls : list Lembrete) : option Lembrete :=
  match ls with
  | [] => None
  | x :: l => if Z.eqb (lid x) n then Some x else primeiro_com_id n l
  end.

(** The reminders whose id is not [n]. *)
Definition sem_id (n : Z) (ls : list Lembrete) : list Lembrete :=
  filter (fun r => negb (Z.eqb (lid r) n)) ls.

(** The reminder with its active flag inverted / with a new text and a
    new time of day. *)
Definition alternar (r : Lembrete) : Lembrete :=
  mkLembrete (lid r) (ltexto r) (lhorario r) (negb (lativo r)) (lultimo r).

Definition editar (t h : string) (r : Lembrete) : Lembrete :=
  mkLembrete (lid r) t h (lativo r) (lultimo r).

(** The reminder that [adicionar] builds. *)
Definition novo_lembrete (ms : Z) (t h : string) (a : json) : Lembrete :=
  mkLembrete ms (strip t) (strip h) (py_truthy a) None.

(** The seconds of the sleeps among the events, and the texts written to
    the file of the store. *)
Fixpoint sleeps (l : list evento) : list Z :=
  match l with
  | [] => []
  | EvSleep n :: l' => n :: sleeps l'
  | _ :: l' => sleeps l'
  end.

Fixpoint escritas (l : list evento) : list string :=
  match l with
  | [] => []
  | EvEscrita t :: l' => t :: escritas l'
  | _ :: l' => escritas l'
  end.

(** What a cycle in which no reminder is due adds to the events, and
    what the loop adds when no reminder is due in any of its cycles. *)
Definition eventos_ciclo_parado (self : Scheduler) (hh : string) : list evento :=
  (eventos_status self hh ++
   [EvSleep (if demo_speed self then 1%Z else intervalo self)])%list.

Definition eventos_parado (self : Scheduler) (relogio : list (string * string))
  : list evento :=
  flat_map (fun c => eventos_ciclo_parado self (fst c)) relogio.

(** A new store built on the file of [w] holds the document of [w]. *)
Definition reabre_igual (w : Mundo) : Prop :=
  forall w0, disco w0 = disco w ->
    exists w1, Store_init w0 = (w1, Retorna tt) /\ dados w1 = dados w.

(** An item after cycles of the scheduler: as it was, or with the key of
    the fired-mark set to a date. *)
Definition so_a_marca (x x' : json) : Prop :=
  x' = x \/
  exists kv d, x = JObj kv /\ x' = JObj (dict_set "ultimo_disparo_em" (JStr d) kv).

(** A document after cycles of the scheduler: as it was, or with the
    same keys and, under ["lembretes"], the same items in the same order,
    each of them as [so_a_marca] says. *)
Definition so_marcas (d d' : json) : Prop :=
  d' = d \/
  exists kv l l',
    d = JObj kv /\ dict_get "lembretes" kv = Some (JList l) /\
    d' = JObj (dict_set "lembretes" (JList l') kv) /\
    Forall2 so_a_marca l l'.

(** The computation changes the document by fired-marks only. *)
Definition mantem {A} (c : M A) : Prop :=
  forall w w' r, c w = (w', r) -> so_marcas (dados w) (dados w').

(** ** The write, chunk by chunk

    [json.dump] writes the document to the file one chunk at a time, as
    [_iterencode] yields them.  The file encodes each chunk in UTF-8 as
    it receives it; a chunk that cannot be encoded, or that cannot be
    built, raises, and the file keeps the chunks written before it. *)

(** The str holds a surrogate code point (U+D800 to U+DFFF): in its
    bytes, [ED] followed by a byte from [A0] to [BF].  [json.load] builds
    such a str from an escape [\uD800] .. [\uDFFF] that is not half of a
    pair; the UTF-8 codec of the file refuses it. *)
Fixpoint tem_substituto (s : string) : bool :=
  match s with
  | EmptyString => false
  | String a r =>
      match r with
      | EmptyString => false
      | String b _ =>
          ((N_of_ascii a =? 237) && (160 <=? N_of_ascii b) && (N_of_ascii b <=? 191))%N
          || tem_substituto r
      end
  end.

(** [sys.get_int_max_str_digits()]: the longest decimal text that [int]
    converts to or from, sign apart (the default of CPython 3.11). *)
Definition max_str_digits : nat := 4300.

Definition int_curto (n : Z) : bool :=
  Nat.leb (String.length (repr_int (Z.abs n))) max_str_digits.

(** The chunk of a str: [buf + _encoder(s)], written through the UTF-8
    codec. *)
Definition pedaco_str (buf s : string) : resultado string :=
  if tem_substituto s then Levanta (OutraExcecao "UnicodeEncodeError")
  else Retorna (buf ++ encode_basestring s).

(** The chunk of an int: [buf + int.__repr__(n)]. *)
Definition pedaco_int (buf : string) (n : Z) : resultado string :=
  if int_curto n then Retorna (buf ++ repr_int n)
  else Levanta (OutraExcecao "ValueError").

(** The chunk of an item of a list that is not a container: the pending
    [buf] and the item make one chunk. *)
Definition pedaco_escalar (buf : string) (v : json) : option (resultado string) :=
  match v with
  | JNull => Some (Retorna (buf ++ "null"))
  | JBool true => Some (Retorna (buf ++ "true"))
  | JBool false => Some (Retorna (buf ++ "false"))
  | JInt n => Some (pedaco_int buf n)
  | JStr s => Some (pedaco_str buf s)
  | JList _ => None
  | JObj _ => None
  end.

Section PedacosItens.
Variable rec : json -> list (resultado string).
Variable sep : string.

(** The loop of [_iterencode_list]: [buf] is ["["] and the indentation
    before the first item, the separator before the others. *)
Fixpoint pedacos_lista (buf : string) (l : list json) : list (resultado string) :=
  match l with
  | [] => []
  | v :: l' =>
      match pedaco_escalar buf v with
      | Some c => [c]
      | None => Retorna buf :: rec v
      end ++ pedacos_lista sep l'
  end%list.

(** The loop of [_iterencode_dict]: the separator, the key, the key
    separator, then the chunks of the value. *)
Fixpoint pedacos_dict (first : bool) (kv : list (string * json))
  : list (resultado string) :=
  match kv with
  | [] => []
  | p :: kv' =>
      (if first then [] else [Retorna sep]) ++
      pedaco_str EmptyString (fst p) :: Retorna ": " :: rec (snd p) ++
      pedacos_dict false kv'
  end%list.
End PedacosItens.

(** The chunks that [_iterencode] yields with [indent=2], in order. *)
Fixpoint pedacos (level : nat) (j : json) {struct j} : list (resultado string) :=
  match j with
  | JNull => [Retorna "null"]
  | JBool true => [Retorna "true"]
  | JBool false => [Retorna "false"]
  | JInt n => [pedaco_int EmptyString n]
  | JStr s => [pedaco_str EmptyString s]
  | JList [] => [Retorna "[]"]
  | JList l =>
      pedacos_lista (pedacos (S level)) ("," ++ newline_indent (S level))
        ("[" ++ newline_indent (S level)) l ++
      [Retorna (newline_indent level); Retorna "]"]
  | JObj [] => [Retorna "{}"]
  | JObj kv =>
      Retorna "{" :: Retorna (newline_indent (S level)) ::
      pedacos_dict (pedacos (S level)) ("," ++ newline_indent (S level)) true kv ++
      [Retorna (newline_indent level); Retorna "}"]
  end%list.

(** [for chunk in iterable: fp.write(chunk)]: the text that reaches the
    file, and the exception that stopped the loop, if any. *)
Fixpoint escrever (ps : list (resultado string)) : string * option excecao :=
  match ps with
  | [] => (EmptyString, None)
  | Retorna c :: ps' => let (t, e) := escrever ps' in (c ++ t, e)
  | Levanta e :: _ => (EmptyString, Some e)
  end.

(** [json.dump(d, f, ensure_ascii=False, indent=2)] on a file opened with
    [encoding="utf-8"]. *)
Definition json_dump (d : json) : string * option excecao :=
  escrever (pedacos 0 d).

(** [Store.salvar] with the write made chunk by chunk: [open] truncates
    the file, and what [json_dump] wrote before raising stays in it. *)
Definition salvar_utf8 : M unit :=
  fun w =>
    if gravavel w then
      let (txt, e) := json_dump (dados w) in
      let w' := mkMundo (dados w) (Texto txt) true (saida w ++ [EvEscrita txt]) in
      match e with
      | None => (w', Retorna tt)
      | Some x => (w', Levanta x)
      end
    else (w, Levanta OSError).

(** No str of the value, key or not, holds a surrogate. *)
Fixpoint sem_substituto (j : json) : bool :=
  match j with
  | JStr s => negb (tem_substituto s)
  | JList l => forallb sem_substituto l
  | JObj kv => forallb (fun p => negb (tem_substituto (fst p)) && sem_substituto (snd p)) kv
  | _ => true
  end.

(** Every int of the value is within [max_str_digits]. *)
Fixpoint inteiros_curtos (j : json) : bool :=
  match j with
  | JInt n => int_curto n
  | JList l => forallb inteiros_curtos l
  | JObj kv => forallb (fun p => inteiros_curtos (snd p)) kv
  | _ => true
  end.

(** How deep the containers of the value are nested. *)
Fixpoint profundidade (j : json) : nat :=
  match j with
  | JList l => S (list_max (map profundidade l))
  | JObj kv => S (list_max (map (fun p => profundidade (snd p)) kv))
  | _ => 0
  end.

(** The nesting that the recursion of [_iterencode] and of the scanner
    of [json.load] takes for sure: the interpreter allows 1000 frames by
    default. *)
Definition profundidade_maxima : nat := 100.

(** The documents that [json.dump] writes in full: the strs can be
    encoded in UTF-8, the ints can be converted to text, and the nesting
    is within the recursion that the interpreter allows. *)
Definition codificavel (j : json) : bool :=
  sem_substituto j && inteiros_curtos j && Nat.leb (profundidade j) profundidade_maxima.

(** The reminder can be written by [json.dump]: its id is within
    [max_str_digits] and its texts hold no surrogate. *)
Definition lembrete_codificavel (r : Lembrete) : bool :=
  int_curto (lid r) && negb (tem_substituto (ltexto r)) &&
  negb (tem_substituto (lhorario r)) &&
  match lultimo r with
  | Some u => negb (tem_substituto u)
  | None => true
  end.

(** ** The texts that the decoder takes

    [json.load] builds a float for a number with a fraction or an
    exponent, and for [NaN], [Infinity] and [-Infinity].  Floats are
    outside the embedding, so [loads] gives no value for a text that
    holds one; [json_valido] tells such a text, which [json.load]
    reads, from a text that it refuses. *)

(** [NUMBER_RE], the fraction: a dot and digits, when a digit follows the
    dot.  The rest of the text is returned. *)
Definition casa_fracao (r : string) : string :=
  match r with
  | String p (String c r') =>
      if Ascii.eqb p "." && is_digit c then snd (scan_digits (String c r')) else r
  | _ => r
  end.

(** [NUMBER_RE], the exponent: [e] or [E], a sign or none, and digits,
    when there is a digit. *)
Definition casa_expoente (r : string) : string :=
  match r with
  | String e r1 =>
      if Ascii.eqb e "e" || Ascii.eqb e "E" then
        let r2 := match r1 with
                  | String sg t => if Ascii.eqb sg "-" || Ascii.eqb sg "+" then t else r1
                  | EmptyString => r1
                  end in
        match r2 with
        | String c _ => if is_digit c then snd (scan_digits r2) else r
        | EmptyString => r
        end
      else r
  | EmptyString => r
  end.

(** [_match_number]: the rest of the text after a number, int or float. *)
Definition casa_numero (s : string) : option string :=
  match scan_int s with
  | Some (_, r) => Some (casa_expoente (casa_fracao r))
  | None => None
  end.

(** The literals of [scan_once], tried in its order. *)
Fixpoint casa_literal (ls : list string) (s : string) : option string :=
  match ls with
  | [] => None
  | l :: ls' =>
      match strip_prefix l s with
      | Some r => Some r
      | None => casa_literal ls' s
      end
  end.

(** [scan_once], [JSONObject] and [JSONArray] as they take a text,
    floats included: the rest of the text after one value. *)
Fixpoint reconhece (fuel : nat) (s : string) {struct fuel} : option string :=
  match fuel with
  | O => None
  | S f =>
      match s with
      | EmptyString => None
      | String c r =>
          if Ascii.eqb c c_quote then
            match scanstring r with
            | Some (_, r') => Some r'
            | None => None
            end
          else if Ascii.eqb c "{" then
            match skip_ws r with
            | EmptyString => None
            | String c1 r1 =>
                if Ascii.eqb c1 "}" then Some r1
                else reconhece_objeto f (String c1 r1)
            end
          else if Ascii.eqb c "[" then
            match skip_ws r with
            | EmptyString => None
            | String c1 r1 =>
                if Ascii.eqb c1 "]" then Some r1
                else reconhece_lista f (String c1 r1)
            end
          else
            match casa_literal ["null"; "true"; "false"; "NaN"; "Infinity"; "-Infinity"] s with
            | Some r' => Some r'
            | None => casa_numero s
            end
      end
  end

with reconhece_objeto (fuel : nat) (s : string) {struct fuel} : option string :=
  match fuel with
  | O => None
  | S f =>
      match s with
      | EmptyString => None
      | String c r =>
          if Ascii.eqb c c_quote then
            match scanstring r with
            | None => None
            | Some (_, r1) =>
                match skip_ws r1 with
                | EmptyString => None
                | String c2 r2 =>
                    if Ascii.eqb c2 ":" then
                      match reconhece f (skip_ws r2) with
                      | None => None
                      | Some r3 =>
                          match skip_ws r3 with
                          | EmptyString => None
                          | String c4 r4 =>
                              if Ascii.eqb c4 "}" then Some r4
                              else if Ascii.eqb c4 "," then reconhece_objeto f (skip_ws r4)
                              else None
                          end
                      end
                    else None
                end
            end
          else None
      end
  end

with reconhece_lista (fuel : nat) (s : string) {struct fuel} : option string :=
  match fuel with
  | O => None
  | S f =>
      match reconhece f s with
      | None => None
      | Some r1 =>
          match skip_ws r1 with
          | EmptyString => None
          | String c2 r2 =>
              if Ascii.eqb c2 "]" then Some r2
              else if Ascii.eqb c2 "," then reconhece_lista f (skip_ws r2)
              else None
          end
      end
  end.

(** [json.load] does not raise [JSONDecodeError] on the text: one value,
    white space around it, nothing else. *)
Definition json_valido (s : string) : bool :=
  match reconhece (S (String.length s)) (skip_ws s) with
  | Some r =>
      match skip_ws r with
      | EmptyString => true
      | String _ _ => false
      end
  | None => false
  end.

(** Every character of the text is of the ASCII range. *)
Definition so_ascii (s : string) : Prop :=
  forall c, In c (list_ascii_of_string s) -> (N_of_ascii c < 128)%N.

(** * Properties *)

(** ** Strings *)

Lemma append_assoc (a b c : string) : (a ++ b) ++ c = a ++ (b ++ c).
Proof. induction a as [|x a IH]; simpl; [reflexivity | now rewrite IH]. Qed.

Lemma append_nil_r (s : string) : s ++ EmptyString = s.
Proof. induction s as [|x s IH]; simpl; [reflexivity | now rewrite IH]. Qed.

Lemma length_append (a b : string) :
  String.length (a ++ b) = String.length a + String.length b.
Proof. induction a as [|x a IH]; simpl; [reflexivity | now rewrite IH]. Qed.

(** ** The persisted format is read back *)

Ltac casos_ascii c := destruct c as [[] [] [] [] [] [] [] []].

Lemma scan_units_escape_char c r us r' :
  scan_units r = Some (us, r') ->
  exists u, scan_units (escape_char c ++ r) = Some (u :: us, r') /\
            forall l, decode_units (u :: l) = String c (decode_units l).
Proof.
  intros H.
  casos_ascii c;
    (eexists; split;
     [ cbn; rewrite H; reflexivity
     | intro l; try reflexivity; destruct l as [|[?|?] ?]; reflexivity ]).
Qed.

Lemma scan_units_escape_all s r :
  exists us, scan_units (escape_all s ++ String c_quote r) = Some (us, r) /\
             decode_units us = s.
Proof.
  induction s as [|c s IH].
  - exists []. split; reflexivity.
  - destruct IH as (us & Hs & Hd).
    destruct (scan_units_escape_char c _ _ _ Hs) as (u & Hu & Hdu).
    exists (u :: us). split.
    + simpl escape_all. rewrite append_assoc. exact Hu.
    + rewrite Hdu, Hd. reflexivity.
Qed.

Lemma scanstring_escape_all s r :
  scanstring (escape_all s ++ String c_quote r) = Some (s, r).
Proof.
  unfold scanstring.
  destruct (scan_units_escape_all s r) as (us & Hs & Hd).
  rewrite Hs, Hd. reflexivity.
Qed.

Lemma scan_digits_string_of_uint d r :
  nao_digito r -> scan_digits (NilEmpty.string_of_uint d ++ r) = (d, r).
Proof.
  intros Hr. induction d; simpl; try (rewrite IHd; reflexivity).
  destruct r as [|c r]; simpl in *; [reflexivity | now rewrite Hr].
Qed.

Lemma nzhead_not_D0 d d' : nzhead d <> D0 d'.
Proof. induction d; simpl; try discriminate. exact IHd. Qed.

Lemma to_uint_head p :
  match Pos.to_uint p with
  | Nil | D0 _ => False
  | _ => True
  end.
Proof.
  assert (E : unorm (Pos.to_uint p) = Pos.to_uint p).
  { rewrite <- DecimalPos.Unsigned.to_of, DecimalPos.Unsigned.of_to. reflexivity. }
  pose proof (DecimalPos.Unsigned.to_uint_nonzero p) as Hz.
  unfold unorm in E.
  pose proof (nzhead_not_D0 (Pos.to_uint p)) as Hh.
  destruct (nzhead (Pos.to_uint p)) eqn:En.
  - symmetry in E. contradiction.
  - exfalso. now apply (Hh u).
  - rewrite <- E; exact I.
  - rewrite <- E; exact I.
  - rewrite <- E; exact I.
  - rewrite <- E; exact I.
  - rewrite <- E; exact I.
  - rewrite <- E; exact I.
  - rewrite <- E; exact I.
  - rewrite <- E; exact I.
  - rewrite <- E; exact I.
Qed.

Lemma of_uint_to_uint p : Z.of_uint (Pos.to_uint p) = Zpos p.
Proof.
  unfold Z.of_uint. rewrite DecimalPos.Unsigned.of_to. reflexivity.
Qed.

Lemma scan_int_repr n r :
  nao_digito r -> scan_int (repr_int n ++ r) = Some (n, r).
Proof.
  intros Hr. unfold repr_int. destruct n as [|p|p]; simpl Z.to_int.
  - reflexivity.
  - pose proof (to_uint_head p) as Hh. pose proof (of_uint_to_uint p) as Hv.
    pose proof (scan_digits_string_of_uint (Pos.to_uint p) r Hr) as Hd.
    destruct (Pos.to_uint p); try contradiction;
      unfold scan_int; simpl in *; rewrite Hd, Hv; reflexivity.
  - pose proof (to_uint_head p) as Hh. pose proof (of_uint_to_uint p) as Hv.
    pose proof (scan_digits_string_of_uint (Pos.to_uint p) r Hr) as Hd.
    destruct (Pos.to_uint p); try contradiction;
      unfold scan_int; simpl in *; rewrite Hd, Hv; reflexivity.
Qed.

Lemma inicio_valor_not_ws c :
  inicio_valor c = true ->
  is_ws c = false /\ Ascii.eqb c "]" = false /\ Ascii.eqb c "}" = false.
Proof. casos_ascii c; cbv; intros H; try discriminate H; repeat split. Qed.

Lemma repr_int_head n :
  exists c t, repr_int n = String c t /\ inicio_numero c = true.
Proof.
  unfold repr_int. destruct n as [|p|p]; simpl Z.to_int.
  - do 2 eexists; split; reflexivity.
  - pose proof (to_uint_head p) as Hh.
    destruct (Pos.to_uint p); try contradiction; do 2 eexists; split; reflexivity.
  - do 2 eexists; split; reflexivity.
Qed.

Lemma iterencode_head level j :
  exists c t, iterencode level j = String c t /\ inicio_valor c = true.
Proof.
  destruct j as [|[]|n|s|[|x l]|[|p kv]]; try (do 2 eexists; split; reflexivity).
  destruct (repr_int_head n) as (c & t & E & Hc).
  exists c, t. split; [exact E|]. unfold inicio_valor. now rewrite Hc.
Qed.

Lemma skip_ws_head c t : is_ws c = false -> skip_ws (String c t) = String c t.
Proof. intros H. simpl. now rewrite H. Qed.

Lemma skip_ws_indent level t : skip_ws (indent_str level ++ t) = skip_ws t.
Proof. induction level as [|l IH]; simpl; [reflexivity | exact IH]. Qed.

Lemma skip_ws_newline_indent level t :
  skip_ws (newline_indent level ++ t) = skip_ws t.
Proof. unfold newline_indent. simpl. apply skip_ws_indent. Qed.

Lemma skip_ws_iterencode level j r :
  skip_ws (iterencode level j ++ r) = iterencode level j ++ r.
Proof.
  destruct (iterencode_head level j) as (c & t & E & Hc).
  rewrite E. simpl append. apply skip_ws_head.
  now apply inicio_valor_not_ws.
Qed.

(** The equations of the decoder that the proofs unfold. *)
Lemma scan_once_quote f r :
  scan_once (S f) (String c_quote r) =
  match scanstring r with
  | Some (t, r') => Some (JStr t, r')
  | None => None
  end.
Proof. reflexivity. Qed.

Lemma scan_once_numero f c r :
  inicio_numero c = true ->
  scan_once (S f) (String c r) =
  match scan_int (String c r) with
  | Some (n, r') => Some (JInt n, r')
  | None => None
  end.
Proof. casos_ascii c; cbv [inicio_numero is_digit digit_cons Ascii.eqb Bool.eqb orb];
       intros H; try discriminate H; reflexivity. Qed.

Lemma scan_once_array f c1 r1 r :
  skip_ws r = String c1 r1 -> Ascii.eqb c1 "]" = false ->
  scan_once (S f) (String "[" r) =
  match JSONArray f (String c1 r1) with
  | Some (vs, r') => Some (JList vs, r')
  | None => None
  end.
Proof. intros E H. cbn. rewrite E, H. reflexivity. Qed.

Lemma scan_once_object f c1 r1 r :
  skip_ws r = String c1 r1 -> Ascii.eqb c1 "}" = false ->
  scan_once (S f) (String "{" r) =
  match JSONObject f (String c1 r1) with
  | Some (pairs, r') => Some (JObj (py_dict pairs), r')
  | None => None
  end.
Proof. intros E H. cbn. rewrite E, H. reflexivity. Qed.

Lemma JSONArray_S f s :
  JSONArray (S f) s =
  match scan_once f s with
  | None => None
  | Some (v, r1) =>
      match skip_ws r1 with
      | EmptyString => None
      | String c2 r2 =>
          if Ascii.eqb c2 "]" then Some ([v], r2)
          else if Ascii.eqb c2 "," then
            match JSONArray f (skip_ws r2) with
            | Some (vs, r3) => Some (v :: vs, r3)
            | None => None
            end
          else None
      end
  end.
Proof. reflexivity. Qed.

Lemma JSONObject_S f r :
  JSONObject (S f) (String c_quote r) =
  match scanstring r with
  | None => None
  | Some (key, r1) =>
      match skip_ws r1 with
      | EmptyString => None
      | String c2 r2 =>
          if Ascii.eqb c2 ":" then
            match scan_once f (skip_ws r2) with
            | None => None
            | Some (v, r3) =>
                match skip_ws r3 with
                | EmptyString => None
                | String c4 r4 =>
                    if Ascii.eqb c4 "}" then Some ([(key, v)], r4)
                    else if Ascii.eqb c4 "," then
                      match JSONObject f (skip_ws r4) with
                      | Some (ps, r5) => Some ((key, v) :: ps, r5)
                      | None => None
                      end
                    else None
                end
            end
          else None
      end
  end.
Proof. reflexivity. Qed.

Lemma encode_items_head {A} (enc1 : A -> string) sep close x l r :
  (forall y, exists c t, enc1 y = String c t /\ inicio_valor c = true) ->
  exists c t, encode_items enc1 sep close (x :: l) ++ r = String c t /\
              inicio_valor c = true.
Proof.
  intros H. destruct (H x) as (c & t & E & Hc).
  simpl encode_items. rewrite E. simpl append. eauto.
Qed.

Lemma skip_ws_inicio s c t :
  s = String c t -> inicio_valor c = true -> skip_ws s = s.
Proof.
  intros -> Hc. apply skip_ws_head. now apply inicio_valor_not_ws.
Qed.

Lemma encode_items_one {A} (enc1 : A -> string) sep close x r :
  encode_items enc1 sep close [x] ++ r = enc1 x ++ (close ++ r).
Proof. simpl. now rewrite append_assoc. Qed.

Lemma encode_items_more {A} (enc1 : A -> string) sep close x y l r :
  encode_items enc1 sep close (x :: y :: l) ++ r =
  enc1 x ++ (sep ++ (encode_items enc1 sep close (y :: l) ++ r)).
Proof.
  change (encode_items enc1 sep close (x :: y :: l))
    with (enc1 x ++ (sep ++ encode_items enc1 sep close (y :: l))).
  now rewrite !append_assoc.
Qed.

Lemma JSONArray_step_last f x s level r :
  scan_once f s = Some (x, (newline_indent level ++ "]") ++ r) ->
  JSONArray (S f) s = Some ([x], r).
Proof.
  intros H. rewrite JSONArray_S, H. simpl.
  rewrite append_assoc, skip_ws_indent. reflexivity.
Qed.

Lemma JSONArray_step_more f x s level rest vs r :
  scan_once f s = Some (x, ("," ++ newline_indent level) ++ rest) ->
  skip_ws rest = rest ->
  JSONArray f rest = Some (vs, r) ->
  JSONArray (S f) s = Some (x :: vs, r).
Proof.
  intros H Hs Hr. rewrite JSONArray_S, H. simpl.
  rewrite skip_ws_indent, Hs, Hr. reflexivity.
Qed.

Lemma JSONArray_encode_items level l :
  Forall lido_de_volta l -> l <> [] ->
  forall f r,
    list_sum (map (fun x => S (jsize x)) l) <= f ->
    JSONArray f
      (encode_items (iterencode (S level)) ("," ++ newline_indent (S level))
         (newline_indent level ++ "]") l ++ r) = Some (l, r).
Proof.
  induction 1 as [|x l Hx Hl IH]; intros Hne f r Hf; [congruence|].
  simpl in Hf. destruct f as [|f]; [lia|].
  destruct l as [|y l'].
  - rewrite encode_items_one.
    apply (JSONArray_step_last f x _ level r).
    apply Hx; [lia|reflexivity].
  - rewrite encode_items_more.
    destruct (encode_items_head (iterencode (S level))
                ("," ++ newline_indent (S level)) (newline_indent level ++ "]") y l' r
                (iterencode_head (S level))) as (c & t & E & Hc).
    eapply (JSONArray_step_more f x _ (S level)).
    + apply Hx; [lia|reflexivity].
    + exact (skip_ws_inicio _ c t E Hc).
    + apply IH; [discriminate|simpl in *; lia].
Qed.

Lemma JSONObject_step_last f k v s level r :
  scan_once f s = Some (v, (newline_indent level ++ "}") ++ r) ->
  skip_ws s = s ->
  JSONObject (S f) (encode_basestring k ++ (": " ++ s)) = Some ([(k, v)], r).
Proof.
  intros H Hs. unfold encode_basestring. simpl append.
  rewrite append_assoc. simpl append.
  rewrite JSONObject_S, scanstring_escape_all. simpl.
  rewrite Hs, H. simpl.
  rewrite append_assoc, skip_ws_indent. reflexivity.
Qed.

Lemma JSONObject_step_more f k v s level rest ps r :
  scan_once f s = Some (v, ("," ++ newline_indent level) ++ rest) ->
  skip_ws s = s ->
  skip_ws rest = rest ->
  JSONObject f rest = Some (ps, r) ->
  JSONObject (S f) (encode_basestring k ++ (": " ++ s)) = Some ((k, v) :: ps, r).
Proof.
  intros H Hs Hrest Hr. unfold encode_basestring. simpl append.
  rewrite append_assoc. simpl append.
  rewrite JSONObject_S, scanstring_escape_all. simpl.
  rewrite Hs, H. simpl.
  rewrite skip_ws_indent, Hrest, Hr. reflexivity.
Qed.

Lemma item_assoc (k v rest : string) :
  (encode_basestring k ++ ": " ++ v) ++ rest =
  encode_basestring k ++ (": " ++ (v ++ rest)).
Proof. now rewrite !append_assoc. Qed.

Lemma JSONObject_encode_items level kv :
  Forall (fun p => lido_de_volta (snd p)) kv -> kv <> [] ->
  forall f r,
    list_sum (map (fun p => S (jsize (snd p))) kv) <= f ->
    JSONObject f
      (encode_items
         (fun p => encode_basestring (fst p) ++ ": " ++ iterencode (S level) (snd p))
         ("," ++ newline_indent (S level)) (newline_indent level ++ "}") kv ++ r)
    = Some (kv, r).
Proof.
  induction 1 as [|[k v] kv Hx Hl IH]; intros Hne f r Hf; [congruence|].
  simpl in Hf, Hx. destruct f as [|f]; [lia|].
  destruct kv as [|q kv'].
  - rewrite encode_items_one. simpl fst. simpl snd.
    rewrite item_assoc.
    apply (JSONObject_step_last f k v _ level r).
    + apply Hx; [lia|reflexivity].
    + apply skip_ws_iterencode.
  - rewrite encode_items_more. simpl fst. simpl snd.
    rewrite item_assoc.
    assert (Hq : exists c t,
               encode_items
                 (fun p => encode_basestring (fst p) ++ ": " ++ iterencode (S level) (snd p))
                 ("," ++ newline_indent (S level)) (newline_indent level ++ "}")
                 (q :: kv') ++ r = String c t /\ inicio_valor c = true).
    { apply encode_items_head. intros y. do 2 eexists. split; reflexivity. }
    destruct Hq as (c & t & E & Hc).
    eapply (JSONObject_step_more f k v _ (S level)).
    + apply Hx; [lia|reflexivity].
    + apply skip_ws_iterencode.
    + exact (skip_ws_inicio _ c t E Hc).
    + apply IH; [discriminate|simpl in *; lia].
Qed.

Lemma dict_set_novo k v d :
  ~ In k (map fst d) -> dict_set k v d = (d ++ [(k, v)])%list.
Proof.
  induction d as [|[k' v'] d IH]; simpl; intros H; [reflexivity|].
  destruct (String.eqb_spec k k') as [->|Hk].
  - exfalso. apply H. now left.
  - rewrite IH; [reflexivity|]. intros Hin. apply H. now right.
Qed.

Lemma dict_update_nodup kv : forall acc,
  NoDup (map fst (acc ++ kv)%list) -> dict_update acc kv = (acc ++ kv)%list.
Proof.
  unfold dict_update.
  induction kv as [|[k v] kv IH]; intros acc H; simpl.
  - now rewrite List.app_nil_r.
  - assert (Hk : ~ In k (map fst acc)).
    { rewrite map_app in H. simpl in H. apply NoDup_remove_2 in H.
      intros Hin. apply H. apply in_or_app. now left. }
    rewrite (dict_set_novo k v acc Hk), IH.
    + now rewrite <- List.app_assoc.
    + now rewrite <- List.app_assoc.
Qed.

Lemma py_dict_nodup kv : NoDup (map fst kv) -> py_dict kv = kv.
Proof. intros H. unfold py_dict. now rewrite dict_update_nodup. Qed.

Lemma iterencode_list level x l r :
  iterencode level (JList (x :: l)) ++ r =
  ("[" ++ newline_indent (S level)) ++
  (encode_items (iterencode (S level)) ("," ++ newline_indent (S level))
     (newline_indent level ++ "]") (x :: l) ++ r).
Proof.
  change (iterencode level (JList (x :: l)))
    with (("[" ++ newline_indent (S level)) ++
          encode_items (iterencode (S level)) ("," ++ newline_indent (S level))
            (newline_indent level ++ "]") (x :: l)).
  apply append_assoc.
Qed.

Lemma iterencode_dict level p kv r :
  iterencode level (JObj (p :: kv)) ++ r =
  ("{" ++ newline_indent (S level)) ++
  (encode_items
     (fun p => encode_basestring (fst p) ++ ": " ++ iterencode (S level) (snd p))
     ("," ++ newline_indent (S level)) (newline_indent level ++ "}") (p :: kv) ++ r).
Proof.
  change (iterencode level (JObj (p :: kv)))
    with (("{" ++ newline_indent (S level)) ++
          encode_items
            (fun p => encode_basestring (fst p) ++ ": " ++ iterencode (S level) (snd p))
            ("," ++ newline_indent (S level)) (newline_indent level ++ "}") (p :: kv)).
  apply append_assoc.
Qed.

Lemma scan_once_list_step f level items c t vs r :
  items = String c t -> inicio_valor c = true ->
  JSONArray f items = Some (vs, r) ->
  scan_once (S f) (("[" ++ newline_indent level) ++ items) = Some (JList vs, r).
Proof.
  intros E Hc H. destruct (inicio_valor_not_ws c Hc) as (Hw & Hb & _).
  change (("[" ++ newline_indent level) ++ items)
    with (String "[" (newline_indent level ++ items)).
  rewrite (scan_once_array f c t).
  - rewrite <- E, H. reflexivity.
  - rewrite skip_ws_newline_indent, E. now apply skip_ws_head.
  - exact Hb.
Qed.

Lemma scan_once_dict_step f level items c t ps r :
  items = String c t -> inicio_valor c = true ->
  JSONObject f items = Some (ps, r) ->
  scan_once (S f) (("{" ++ newline_indent level) ++ items)
  = Some (JObj (py_dict ps), r).
Proof.
  intros E Hc H. destruct (inicio_valor_not_ws c Hc) as (Hw & _ & Hb).
  change (("{" ++ newline_indent level) ++ items)
    with (String "{" (newline_indent level ++ items)).
  rewrite (scan_once_object f c t).
  - rewrite <- E, H. reflexivity.
  - rewrite skip_ws_newline_indent, E. now apply skip_ws_head.
  - exact Hb.
Qed.

Lemma scan_once_iterencode j : chaves_unicas j -> lido_de_volta j.
Proof.
  induction j as [|b|n|s|l IH|kv IH] using json_ind_nested;
    intros Hu level fuel r Hf Hr;
    (destruct fuel as [|f]; [simpl in Hf; lia|]).
  - reflexivity.
  - destruct b; reflexivity.
  - destruct (repr_int_head n) as (c & t & E & Hc).
    pose proof (scan_int_repr n r Hr) as Hs.
    change (iterencode level (JInt n)) with (repr_int n).
    rewrite E in *. simpl append in *.
    rewrite (scan_once_numero f c _ Hc), Hs. reflexivity.
  - simpl iterencode. unfold encode_basestring. simpl append.
    rewrite append_assoc. simpl append.
    rewrite scan_once_quote, scanstring_escape_all. reflexivity.
  - inversion Hu as [| | | |l' Hl|]; subst.
    assert (Hall : Forall lido_de_volta l).
    { rewrite Forall_forall in *. intros x Hx. apply IH; auto. }
    destruct l as [|x l]; [reflexivity|].
    rewrite iterencode_list.
    destruct (encode_items_head (iterencode (S level))
                ("," ++ newline_indent (S level)) (newline_indent level ++ "]") x l r
                (iterencode_head (S level))) as (c & t & E & Hc).
    apply (scan_once_list_step f (S level) _ c t); [exact E|exact Hc|].
    apply JSONArray_encode_items; [exact Hall|discriminate|].
    simpl in Hf. simpl. lia.
  - inversion Hu as [| | | | |kv' Hnd Hl]; subst.
    assert (Hall : Forall (fun p => lido_de_volta (snd p)) kv).
    { rewrite Forall_forall in *. intros x Hx. apply IH; auto. }
    destruct kv as [|p kv]; [reflexivity|].
    rewrite iterencode_dict.
    assert (Hq : exists c t,
               encode_items
                 (fun p => encode_basestring (fst p) ++ ": " ++ iterencode (S level) (snd p))
                 ("," ++ newline_indent (S level)) (newline_indent level ++ "}")
                 (p :: kv) ++ r = String c t /\ inicio_valor c = true).
    { apply encode_items_head. intros y. do 2 eexists. split; reflexivity. }
    destruct Hq as (c & t & E & Hc).
    rewrite <- (py_dict_nodup (p :: kv) Hnd) at 2.
    apply (scan_once_dict_step f (S level) _ c t); [exact E|exact Hc|].
    apply JSONObject_encode_items; [exact Hall|discriminate|].
    simpl in Hf. simpl. lia.
Qed.

Lemma length_encode_items {A} (enc1 : A -> string) (sz : A -> nat) sep close l :
  Forall (fun x => sz x <= String.length (enc1 x)) l ->
  1 <= String.length sep -> 1 <= String.length close ->
  list_sum (map (fun x => S (sz x)) l) <= String.length (encode_items enc1 sep close l).
Proof.
  intros H Hs Hc. induction H as [|x l Hx Hl IH]; simpl; [lia|].
  rewrite length_append. destruct l as [|y l'].
  - simpl. lia.
  - rewrite length_append. cbn [list_sum map] in *. lia.
Qed.

Lemma jsize_le_length j : forall level, jsize j <= String.length (iterencode level j).
Proof.
  induction j as [|b|n|s|l IH|kv IH] using json_ind_nested; intros level.
  - simpl. lia.
  - destruct b; simpl; lia.
  - destruct (repr_int_head n) as (c & t & E & _).
    change (iterencode level (JInt n)) with (repr_int n). rewrite E. simpl. lia.
  - simpl. lia.
  - destruct l as [|x l]; [simpl; lia|].
    pose proof (iterencode_list level x l EmptyString) as E.
    rewrite !append_nil_r in E. rewrite E, length_append.
    assert (Hi : list_sum (map (fun x => S (jsize x)) (x :: l)) <=
                 String.length
                   (encode_items (iterencode (S level)) ("," ++ newline_indent (S level))
                      (newline_indent level ++ "]") (x :: l))).
    { apply length_encode_items; [|simpl; lia|simpl; lia].
      rewrite Forall_forall in *. intros y Hy. apply IH, Hy. }
    change (jsize (JList (x :: l)))
      with (S (list_sum (map (fun x => S (jsize x)) (x :: l)))).
    simpl String.length at 1. lia.
  - destruct kv as [|p kv]; [simpl; lia|].
    pose proof (iterencode_dict level p kv EmptyString) as E.
    rewrite !append_nil_r in E. rewrite E, length_append.
    assert (Hi : list_sum (map (fun p => S (jsize (snd p))) (p :: kv)) <=
                 String.length
                   (encode_items
                      (fun p => encode_basestring (fst p) ++ ": " ++
                                iterencode (S level) (snd p))
                      ("," ++ newline_indent (S level))
                      (newline_indent level ++ "}") (p :: kv))).
    { apply (length_encode_items _ (fun p => jsize (snd p))); [|simpl; lia|simpl; lia].
      rewrite Forall_forall in *. intros y Hy.
      rewrite !length_append. specialize (IH y Hy (S level)). lia. }
    change (jsize (JObj (p :: kv)))
      with (S (list_sum (map (fun p => S (jsize (snd p))) (p :: kv)))).
    simpl String.length at 1. lia.
Qed.

(** [json.loads] reads back what [json.dumps] wrote. *)
Lemma loads_dumps d : chaves_unicas d -> loads (dumps d) = Some d.
Proof.
  intros Hu. unfold loads, dumps.
  pose proof (skip_ws_iterencode 0 d EmptyString) as Hw.
  rewrite append_nil_r in Hw. rewrite Hw.
  pose proof (scan_once_iterencode d Hu 0 (S (String.length (iterencode 0 d)))
                EmptyString) as Hs.
  rewrite append_nil_r in Hs. rewrite Hs; [reflexivity| |exact I].
  pose proof (jsize_le_length d 0). lia.
Qed.

(** ** The write, chunk by chunk *)

Lemma escrever_app ps qs :
  escrever (ps ++ qs) =
  match escrever ps with
  | (t, None) => let (u, e) := escrever qs in (t ++ u, e)
  | (t, Some e) => (t, Some e)
  end.
Proof.
  induction ps as [|[c|e] ps IH]; cbn [List.app escrever].
  - destruct (escrever qs); reflexivity.
  - rewrite IH. destruct (escrever ps) as [t [e|]]; [reflexivity|].
    destruct (escrever qs) as [u e]. now rewrite append_assoc.
  - reflexivity.
Qed.

Lemma escrever_tudo ps t qs :
  escrever ps = (t, None) ->
  escrever (ps ++ qs) = (let (u, e) := escrever qs in (t ++ u, e)).
Proof. intros H. now rewrite escrever_app, H. Qed.

Lemma pedaco_escalar_ok buf v c :
  pedaco_escalar buf v = Some c ->
  sem_substituto v = true -> inteiros_curtos v = true ->
  forall level, c = Retorna (buf ++ iterencode level v).
Proof.
  destruct v as [|[]|n|s| |]; cbn [pedaco_escalar]; try discriminate;
    intros [= <-] Hs Hi level; try reflexivity.
  - unfold pedaco_int. cbn [inteiros_curtos] in Hi. now rewrite Hi.
  - unfold pedaco_str. cbn [sem_substituto] in Hs. apply negb_true_iff in Hs.
    now rewrite Hs.
Qed.

(** What the recursion gives for the items of a container. *)
Definition escrito (lv : nat) (v : json) : Prop :=
  sem_substituto v = true /\ inteiros_curtos v = true /\
  escrever (pedacos lv v) = (iterencode lv v, None).

Lemma escrever_item lv buf v :
  escrito lv v ->
  escrever (match pedaco_escalar buf v with
            | Some c => [c]
            | None => Retorna buf :: pedacos lv v
            end) = (buf ++ iterencode lv v, None).
Proof.
  intros (Hs & Hi & He).
  destruct (pedaco_escalar buf v) as [c|] eqn:E.
  - rewrite (pedaco_escalar_ok buf v c E Hs Hi lv). cbn [escrever].
    now rewrite append_nil_r.
  - cbn [escrever]. now rewrite He.
Qed.

Lemma escrever_pedacos_lista lv sep close tail :
  escrever tail = (close, None) ->
  forall l x buf,
    Forall (escrito lv) (x :: l) ->
    escrever (pedacos_lista (pedacos lv) sep buf (x :: l) ++ tail) =
    (buf ++ encode_items (iterencode lv) sep close (x :: l), None).
Proof.
  intros Ht. induction l as [|y l IH]; intros x buf H.
  - inversion H as [|? ? Hx _]; subst.
    cbn [pedacos_lista encode_items]. rewrite List.app_nil_r.
    rewrite (escrever_tudo _ _ _ (escrever_item lv buf x Hx)), Ht.
    now rewrite append_assoc.
  - inversion H as [|? ? Hx Hl]; subst.
    change (pedacos_lista (pedacos lv) sep buf (x :: y :: l))
      with (match pedaco_escalar buf x with
            | Some c => [c]
            | None => Retorna buf :: pedacos lv x
            end ++ pedacos_lista (pedacos lv) sep sep (y :: l))%list.
    rewrite <- List.app_assoc.
    rewrite (escrever_tudo _ _ _ (escrever_item lv buf x Hx)), (IH y sep Hl).
    change (encode_items (iterencode lv) sep close (x :: y :: l))
      with (iterencode lv x ++ sep ++ encode_items (iterencode lv) sep close (y :: l)).
    now rewrite append_assoc.
Qed.

Lemma escrever_pedacos_dict lv sep close tail :
  escrever tail = (close, None) ->
  forall kv p first,
    Forall (fun q => tem_substituto (fst q) = false /\ escrito lv (snd q)) (p :: kv) ->
    escrever (pedacos_dict (pedacos lv) sep first (p :: kv) ++ tail) =
    ((if first then EmptyString else sep) ++
     encode_items (fun q => encode_basestring (fst q) ++ ": " ++ iterencode lv (snd q))
       sep close (p :: kv), None).
Proof.
  intros Ht.
  assert (K : forall (p : string * json) (first : bool) rest u,
    tem_substituto (fst p) = false -> escrito lv (snd p) ->
    escrever rest = (u, None) ->
    escrever ((if first then [] else [Retorna sep]) ++
              pedaco_str EmptyString (fst p) :: Retorna ": " :: pedacos lv (snd p) ++ rest)%list =
    ((if first then EmptyString else sep) ++
     (encode_basestring (fst p) ++ ": " ++ iterencode lv (snd p)) ++ u, None)).
  { intros p first rest u Hk (_ & _ & He) Hr.
    unfold pedaco_str. rewrite Hk. cbn [append].
    assert (E : escrever (Retorna (encode_basestring (fst p)) ::
                          Retorna ": " :: pedacos lv (snd p) ++ rest)%list =
                ((encode_basestring (fst p) ++ ": " ++ iterencode lv (snd p)) ++ u, None)).
    { cbn [escrever]. rewrite (escrever_tudo _ _ _ He), Hr.
      cbn [append]. now rewrite !append_assoc. }
    destruct first; cbn [List.app escrever]; [exact E|].
    cbn [List.app escrever] in E. now rewrite E. }
  induction kv as [|q kv IH]; intros p first H.
  - inversion H as [|? ? [Hk Hv] _]; subst.
    pose proof (K p first tail close Hk Hv Ht) as E.
    cbn [pedacos_dict encode_items]. rewrite List.app_nil_r.
    rewrite <- List.app_assoc. exact E.
  - inversion H as [|? ? [Hk Hv] Hl]; subst.
    pose proof (K p first _ _ Hk Hv (IH q false Hl)) as E.
    change (pedacos_dict (pedacos lv) sep first (p :: q :: kv))
      with ((if first then [] else [Retorna sep]) ++
            pedaco_str EmptyString (fst p) :: Retorna ": " :: pedacos lv (snd p) ++
            pedacos_dict (pedacos lv) sep false (q :: kv))%list.
    rewrite <- List.app_assoc.
    change ((pedaco_str EmptyString (fst p) :: Retorna ": " :: pedacos lv (snd p) ++
             pedacos_dict (pedacos lv) sep false (q :: kv)) ++ tail)%list
      with (pedaco_str EmptyString (fst p) :: Retorna ": " ::
            (pedacos lv (snd p) ++ pedacos_dict (pedacos lv) sep false (q :: kv)) ++ tail)%list.
    rewrite <- List.app_assoc. exact E.
Qed.

(** On a value whose strs and ints can be written, the chunks are all
    written and make the text of [iterencode]. *)
Lemma escrever_pedacos j :
  sem_substituto j = true -> inteiros_curtos j = true ->
  forall level, escrever (pedacos level j) = (iterencode level j, None).
Proof.
  induction j as [|b|n|s|l IH|kv IH] using json_ind_nested; intros Hs Hi level.
  - reflexivity.
  - destruct b; reflexivity.
  - cbn [pedacos escrever iterencode]. unfold pedaco_int.
    cbn [inteiros_curtos] in Hi. rewrite Hi. cbn [escrever append]. now rewrite append_nil_r.
  - cbn [pedacos escrever iterencode]. unfold pedaco_str.
    cbn [sem_substituto] in Hs. apply negb_true_iff in Hs. rewrite Hs.
    cbn [escrever append]. now rewrite append_nil_r.
  - destruct l as [|x l]; [reflexivity|].
    cbn [sem_substituto] in Hs. cbn [inteiros_curtos] in Hi.
    rewrite forallb_forall in Hs, Hi. rewrite Forall_forall in IH.
    change (pedacos level (JList (x :: l)))
      with (pedacos_lista (pedacos (S level)) ("," ++ newline_indent (S level))
              ("[" ++ newline_indent (S level)) (x :: l) ++
            [Retorna (newline_indent level); Retorna "]"])%list.
    rewrite (escrever_pedacos_lista (S level) _ (newline_indent level ++ "]")).
    + cbn [iterencode]. now rewrite <- append_assoc.
    + cbn [escrever]. now rewrite append_nil_r.
    + apply Forall_forall. intros v Hv. repeat split; auto.
  - destruct kv as [|p kv]; [reflexivity|].
    cbn [sem_substituto] in Hs. cbn [inteiros_curtos] in Hi.
    rewrite forallb_forall in Hs, Hi. rewrite Forall_forall in IH.
    change (pedacos level (JObj (p :: kv)))
      with (Retorna "{" :: Retorna (newline_indent (S level)) ::
            pedacos_dict (pedacos (S level)) ("," ++ newline_indent (S level)) true (p :: kv) ++
            [Retorna (newline_indent level); Retorna "}"])%list.
    cbn [escrever].
    rewrite (escrever_pedacos_dict (S level) _ (newline_indent level ++ "}")).
    + cbn [iterencode append]. reflexivity.
    + cbn [escrever]. now rewrite append_nil_r.
    + apply Forall_forall. intros q Hq. specialize (Hs q Hq).
      apply andb_prop in Hs as [H1 H2]. apply negb_true_iff in H1.
      repeat split; auto.
Qed.

Lemma codificavel_partes j :
  codificavel j = true ->
  sem_substituto j = true /\ inteiros_curtos j = true /\
  profundidade j <= profundidade_maxima.
Proof.
  unfold codificavel. intros H. apply andb_prop in H as [H H3].
  apply andb_prop in H as [H1 H2]. apply Nat.leb_le in H3. auto.
Qed.

(** [json.dump] writes a document that can be encoded in full: the file
    receives the text of [dumps]. *)
Lemma json_dump_codificavel d :
  codificavel d = true -> json_dump d = (dumps d, None).
Proof.
  intros H. apply codificavel_partes in H as (H1 & H2 & _).
  now apply escrever_pedacos.
Qed.

Lemma salvar_utf8_codificavel w :
  codificavel (dados w) = true -> salvar_utf8 w = salvar w.
Proof.
  intros H. unfold salvar_utf8, salvar. now rewrite (json_dump_codificavel _ H).
Qed.

(** ** The texts that the decoder takes *)

(** After a value that is followed by white space, a comma or a closing
    bracket, or by nothing, there is no fraction and no exponent. *)
Lemma sem_fracao r c t :
  skip_ws r = String c t ->
  c = "}"%char \/ c = "]"%char \/ c = ","%char ->
  casa_expoente (casa_fracao r) = r.
Proof.
  destruct r as [|a r]; [reflexivity|]. cbn [skip_ws].
  assert (K : Ascii.eqb a "." = false /\ Ascii.eqb a "e" = false /\ Ascii.eqb a "E" = false ->
              casa_expoente (casa_fracao (String a r)) = String a r).
  { intros (H1 & H2 & H3). unfold casa_fracao.
    assert (E : (match r with
                 | EmptyString => String a r
                 | String c0 r' =>
                     if Ascii.eqb a "." && is_digit c0
                     then snd (scan_digits (String c0 r')) else String a r
                 end) = String a r)
      by (destruct r; [reflexivity|now rewrite H1]).
    rewrite E. unfold casa_expoente. now rewrite H2, H3. }
  destruct (is_ws a) eqn:Ew.
  - intros _ _. apply K. revert Ew. clear. casos_ascii a; cbv; intuition congruence.
  - intros [= -> _] [->|[->| ->]]; apply K; repeat split; reflexivity.
Qed.

Lemma sem_fracao_fim r : skip_ws r = EmptyString -> casa_expoente (casa_fracao r) = r.
Proof.
  destruct r as [|a r]; [reflexivity|]. cbn [skip_ws].
  destruct (is_ws a) eqn:Ew; [|discriminate]. intros _.
  assert (H : Ascii.eqb a "." = false /\ Ascii.eqb a "e" = false /\ Ascii.eqb a "E" = false)
    by (revert Ew; clear; casos_ascii a; cbv; intuition congruence).
  destruct H as (H1 & H2 & H3). unfold casa_fracao.
  assert (E : (match r with
               | EmptyString => String a r
               | String c0 r' =>
                   if Ascii.eqb a "." && is_digit c0
                   then snd (scan_digits (String c0 r')) else String a r
               end) = String a r)
    by (destruct r; [reflexivity|now rewrite H1]).
  rewrite E. unfold casa_expoente. now rewrite H2, H3.
Qed.

(** What the decoder of the embedding reads, the decoder of CPython
    takes. *)
Lemma scan_reconhece : forall fuel,
  (forall s j r, scan_once fuel s = Some (j, r) ->
                 casa_expoente (casa_fracao r) = r -> reconhece fuel s = Some r) /\
  (forall s ps r, JSONObject fuel s = Some (ps, r) -> reconhece_objeto fuel s = Some r) /\
  (forall s vs r, JSONArray fuel s = Some (vs, r) -> reconhece_lista fuel s = Some r).
Proof.
  induction fuel as [|f (IH1 & IH2 & IH3)]; [repeat split; discriminate|].
  repeat split.
  - intros s j r H Hr. destruct s as [|c s]; [discriminate|].
    cbn [scan_once] in H. cbn [reconhece].
    destruct (Ascii.eqb c c_quote).
    { destruct (scanstring s) as [[t r']|]; [|discriminate]. now injection H as _ <-. }
    destruct (Ascii.eqb c "{").
    { destruct (skip_ws s) as [|c1 r1]; [discriminate|].
      destruct (Ascii.eqb c1 "}"); [now injection H as _ <-|].
      destruct (JSONObject f (String c1 r1)) as [[ps r']|] eqn:E; [|discriminate].
      injection H as _ <-. now apply IH2 in E. }
    destruct (Ascii.eqb c "[").
    { destruct (skip_ws s) as [|c1 r1]; [discriminate|].
      destruct (Ascii.eqb c1 "]"); [now injection H as _ <-|].
      destruct (JSONArray f (String c1 r1)) as [[vs r']|] eqn:E; [|discriminate].
      injection H as _ <-. now apply IH3 in E. }
    cbn [casa_literal].
    destruct (strip_prefix "null" (String c s)) as [r'|]; [now injection H as _ <-|].
    destruct (strip_prefix "true" (String c s)) as [r'|]; [now injection H as _ <-|].
    destruct (strip_prefix "false" (String c s)) as [r'|]; [now injection H as _ <-|].
    destruct (scan_int (String c s)) as [[n r']|] eqn:E; [|discriminate].
    injection H as _ <-.
    assert (N : match strip_prefix "NaN" (String c s) with
                | Some r0 => Some r0
                | None =>
                    match strip_prefix "Infinity" (String c s) with
                    | Some r0 => Some r0
                    | None =>
                        match strip_prefix "-Infinity" (String c s) with
                        | Some r0 => Some r0
                        | None => None
                        end
                    end
                end = None).
    { cbn [strip_prefix].
      destruct (Ascii.eqb_spec "N" c) as [<-|_]; [discriminate E|].
      destruct (Ascii.eqb_spec "I" c) as [<-|_]; [discriminate E|].
      destruct (Ascii.eqb_spec "-" c) as [<-|_]; [|reflexivity].
      destruct s as [|c2 s2]; [reflexivity|].
      destruct (Ascii.eqb_spec "I" c2) as [<-|_]; [discriminate E|reflexivity]. }
    rewrite N. unfold casa_numero. now rewrite E, Hr.
  - intros s ps r H. destruct s as [|c s]; [discriminate|].
    cbn [JSONObject] in H. cbn [reconhece_objeto].
    destruct (Ascii.eqb c c_quote); [|discriminate].
    destruct (scanstring s) as [[key r1]|]; [|discriminate].
    destruct (skip_ws r1) as [|c2 r2]; [discriminate|].
    destruct (Ascii.eqb c2 ":"); [|discriminate].
    destruct (scan_once f (skip_ws r2)) as [[v r3]|] eqn:E; [|discriminate].
    destruct (skip_ws r3) as [|c4 r4] eqn:E3; [discriminate|].
    destruct (Ascii.eqb_spec c4 "}") as [->|N4].
    + injection H as _ <-.
      rewrite (IH1 _ _ _ E (sem_fracao r3 _ _ E3 (or_introl eq_refl))), E3. reflexivity.
    + destruct (Ascii.eqb_spec c4 ",") as [->|N5]; [|discriminate].
      destruct (JSONObject f (skip_ws r4)) as [[ps' r5]|] eqn:E5; [|discriminate].
      injection H as _ <-.
      rewrite (IH1 _ _ _ E (sem_fracao r3 _ _ E3 (or_intror (or_intror eq_refl)))), E3.
      cbn [Ascii.eqb Bool.eqb]. now apply IH2 in E5.
  - intros s vs r H. cbn [JSONArray] in H. cbn [reconhece_lista].
    destruct (scan_once f s) as [[v r1]|] eqn:E; [|discriminate].
    destruct (skip_ws r1) as [|c2 r2] eqn:E1; [discriminate|].
    destruct (Ascii.eqb_spec c2 "]") as [->|N2].
    + injection H as _ <-.
      rewrite (IH1 _ _ _ E (sem_fracao r1 _ _ E1 (or_intror (or_introl eq_refl)))), E1.
      reflexivity.
    + destruct (Ascii.eqb_spec c2 ",") as [->|N3]; [|discriminate].
      destruct (JSONArray f (skip_ws r2)) as [[vs' r3]|] eqn:E3; [|discriminate].
      injection H as _ <-.
      rewrite (IH1 _ _ _ E (sem_fracao r1 _ _ E1 (or_intror (or_intror eq_refl)))), E1.
      cbn [Ascii.eqb Bool.eqb]. now apply IH3 in E3.
Qed.

(** A text from which [loads] reads a value is a text that [json.load]
    takes: when [json_valido] is false, [loads] gives nothing. *)
Lemma loads_valido s d : loads s = Some d -> json_valido s = true.
Proof.
  unfold loads, json_valido. intros H.
  destruct (scan_once (S (String.length s)) (skip_ws s)) as [[j r]|] eqn:E; [|discriminate].
  destruct (skip_ws r) as [|c t] eqn:Er; [|discriminate].
  rewrite (proj1 (scan_reconhece _) _ _ _ E (sem_fracao_fim r Er)), Er. reflexivity.
Qed.

Lemma nao_valido_loads s : json_valido s = false -> loads s = None.
Proof.
  intros H. destruct (loads s) as [d|] eqn:E; [|reflexivity].
  apply loads_valido in E. congruence.
Qed.

(** ** Store: load, save, round trip *)

(** Runs the plumbing of the monad. *)
Ltac mexec :=
  cbv [tentar bind ret levantar ler_dados por_dados emitir obter_lembretes listar
       dados disco gravavel saida] in *.

Lemma salvar_gravavel d dk s :
  salvar (mkMundo d dk true s) =
  (mkMundo d (Texto (dumps d)) true (s ++ [EvEscrita (dumps d)]), Retorna tt).
Proof. reflexivity. Qed.

Lemma salvar_nao_gravavel d dk s :
  salvar (mkMundo d dk false s) = (mkMundo d dk false s, Levanta OSError).
Proof. reflexivity. Qed.

Lemma listar_eq w :
  listar w =
  (w, match dados w with
      | JObj kv => Retorna (get_ou "lembretes" (JList []) kv)
      | _ => Levanta AttributeError
      end).
Proof.
  unfold listar, obter_lembretes, bind, ler_dados, get_ou.
  destruct (dados w); reflexivity.
Qed.

(** A document that cannot be encoded.  The file holds a reminder whose
    text is the escape of a surrogate that is half of no pair;
    [json.load] reads it as it is.  Saving the document raises
    [UnicodeEncodeError] when the text reaches the file, which keeps what
    was written before; a new store on that file holds the empty
    document. *)
Lemma C9_substituto_isolado :
  let q := String c_quote EmptyString in
  let txt := "{" ++ q ++ "lembretes" ++ q ++ ": [{" ++ q ++ "id" ++ q ++ ": 1, " ++
             q ++ "texto" ++ q ++ ": " ++ q ++ "\ud83d" ++ q ++ "}]}" in
  let d := JObj [("lembretes",
                  JList [JObj [("id", JInt 1); ("texto", JStr (utf8 55357))]])] in
  let parte := "{" ++ newline_indent 1 ++ q ++ "lembretes" ++ q ++ ": [" ++
               newline_indent 2 ++ "{" ++ newline_indent 3 ++ q ++ "id" ++ q ++ ": 1," ++
               newline_indent 3 ++ q ++ "texto" ++ q ++ ": " in
  Store_init (mkMundo JNull (Texto txt) true []) = (mkMundo d (Texto txt) true [], Retorna tt) /\
  chaves_unicas d /\
  codificavel d = false /\
  salvar_utf8 (mkMundo d (Texto txt) true []) =
    (mkMundo d (Texto parte) true [EvEscrita parte],
     Levanta (OutraExcecao "UnicodeEncodeError")) /\
  Store_init (mkMundo JNull (Texto parte) true []) =
    (mkMundo documento_vazio (Texto parte) true [], Retorna tt).
Proof.
  cbv zeta. split; [vm_compute; reflexivity|].
  split; [repeat constructor; simpl; intuition discriminate|].
  split; [vm_compute; reflexivity|].
  split; vm_compute; reflexivity.
Qed.

(** C9, amended.  A document that [json.dump] can encode (no str with a
    surrogate, no int beyond the digits that [int] converts, nesting
    within the recursion of the interpreter; floats are outside the
    embedding), saved by the store and loaded again by a new store, is
    the same document, field for field and in the same order: the whole
    text of [dumps] reaches the file, [json.load] reads it back, and a
    [Store] built on the file holds the [dados] that were saved and
    [listar] gives the same list. *)
Theorem C9_salvar_carregar (w : Mundo) :
  chaves_unicas (dados w) ->
  codificavel (dados w) = true ->
  gravavel w = true ->
  json_dump (dados w) = (dumps (dados w), None) /\
  loads (dumps (dados w)) = Some (dados w) /\
  exists w1,
    salvar_utf8 w = (w1, Retorna tt) /\
    salvar w = (w1, Retorna tt) /\
    disco w1 = Texto (dumps (dados w)) /\
    forall w2, disco w2 = disco w1 ->
      exists w3,
        Store_init w2 = (w3, Retorna tt) /\
        dados w3 = dados w /\
        disco w3 = disco w1 /\
        snd (listar w3) = snd (listar w).
Proof.
  intros Hu Hc Hg. pose proof (loads_dumps _ Hu) as Hl.
  split; [now apply json_dump_codificavel|]. split; [exact Hl|].
  pose proof (salvar_utf8_codificavel w Hc) as Hs.
  destruct w as [d dk g s]. simpl in *. subst g.
  eexists. split; [rewrite Hs; apply salvar_gravavel|].
  split; [apply salvar_gravavel|]. split; [reflexivity|].
  intros [d2 dk2 g2 s2] E. simpl in E. subst dk2.
  unfold Store_init, bind, por_dados, carregar. simpl.
  rewrite Hl. unfold por_dados. simpl.
  eexists. split; [reflexivity|]. repeat split.
  now rewrite !listar_eq.
Qed.

Lemma C9_salvar_carregar_witness :
  exists w1,
    salvar_utf8 (mkMundo (doc_de [mkLembrete 7 "Beber" "09:00" true None]) Ausente true [])
    = (w1, Retorna tt) /\
    disco w1 = Texto (dumps (doc_de [mkLembrete 7 "Beber" "09:00" true None])).
Proof.
  destruct (C9_salvar_carregar
              (mkMundo (doc_de [mkLembrete 7 "Beber" "09:00" true None]) Ausente true []))
    as (_ & _ & w1 & H1 & _ & H2 & _).
  - repeat constructor; simpl; intuition discriminate.
  - vm_compute. reflexivity.
  - reflexivity.
  - exists w1. split; assumption.
Defined.

(** C7.  On construction: when the path does not exist (and can be
    written) the document in memory is the empty document and it is
    written to the path at once; when the path exists and reading it
    raises, or its text is one that [json.load] refuses (it is not JSON),
    the document in memory is the empty document and nothing is written:
    the file and the events are as they were. *)
Theorem C7_carregar (w : Mundo) :
  (disco w = Ausente -> gravavel w = true ->
   Store_init w =
   (mkMundo documento_vazio (Texto (dumps documento_vazio)) true
      (saida w ++ [EvEscrita (dumps documento_vazio)]), Retorna tt) /\
   json_dump documento_vazio = (dumps documento_vazio, None)) /\
  (disco w = Ilegivel \/ (exists txt, disco w = Texto txt /\ json_valido txt = false) ->
   Store_init w =
   (mkMundo documento_vazio (disco w) (gravavel w) (saida w), Retorna tt)).
Proof.
  destruct w as [d dk g s]. simpl. split.
  - intros -> ->. split; reflexivity.
  - intros [->|(txt & -> & Hl)].
    + reflexivity.
    + apply nao_valido_loads in Hl.
      unfold Store_init, bind, por_dados, carregar. simpl. rewrite Hl. reflexivity.
Qed.

Lemma C7_carregar_witness :
  Store_init mundo_novo =
  (mkMundo documento_vazio (Texto (dumps documento_vazio)) true
     [EvEscrita (dumps documento_vazio)], Retorna tt) /\
  Store_init (mkMundo JNull (Texto "{ lembretes") true []) =
  (mkMundo documento_vazio (Texto "{ lembretes") true [], Retorna tt).
Proof.
  split.
  - apply (proj1 (C7_carregar mundo_novo)); reflexivity.
  - apply (proj2 (C7_carregar (mkMundo JNull (Texto "{ lembretes") true []))).
    right. exists "{ lembretes". split; reflexivity.
Defined.

(** ** Store: the operations *)


Lemma dict_get_notin k d : ~ In k (map fst d) -> dict_get k d = None.
Proof.
  induction d as [|[k' v] d IH]; simpl; [reflexivity|].
  intros H. destruct (String.eqb_spec k k') as [->|Hk]; [exfalso; apply H; now left|].
  apply IH. intros Hin. apply H. now right.
Qed.

Lemma dict_get_set k k' v d :
  dict_get k (dict_set k' v d) = if String.eqb k k' then Some v else dict_get k d.
Proof.
  induction d as [|[k1 v1] d IH]; simpl.
  - reflexivity.
  - destruct (String.eqb_spec k' k1) as [->|Hk]; simpl.
    + destruct (String.eqb k k1); reflexivity.
    + rewrite IH. destruct (String.eqb_spec k k1) as [->|H1].
      * destruct (String.eqb_spec k1 k') as [->|]; [congruence|reflexivity].
      * reflexivity.
Qed.

(** [d.update(campos)] replaces exactly the given fields. *)
Lemma dict_get_update campos : forall d k,
  NoDup (map fst campos) ->
  dict_get k (dict_update d campos) =
  match dict_get k campos with
  | Some v => Some v
  | None => dict_get k d
  end.
Proof.
  unfold dict_update.
  induction campos as [|[k1 v1] c IH]; intros d k Hnd; simpl; [reflexivity|].
  inversion Hnd as [|? ? Hnotin Hnd']; subst.
  rewrite IH by assumption. rewrite dict_get_set.
  destruct (String.eqb_spec k k1) as [->|Hk].
  - now rewrite (dict_get_notin _ _ Hnotin).
  - reflexivity.
Qed.

Lemma atualizar_em_achado item_id campos pre kv post :
  Forall (tem_outro_id item_id) pre ->
  tem_id item_id (JObj kv) ->
  atualizar_em item_id campos (pre ++ JObj kv :: post)%list =
  Retorna ((pre ++ JObj (dict_update kv campos) :: post)%list,
           JObj (dict_update kv campos)).
Proof.
  intros Hpre (kv' & v & E & Hid & Heq). injection E as <-.
  induction Hpre as [|x pre (xkv & xv & -> & Hx & Hne) Hpre IH]; simpl.
  - now rewrite Hid, Heq.
  - rewrite Hx, Hne, IH. reflexivity.
Qed.

Lemma atualizar_em_ausente item_id campos l :
  Forall (tem_outro_id item_id) l ->
  atualizar_em item_id campos l = Levanta (KeyError "Item não encontrado").
Proof.
  induction 1 as [|x l (xkv & xv & -> & Hx & Hne) Hl IH]; simpl; [reflexivity|].
  now rewrite Hx, Hne, IH.
Qed.

(** The store holds a reminder whose text cannot be encoded (the file
    held the escape of a surrogate that is half of no pair).  [atualizar]
    on its id updates the item in memory; the write of the updated
    document raises [UnicodeEncodeError] when the text reaches the file:
    the item is not returned and the file keeps what was written before
    the text. *)
Lemma C6_escrita_interrompida :
  let q := String c_quote EmptyString in
  let txt := "{" ++ q ++ "lembretes" ++ q ++ ": [{" ++ q ++ "id" ++ q ++ ": 1, " ++
             q ++ "texto" ++ q ++ ": " ++ q ++ "\ud83d" ++ q ++ ", " ++
             q ++ "ativo" ++ q ++ ": true}]}" in
  let it := JObj [("id", JInt 1); ("texto", JStr (utf8 55357)); ("ativo", JBool true)] in
  let novo := JObj [("id", JInt 1); ("texto", JStr (utf8 55357)); ("ativo", JBool false)] in
  let d' := JObj [("lembretes", JList [novo])] in
  let parte := "{" ++ newline_indent 1 ++ q ++ "lembretes" ++ q ++ ": [" ++
               newline_indent 2 ++ "{" ++ newline_indent 3 ++ q ++ "id" ++ q ++ ": 1," ++
               newline_indent 3 ++ q ++ "texto" ++ q ++ ": " in
  let w := mkMundo (JObj [("lembretes", JList [it])]) (Texto txt) true [] in
  Store_init (mkMundo JNull (Texto txt) true []) = (w, Retorna tt) /\
  tem_id (JInt 1) it /\
  atualizar_em (JInt 1) [("ativo", JBool false)] [it] = Retorna ([novo], novo) /\
  dados (fst (atualizar (JInt 1) [("ativo", JBool false)] w)) = d' /\
  codificavel d' = false /\
  (por_lembretes [novo] ;;; salvar_utf8 ;;; ret novo) w =
    (mkMundo d' (Texto parte) true [EvEscrita parte],
     Levanta (OutraExcecao "UnicodeEncodeError")).
Proof.
  cbv zeta. split; [vm_compute; reflexivity|].
  split; [do 2 eexists; repeat split; reflexivity|].
  split; [reflexivity|]. split; [reflexivity|].
  split; vm_compute; reflexivity.
Qed.

(** C6, amended.  [atualizar] on an id that the store holds replaces, in
    the first item with that id, exactly the given fields by the given
    values; when the updated document can be encoded ([codificavel]) and
    the file can be written, the whole document is written and the
    updated item is returned.  On an id that no item has it raises
    [KeyError] (the not-found error) and changes nothing. *)
Theorem C6_atualizar (w : Mundo) (kv : list (string * json)) (item_id : json)
    (campos : list (string * json)) :
  dados w = JObj kv ->
  gravavel w = true ->
  (forall pre it post,
     dict_get "lembretes" kv = Some (JList (pre ++ JObj it :: post)%list) ->
     Forall (tem_outro_id item_id) pre ->
     tem_id item_id (JObj it) ->
     let novo := JObj (dict_update it campos) in
     let d' := JObj (dict_set "lembretes" (JList (pre ++ novo :: post)%list) kv) in
     codificavel d' = true ->
     atualizar item_id campos w =
     (mkMundo d' (Texto (dumps d')) true (saida w ++ [EvEscrita (dumps d')]),
      Retorna novo) /\
     json_dump d' = (dumps d', None) /\
     (NoDup (map fst campos) ->
      forall k, dict_get k (dict_update it campos) =
                match dict_get k campos with
                | Some v => Some v
                | None => dict_get k it
                end)) /\
  (forall l,
     dict_get "lembretes" kv = Some (JList l) ->
     Forall (tem_outro_id item_id) l ->
     atualizar item_id campos w = (w, Levanta (KeyError "Item não encontrado"))).
Proof.
  destruct w as [d dk g s]. simpl. intros -> ->. split.
  - intros pre it post Hl Hpre Hit Hc. split; [|split].
    + unfold atualizar, bind, obter_lembretes, ler_dados. simpl. rewrite Hl. simpl.
      rewrite (atualizar_em_achado item_id campos pre it post Hpre Hit).
      unfold por_lembretes, bind, ler_dados. simpl. rewrite Hl. reflexivity.
    + now apply json_dump_codificavel.
    + intros Hnd k. now apply dict_get_update.
  - intros l Hl Hall.
    unfold atualizar, bind, obter_lembretes, ler_dados. simpl. rewrite Hl. simpl.
    now rewrite (atualizar_em_ausente item_id campos l Hall).
Qed.

Lemma C6_atualizar_witness :
  atualizar (JInt 2) [("ativo", JBool false)]
    (mkMundo (doc_de [mkLembrete 1 "a" "09:00" true None;
                      mkLembrete 2 "b" "10:00" true None]) Ausente true [])
  = (let d' := doc_de [mkLembrete 1 "a" "09:00" true None;
                       mkLembrete 2 "b" "10:00" false None] in
     mkMundo d' (Texto (dumps d')) true [EvEscrita (dumps d')],
     Retorna (json_de_lembrete (mkLembrete 2 "b" "10:00" false None))) /\
  atualizar (JInt 3) [("ativo", JBool false)]
    (mkMundo (doc_de [mkLembrete 1 "a" "09:00" true None]) Ausente true [])
  = (mkMundo (doc_de [mkLembrete 1 "a" "09:00" true None]) Ausente true [],
     Levanta (KeyError "Item não encontrado")).
Proof.
  split.
  - refine (proj1 (proj1 (C6_atualizar
              (mkMundo (doc_de [mkLembrete 1 "a" "09:00" true None;
                                mkLembrete 2 "b" "10:00" true None]) Ausente true [])
              _ (JInt 2) [("ativo", JBool false)] eq_refl eq_refl)
              [json_de_lembrete (mkLembrete 1 "a" "09:00" true None)] _ [] eq_refl _ _ _)).
    + repeat constructor. do 2 eexists. repeat split; reflexivity.
    + do 2 eexists. repeat split; reflexivity.
    + vm_compute. reflexivity.
  - refine (proj2 (C6_atualizar
              (mkMundo (doc_de [mkLembrete 1 "a" "09:00" true None]) Ausente true [])
              _ (JInt 3) [("ativo", JBool false)] eq_refl eq_refl) _ eq_refl _).
    repeat constructor. do 2 eexists. repeat split; reflexivity.
Defined.



(** ** Store: ids *)

Lemma ids_distintos_snoc l x :
  ids_distintos (l ++ [x]) =
  ids_distintos l && forallb (fun y => negb (py_eq y x)) l.
Proof.
  induction l as [|y l IH]; simpl; [reflexivity|].
  rewrite forallb_app, IH. simpl.
  destruct (forallb (fun z => negb (py_eq y z)) l), (py_eq y x),
    (ids_distintos l), (forallb (fun z => negb (py_eq z x)) l); reflexivity.
Qed.

(** What one call of [adicionar] does to the ids, whether the write
    succeeds or not. *)
Lemma ids_apos_adicionar ms t h a w :
  let w' := fst (tentar (adicionar ms t h a ;;; ret tt) (fun _ => ret tt) w) in
  ids_de (dados w') = (ids_de (dados w) ++ [JInt ms])%list \/
  ids_de (dados w') = ids_de (dados w).
Proof.
  destruct w as [d dk g s]. unfold adicionar. mexec.
  destruct d as [| | | | |kv]; try (right; reflexivity).
  destruct (dict_get "lembretes" kv) as [[| | | |l|]|] eqn:Hk;
    try (right; reflexivity).
  - left. unfold salvar. destruct g; simpl;
      rewrite dict_get_set; simpl; rewrite Hk, flat_map_app; reflexivity.
  - left. unfold salvar. destruct g; simpl;
      rewrite dict_get_set; simpl; rewrite Hk; reflexivity.
Qed.

(** The ids that [adicionar] gives are the readings of the clock: two
    calls within the same millisecond give the same id. *)
Lemma C3_mesmo_milissegundo :
  let w := fst (adicionar_todos [(1000%Z, "a", "09:00", JBool true);
                                 (1000%Z, "b", "10:00", JBool true)]
                  (fst (Store_init mundo_novo))) in
  ids_de (dados w) = [JInt 1000; JInt 1000] /\
  ids_distintos (ids_de (dados w)) = false.
Proof. vm_compute. split; reflexivity. Qed.

(** C3, amended.  For every sequence of calls of [adicionar] made at
    pairwise distinct readings of the millisecond clock, none of which
    is the id of an item already in the store, on a store whose ids are
    pairwise distinct, the ids of the resulting items are pairwise
    distinct. *)
Theorem C3_ids_distintos (chamadas : list (Z * string * string * json)) :
  forall w : Mundo,
    ids_distintos (ids_de (dados w)) = true ->
    NoDup (map ms_de chamadas) ->
    (forall c, In c chamadas ->
       forallb (fun v => negb (py_eq v (JInt (ms_de c)))) (ids_de (dados w)) = true) ->
    ids_distintos (ids_de (dados (fst (adicionar_todos chamadas w)))) = true.
Proof.
  induction chamadas as [|[[[ms t] h] a] cs IH]; intros w Hd Hnd Hnew.
  - exact Hd.
  - unfold adicionar_todos. simpl para_cada. unfold bind at 1.
    pose proof (ids_apos_adicionar ms t h a w) as Hid. simpl in Hid.
    destruct (tentar (adicionar ms t h a;;; ret tt) (fun _ => ret tt) w)
      as [w1 [[]|e]] eqn:E.
    2:{ exfalso. revert E. unfold tentar, bind, ret.
        destruct (adicionar ms t h a w) as [w2 [x|e2]]; discriminate. }
    simpl fst in Hid. fold (adicionar_todos cs). apply IH.
    + destruct Hid as [-> | ->]; [|exact Hd].
      rewrite ids_distintos_snoc, Hd. simpl.
      apply (Hnew (ms, t, h, a)). now left.
    + now inversion Hnd.
    + intros c Hc. inversion Hnd as [|? ? Hnotin Hnd']; subst.
      assert (Hc' : forallb (fun v => negb (py_eq v (JInt (ms_de c)))) (ids_de (dados w))
                    = true) by (apply Hnew; now right).
      destruct Hid as [-> | ->]; [|exact Hc'].
      rewrite forallb_app, Hc'. simpl.
      destruct (Z.eqb_spec ms (ms_de c)) as [E'|]; [|reflexivity].
      exfalso. apply Hnotin. change (In ms (map ms_de cs)).
      rewrite E'. now apply in_map.
Qed.

Lemma C3_ids_distintos_witness :
  ids_distintos
    (ids_de (dados (fst (adicionar_todos [(1000%Z, "a", "09:00", JBool true);
                                          (1001%Z, "b", "10:00", JBool true)]
                           (fst (Store_init mundo_novo)))))) = true.
Proof.
  apply (C3_ids_distintos [(1000%Z, "a", "09:00", JBool true);
                           (1001%Z, "b", "10:00", JBool true)]
           (fst (Store_init mundo_novo))).
  - reflexivity.
  - repeat constructor; simpl; intuition discriminate.
  - intros c Hc. reflexivity.
Defined.

(** ** Scheduler: one cycle on a document of reminders *)

Lemma notificar_eq self t m w :
  notificar self t m w =
  (mkMundo (dados w) (disco w) (gravavel w)
     (saida w ++ eventos_notificar self (saida w) t m), Retorna tt).
Proof.
  destruct w as [d dk g s]. unfold notificar, eventos_notificar, chamar.
  destruct (notification self) as [f|], (ui_callback_popup self) as [p|]; mexec.
  - destruct (f t m s); simpl;
      destruct (p t m (s ++ [EvNotify t m])%list); simpl;
      rewrite <- ?List.app_assoc; reflexivity.
  - destruct (f t m s); simpl; rewrite ?List.app_nil_r; reflexivity.
  - simpl. rewrite List.app_nil_r.
    destruct (p t m s); simpl; rewrite <- ?List.app_assoc; reflexivity.
  - simpl. rewrite List.app_nil_r. reflexivity.
Qed.

Lemma nth_feitos {A} (feitos : list A) x resto d :
  nth (List.length feitos) (feitos ++ x :: resto) d = x.
Proof. induction feitos as [|y l IH]; simpl; [reflexivity|exact IH]. Qed.

Lemma elemento_doc feitos r resto it0 dk g s :
  elemento (List.length feitos) it0 (mkMundo (doc_de (feitos ++ r :: resto)) dk g s) =
  (mkMundo (doc_de (feitos ++ r :: resto)) dk g s, Retorna (json_de_lembrete r)).
Proof.
  unfold elemento. mexec. simpl.
  rewrite map_app. simpl map.
  rewrite <- (length_map json_de_lembrete feitos).
  now rewrite nth_feitos.
Qed.

Lemma py_eq_ultimo hoje u :
  py_eq (json_de_ultimo u) (JStr hoje) = ultimo_e hoje u.
Proof. destruct u; reflexivity. Qed.

Lemma outros_ids feitos n :
  Forall (fun x => lid x <> n) feitos ->
  Forall (tem_outro_id (JInt n)) (map json_de_lembrete feitos).
Proof.
  induction 1 as [|x l Hx Hl IH]; simpl; constructor; [|exact IH].
  do 2 eexists. split; [reflexivity|]. split; [reflexivity|].
  simpl. now apply Z.eqb_neq.
Qed.

Lemma atualizar_em_lembrete hoje feitos r resto :
  Forall (fun x => lid x <> lid r) feitos ->
  atualizar_em (JInt (lid r)) [("ultimo_disparo_em", JStr hoje)]
    (map json_de_lembrete (feitos ++ r :: resto)) =
  Retorna (map json_de_lembrete (feitos ++ marcar hoje r :: resto),
           json_de_lembrete (marcar hoje r)).
Proof.
  intros H. rewrite !map_app. simpl map.
  apply (atualizar_em_achado (JInt (lid r)) [("ultimo_disparo_em", JStr hoje)]
           (map json_de_lembrete feitos)
           [("id", JInt (lid r)); ("texto", JStr (ltexto r));
            ("horario", JStr (lhorario r)); ("ativo", JBool (lativo r));
            ("ultimo_disparo_em", json_de_ultimo (lultimo r))]
           (map json_de_lembrete resto)).
  - now apply outros_ids.
  - do 2 eexists. split; [reflexivity|]. split; [reflexivity|]. simpl. apply Z.eqb_refl.
Qed.

Lemma atualizar_marca hoje feitos r resto dk s :
  Forall (fun x => lid x <> lid r) feitos ->
  atualizar (JInt (lid r)) [("ultimo_disparo_em", JStr hoje)]
    (mkMundo (doc_de (feitos ++ r :: resto)) dk true s) =
  (let d' := doc_de (feitos ++ marcar hoje r :: resto) in
   mkMundo d' (Texto (dumps d')) true (s ++ [EvEscrita (dumps d')]),
   Retorna (json_de_lembrete (marcar hoje r))).
Proof.
  intros H. unfold atualizar. unfold bind at 1.
  change (obter_lembretes (mkMundo (doc_de (feitos ++ r :: resto)) dk true s))
    with (mkMundo (doc_de (feitos ++ r :: resto)) dk true s,
          Retorna (A:=json) (JList (map json_de_lembrete (feitos ++ r :: resto)))).
  cbn [py_iter]. rewrite (atualizar_em_lembrete hoje feitos r resto H).
  reflexivity.
Qed.

Lemma dispara_b_true hh hoje r :
  dispara_b hh hoje r = true ->
  lativo r = true /\ validar_horario (JStr (lhorario r)) = true /\
  String.eqb (lhorario r) hh = true /\ ultimo_e hoje (lultimo r) = false.
Proof.
  unfold dispara_b. intros H.
  apply andb_prop in H as [H H4]. apply andb_prop in H as [H H3].
  apply andb_prop in H as [H1 H2]. apply negb_true_iff in H4. auto.
Qed.

Lemma bind_ret_eq {A B} (c : M A) (k : A -> M B) w w' a :
  c w = (w', Retorna a) -> bind c k w = k a w'.
Proof. intros H. unfold bind. now rewrite H. Qed.

Lemma bind_levanta_eq {A B} (c : M A) (k : A -> M B) w w' e :
  c w = (w', Levanta e) -> bind c k w = (w', Levanta e).
Proof. intros H. unfold bind. now rewrite H. Qed.

Lemma verificar_item_obj self hh hoje i it0 kv w w1 :
  elemento i it0 w = (w1, Retorna (JObj kv)) ->
  verificar_item self hh hoje (i, it0) w =
  (if negb (py_truthy (get_ou "ativo" (JBool true) kv)) then ret tt
   else if negb (validar_horario (get_ou "horario" (JStr EmptyString) kv)) then ret tt
   else if py_eq (get_ou "ultimo_disparo_em" JNull kv) (JStr hoje) then ret tt
   else
     h <- subscrito "horario" (JObj kv) ;;
     if py_eq h (JStr hh) then
       id <- subscrito "id" (JObj kv) ;;
       atualizar id [("ultimo_disparo_em", JStr hoje)] ;;;
       it' <- elemento i it0 ;;
       h' <- subscrito "horario" it' ;;
       t' <- subscrito "texto" it' ;;
       notificar self "Lembrete" (py_str h' ++ " - " ++ py_str t')
     else ret tt) w1.
Proof.
  intros H. unfold verificar_item. simpl fst. simpl snd.
  unfold bind at 1. rewrite H. reflexivity.
Qed.

Lemma verificar_item_dispara self hh hoje feitos r resto dk s :
  dispara_b hh hoje r = true ->
  Forall (fun x => lid x <> lid r) feitos ->
  verificar_item self hh hoje (List.length feitos, json_de_lembrete r)
    (mkMundo (doc_de (feitos ++ r :: resto)) dk true s) =
  (let d' := doc_de (feitos ++ marcar hoje r :: resto) in
   let s1 := (s ++ [EvEscrita (dumps d')])%list in
   mkMundo d' (Texto (dumps d')) true
     (s1 ++ eventos_notificar self s1 "Lembrete" (mensagem r)), Retorna tt).
Proof.
  intros Hd Hids. destruct (dispara_b_true _ _ _ Hd) as (Ha & Hv & Hh & Hu).
  rewrite (verificar_item_obj self hh hoje _ _
             [("id", JInt (lid r)); ("texto", JStr (ltexto r));
              ("horario", JStr (lhorario r)); ("ativo", JBool (lativo r));
              ("ultimo_disparo_em", json_de_ultimo (lultimo r))]
             _ _ (elemento_doc feitos r resto _ dk true s)).
  cbn [get_ou dict_get String.eqb Ascii.eqb Bool.eqb py_truthy].
  rewrite Ha, Hv, py_eq_ultimo, Hu. cbn [negb].
  erewrite bind_ret_eq; [|reflexivity].
  cbn [py_eq]. rewrite Hh.
  erewrite bind_ret_eq; [|reflexivity].
  erewrite bind_ret_eq; [|apply (atualizar_marca hoje feitos r resto dk s Hids)].
  cbv zeta.
  erewrite bind_ret_eq; [|apply elemento_doc].
  erewrite bind_ret_eq; [|reflexivity].
  erewrite bind_ret_eq; [|reflexivity].
  rewrite notificar_eq. reflexivity.
Qed.

Lemma verificar_item_nao_dispara self hh hoje feitos r resto dk g s :
  dispara_b hh hoje r = false ->
  verificar_item self hh hoje (List.length feitos, json_de_lembrete r)
    (mkMundo (doc_de (feitos ++ r :: resto)) dk g s) =
  (mkMundo (doc_de (feitos ++ r :: resto)) dk g s, Retorna tt).
Proof.
  intros Hd.
  rewrite (verificar_item_obj self hh hoje _ _
             [("id", JInt (lid r)); ("texto", JStr (ltexto r));
              ("horario", JStr (lhorario r)); ("ativo", JBool (lativo r));
              ("ultimo_disparo_em", json_de_ultimo (lultimo r))]
             _ _ (elemento_doc feitos r resto _ dk g s)).
  cbn [get_ou dict_get String.eqb Ascii.eqb Bool.eqb py_truthy].
  rewrite py_eq_ultimo.
  unfold dispara_b in Hd.
  destruct (lativo r); [|reflexivity]. cbn [negb].
  destruct (validar_horario (JStr (lhorario r))); [|reflexivity]. cbn [negb].
  destruct (ultimo_e hoje (lultimo r)); [reflexivity|].
  erewrite bind_ret_eq; [|reflexivity].
  cbn [py_eq]. simpl in Hd. rewrite andb_true_r in Hd. now rewrite Hd.
Qed.

Lemma apos_ciclo_nenhum hh hoje l :
  existsb (dispara_b hh hoje) l = false -> map (apos_ciclo hh hoje) l = l.
Proof.
  induction l as [|r l IH]; simpl; [reflexivity|].
  intros H. apply orb_false_elim in H as [Hr Hl].
  unfold apos_ciclo at 1. now rewrite Hr, IH.
Qed.

Lemma snoc_app {A} (l : list A) x l' : (l ++ x :: l' = (l ++ [x]) ++ l')%list.
Proof. now rewrite <- List.app_assoc. Qed.

Lemma para_cada_cons {A} (f : A -> M unit) x l :
  para_cada f (x :: l) = (f x ;;; para_cada f l).
Proof. reflexivity. Qed.

Lemma nodup_outros (feitos : list Lembrete) r resto :
  NoDup (map lid (feitos ++ r :: resto)) ->
  Forall (fun x => lid x <> lid r) feitos.
Proof.
  rewrite map_app. simpl. intros H. apply NoDup_remove_2 in H.
  apply Forall_forall. intros x Hx E. apply H. apply in_or_app. left.
  rewrite <- E. now apply in_map.
Qed.

(** The loop of [verificar] from position [length feitos] on. *)
Lemma verificar_itens self hh hoje : forall resto feitos dk g s,
  NoDup (map lid (feitos ++ resto)) ->
  g = true \/ existsb (dispara_b hh hoje) resto = false ->
  para_cada (verificar_item self hh hoje)
    (combine (seq (List.length feitos) (List.length resto))
       (map json_de_lembrete resto))
    (mkMundo (doc_de (feitos ++ resto)) dk g s) =
  (mkMundo (doc_de (feitos ++ map (apos_ciclo hh hoje) resto))
     (if existsb (dispara_b hh hoje) resto
      then Texto (dumps (doc_de (feitos ++ map (apos_ciclo hh hoje) resto)))
      else dk)
     g (s ++ eventos_itens self hh hoje feitos resto s), Retorna tt).
Proof.
  induction resto as [|r resto IH]; intros feitos dk g s Hnd Hg.
  - simpl. now rewrite !List.app_nil_r.
  - cbn [List.length seq map combine]. rewrite para_cada_cons.
    cbn [existsb eventos_itens]. unfold apos_ciclo at 1 3.
    destruct (dispara_b hh hoje r) eqn:Hr.
    + assert (g = true) as ->
        by (destruct Hg as [Hg|Hg];
            [exact Hg|simpl in Hg; rewrite Hr in Hg; discriminate]).
      erewrite bind_ret_eq;
        [|apply verificar_item_dispara; [exact Hr|now apply nodup_outros in Hnd]].
      cbv zeta. cbn [orb].
      rewrite (snoc_app feitos (marcar hoje r) resto).
      rewrite (snoc_app feitos (marcar hoje r) (map (apos_ciclo hh hoje) resto)).
      replace (S (List.length feitos)) with (List.length (feitos ++ [marcar hoje r]))
        by (rewrite length_app; simpl; lia).
      rewrite IH.
      * rewrite <- !List.app_assoc.
        destruct (existsb (dispara_b hh hoje) resto) eqn:Hex; [reflexivity|].
        now rewrite (apos_ciclo_nenhum _ _ _ Hex).
      * rewrite <- snoc_app. rewrite !map_app in *. exact Hnd.
      * now left.
    + erewrite bind_ret_eq; [|apply verificar_item_nao_dispara; exact Hr].
      cbn [orb].
      rewrite (snoc_app feitos r resto).
      rewrite (snoc_app feitos r (map (apos_ciclo hh hoje) resto)).
      replace (S (List.length feitos)) with (List.length (feitos ++ [r]))
        by (rewrite length_app; simpl; lia).
      rewrite IH.
      * reflexivity.
      * now rewrite <- snoc_app.
      * destruct Hg as [Hg|Hg]; [now left|right].
        simpl in Hg. now rewrite Hr in Hg.
Qed.

(** One cycle on a document of reminders with pairwise distinct ids,
    when the file can be written or no reminder is due. *)
Lemma verificar_doc self hh hoje ls dk g s :
  NoDup (map lid ls) ->
  g = true \/ existsb (dispara_b hh hoje) ls = false ->
  verificar self hh hoje (mkMundo (doc_de ls) dk g s) =
  (mkMundo (doc_de (map (apos_ciclo hh hoje) ls))
     (if existsb (dispara_b hh hoje) ls
      then Texto (dumps (doc_de (map (apos_ciclo hh hoje) ls)))
      else dk)
     g (s ++ eventos_itens self hh hoje [] ls s ++ eventos_status self hh),
   Retorna tt).
Proof.
  intros Hnd Hg. unfold verificar.
  erewrite bind_ret_eq; [|rewrite listar_eq; reflexivity].
  cbn [py_iter get_ou dict_get String.eqb Ascii.eqb Bool.eqb].
  rewrite length_map.
  erewrite bind_ret_eq; [|apply (verificar_itens self hh hoje ls [] dk g s Hnd Hg)].
  cbn [List.app]. unfold eventos_status.
  destruct (ui_callback_status self) as [f|].
  - unfold tentar, chamar. cbn [dados disco gravavel saida].
    rewrite <- List.app_assoc.
    destruct (f _ _); reflexivity.
  - rewrite List.app_nil_r. reflexivity.
Qed.

Lemma ultimo_e_false hoje u : ultimo_e hoje u = false <-> u <> Some hoje.
Proof.
  destruct u as [d|]; simpl.
  - destruct (String.eqb_spec d hoje) as [->|H]; split; intros; congruence.
  - split; [discriminate|reflexivity].
Qed.

(** [dispara_b] decides [dispara]. *)
Lemma dispara_b_spec hh hoje r : dispara_b hh hoje r = true <-> dispara hh hoje r.
Proof.
  unfold dispara. split.
  - intros H. destruct (dispara_b_true _ _ _ H) as (Ha & Hv & Hh & Hu).
    repeat split; auto.
    + now apply String.eqb_eq.
    + now apply ultimo_e_false.
  - intros (Ha & Hv & Hh & Hu). unfold dispara_b.
    apply ultimo_e_false in Hu. apply String.eqb_eq in Hh.
    now rewrite Ha, Hv, Hh, Hu.
Qed.

Lemma chamadas_popup_app l1 l2 :
  chamadas_popup (l1 ++ l2) = (chamadas_popup l1 ++ chamadas_popup l2)%list.
Proof.
  induction l1 as [|e l1 IH]; simpl; [reflexivity|].
  destruct e; simpl; now rewrite IH.
Qed.

Lemma chamadas_popup_notificar self hist t m :
  chamadas_popup (eventos_notificar self hist t m) =
  match ui_callback_popup self with
  | Some _ => [(t, m)]
  | None => []
  end.
Proof.
  unfold eventos_notificar.
  destruct (notification self), (ui_callback_popup self) as [p|]; simpl;
    try reflexivity; destruct (p t m _); reflexivity.
Qed.

(** The popup is called once for each due reminder, in order. *)
Lemma chamadas_popup_itens self hh hoje popup :
  ui_callback_popup self = Some popup ->
  forall resto feitos hist,
    chamadas_popup (eventos_itens self hh hoje feitos resto hist) =
    map (fun r => ("Lembrete", mensagem r)) (filter (dispara_b hh hoje) resto).
Proof.
  intros Hp. induction resto as [|r resto IH]; intros feitos hist;
    cbn [eventos_itens filter map]; [reflexivity|].
  destruct (dispara_b hh hoje r); [|apply IH].
  cbv zeta. cbn [List.app chamadas_popup map].
  rewrite chamadas_popup_app, chamadas_popup_notificar, Hp, IH. reflexivity.
Qed.

Lemma chamadas_popup_status self hh : chamadas_popup (eventos_status self hh) = [].
Proof. unfold eventos_status. now destruct (ui_callback_status self). Qed.

Lemma nth_error_apos hh hoje ls i r :
  nth_error ls i = Some r ->
  nth_error (map (apos_ciclo hh hoje) ls) i = Some (apos_ciclo hh hoje r).
Proof. intros H. now rewrite nth_error_map, H. Qed.



(** ** Scheduler: a write that fails *)

Lemma atualizar_marca_falha hoje feitos r resto dk s :
  Forall (fun x => lid x <> lid r) feitos ->
  atualizar (JInt (lid r)) [("ultimo_disparo_em", JStr hoje)]
    (mkMundo (doc_de (feitos ++ r :: resto)) dk false s) =
  (mkMundo (doc_de (feitos ++ marcar hoje r :: resto)) dk false s, Levanta OSError).
Proof.
  intros H. unfold atualizar. unfold bind at 1.
  change (obter_lembretes (mkMundo (doc_de (feitos ++ r :: resto)) dk false s))
    with (mkMundo (doc_de (feitos ++ r :: resto)) dk false s,
          Retorna (A:=json) (JList (map json_de_lembrete (feitos ++ r :: resto)))).
  cbn [py_iter]. rewrite (atualizar_em_lembrete hoje feitos r resto H).
  reflexivity.
Qed.

Lemma verificar_item_dispara_falha self hh hoje feitos r resto dk s :
  dispara_b hh hoje r = true ->
  Forall (fun x => lid x <> lid r) feitos ->
  verificar_item self hh hoje (List.length feitos, json_de_lembrete r)
    (mkMundo (doc_de (feitos ++ r :: resto)) dk false s) =
  (mkMundo (doc_de (feitos ++ marcar hoje r :: resto)) dk false s, Levanta OSError).
Proof.
  intros Hd Hids. destruct (dispara_b_true _ _ _ Hd) as (Ha & Hv & Hh & Hu).
  rewrite (verificar_item_obj self hh hoje _ _
             [("id", JInt (lid r)); ("texto", JStr (ltexto r));
              ("horario", JStr (lhorario r)); ("ativo", JBool (lativo r));
              ("ultimo_disparo_em", json_de_ultimo (lultimo r))]
             _ _ (elemento_doc feitos r resto _ dk false s)).
  cbn [get_ou dict_get String.eqb Ascii.eqb Bool.eqb py_truthy].
  rewrite Ha, Hv, py_eq_ultimo, Hu. cbn [negb].
  erewrite bind_ret_eq; [|reflexivity].
  cbn [py_eq]. rewrite Hh.
  erewrite bind_ret_eq; [|reflexivity].
  erewrite bind_levanta_eq;
    [reflexivity|apply (atualizar_marca_falha hoje feitos r resto dk s Hids)].
Qed.

(** The loop when the file cannot be written: the first due reminder is
    marked in memory, the write raises, and the loop ends there. *)
Lemma verificar_itens_falha self hh hoje : forall antes feitos r depois dk s,
  NoDup (map lid (feitos ++ antes ++ r :: depois)) ->
  existsb (dispara_b hh hoje) antes = false ->
  dispara_b hh hoje r = true ->
  para_cada (verificar_item self hh hoje)
    (combine (seq (List.length feitos) (List.length (antes ++ r :: depois)))
       (map json_de_lembrete (antes ++ r :: depois)))
    (mkMundo (doc_de (feitos ++ antes ++ r :: depois)) dk false s) =
  (mkMundo (doc_de (feitos ++ antes ++ marcar hoje r :: depois)) dk false s,
   Levanta OSError).
Proof.
  induction antes as [|x antes IH]; intros feitos r depois dk s Hnd Hex Hr.
  - cbn [List.app List.length seq map combine]. rewrite para_cada_cons.
    erewrite bind_levanta_eq; [reflexivity|].
    apply verificar_item_dispara_falha; [exact Hr|].
    now apply nodup_outros in Hnd.
  - cbn [existsb] in Hex. apply orb_false_elim in Hex as [Hx Hex].
    cbn [List.app List.length seq map combine]. rewrite para_cada_cons.
    erewrite bind_ret_eq; [|apply verificar_item_nao_dispara; exact Hx].
    rewrite (snoc_app feitos x (antes ++ r :: depois)).
    rewrite (snoc_app feitos x (antes ++ marcar hoje r :: depois)).
    replace (S (List.length feitos)) with (List.length (feitos ++ [x]))
      by (rewrite length_app; simpl; lia).
    apply IH; [|exact Hex|exact Hr].
    now rewrite <- snoc_app.
Qed.

Lemma verificar_doc_falha self hh hoje antes r depois dk s :
  NoDup (map lid (antes ++ r :: depois)) ->
  existsb (dispara_b hh hoje) antes = false ->
  dispara_b hh hoje r = true ->
  verificar self hh hoje (mkMundo (doc_de (antes ++ r :: depois)) dk false s) =
  (mkMundo (doc_de (antes ++ marcar hoje r :: depois)) dk false s, Levanta OSError).
Proof.
  intros Hnd Hex Hr. unfold verificar.
  erewrite bind_ret_eq; [|rewrite listar_eq; reflexivity].
  cbn [py_iter get_ou dict_get String.eqb Ascii.eqb Bool.eqb].
  rewrite length_map.
  erewrite bind_levanta_eq; [reflexivity|].
  apply (verificar_itens_falha self hh hoje antes [] r depois dk s Hnd Hex Hr).
Qed.

(** A list in which some reminder is due splits at the first one. *)
Lemma primeiro_devido hh hoje ls :
  existsb (dispara_b hh hoje) ls = true ->
  exists antes r depois,
    ls = (antes ++ r :: depois)%list /\
    existsb (dispara_b hh hoje) antes = false /\
    dispara_b hh hoje r = true.
Proof.
  induction ls as [|x ls IH]; simpl; [discriminate|].
  destruct (dispara_b hh hoje x) eqn:Hx.
  - intros _. exists [], x, ls. repeat split; assumption.
  - simpl. intros H. destruct (IH H) as (antes & r & depois & -> & Ha & Hr).
    exists (x :: antes), r, depois. repeat split; [|exact Hr].
    simpl. now rewrite Hx, Ha.
Qed.

(** ** Scheduler: the loop *)

Lemma conta_sleep_app l1 l2 :
  conta_sleep (l1 ++ l2) = conta_sleep l1 + conta_sleep l2.
Proof.
  induction l1 as [|e l1 IH]; simpl; [reflexivity|].
  destruct e; simpl; now rewrite IH.
Qed.

Lemma sem_sleep_ret {A} (a : A) : sem_sleep (ret a).
Proof.
  intros w w' r [= <- <-]. exists []. now rewrite List.app_nil_r.
Qed.

Lemma sem_sleep_levantar {A} e : sem_sleep (@levantar A e).
Proof.
  intros w w' r [= <- <-]. exists []. now rewrite List.app_nil_r.
Qed.

Lemma sem_sleep_bind {A B} (c : M A) (k : A -> M B) :
  sem_sleep c -> (forall a, sem_sleep (k a)) -> sem_sleep (bind c k).
Proof.
  intros Hc Hk w w' r. unfold bind.
  destruct (c w) as [w1 [a|e]] eqn:E.
  - intros H. destruct (Hc _ _ _ E) as (n1 & E1 & Z1).
    destruct (Hk a _ _ _ H) as (n2 & E2 & Z2).
    exists (n1 ++ n2)%list. rewrite E2, E1, <- List.app_assoc, conta_sleep_app.
    split; [reflexivity|lia].
  - intros [= <- <-]. exact (Hc _ _ _ E).
Qed.

Lemma sem_sleep_tentar {A} (c : M A) (h : excecao -> M A) :
  sem_sleep c -> (forall e, sem_sleep (h e)) -> sem_sleep (tentar c h).
Proof.
  intros Hc Hh w w' r. unfold tentar.
  destruct (c w) as [w1 [a|e]] eqn:E.
  - intros [= <- <-]. exact (Hc _ _ _ E).
  - intros H. destruct (Hc _ _ _ E) as (n1 & E1 & Z1).
    destruct (Hh e _ _ _ H) as (n2 & E2 & Z2).
    exists (n1 ++ n2)%list. rewrite E2, E1, <- List.app_assoc, conta_sleep_app.
    split; [reflexivity|lia].
Qed.

Lemma sem_sleep_ler_dados : sem_sleep ler_dados.
Proof. intros w w' r [= <- <-]. exists []. now rewrite List.app_nil_r. Qed.

Lemma sem_sleep_por_dados d : sem_sleep (por_dados d).
Proof. intros w w' r [= <- <-]. exists []. simpl. now rewrite List.app_nil_r. Qed.

Lemma sem_sleep_emitir e : conta_sleep [e] = 0 -> sem_sleep (emitir e).
Proof. intros H w w' r [= <- <-]. exists [e]. now split. Qed.

Lemma sem_sleep_chamar e cb : conta_sleep [e] = 0 -> sem_sleep (chamar e cb).
Proof.
  intros H w w' r. unfold chamar.
  destruct (cb (saida w)); intros [= <- <-]; exists [e]; now split.
Qed.

Lemma sem_sleep_salvar : sem_sleep salvar.
Proof.
  intros w w' r. unfold salvar. destruct (gravavel w).
  - intros [= <- <-]. eexists. simpl. split; reflexivity.
  - intros [= <- <-]. exists []. now rewrite List.app_nil_r.
Qed.

Lemma sem_sleep_para_cada {A} (f : A -> M unit) l :
  (forall x, sem_sleep (f x)) -> sem_sleep (para_cada f l).
Proof.
  intros Hf. induction l as [|x l IH]; simpl.
  - apply sem_sleep_ret.
  - apply sem_sleep_bind; [apply Hf|intros _; exact IH].
Qed.

(** Goes through a computation built from the pieces above. *)
Ltac passo_sem_sleep :=
  first
    [ apply sem_sleep_ret
    | apply sem_sleep_levantar
    | apply sem_sleep_ler_dados
    | apply sem_sleep_por_dados
    | apply sem_sleep_salvar
    | apply sem_sleep_emitir; reflexivity
    | apply sem_sleep_chamar; reflexivity
    | apply sem_sleep_bind; [|intros ?]
    | apply sem_sleep_tentar; [|intros ?]
    | match goal with
      | |- sem_sleep (match ?x with _ => _ end) => destruct x
      | |- sem_sleep (if ?b then _ else _) => destruct b
      end ].

Lemma sem_sleep_obter_lembretes : sem_sleep obter_lembretes.
Proof. unfold obter_lembretes. repeat passo_sem_sleep. Qed.

Lemma sem_sleep_atualizar item_id campos : sem_sleep (atualizar item_id campos).
Proof.
  unfold atualizar, por_lembretes.
  apply sem_sleep_bind; [apply sem_sleep_obter_lembretes|intros v].
  repeat passo_sem_sleep.
Qed.

Lemma sem_sleep_subscrito k it : sem_sleep (subscrito k it).
Proof. unfold subscrito. repeat passo_sem_sleep. Qed.

Lemma sem_sleep_elemento i it0 : sem_sleep (elemento i it0).
Proof. unfold elemento. repeat passo_sem_sleep. Qed.

Lemma sem_sleep_notificar self t m : sem_sleep (notificar self t m).
Proof. unfold notificar. repeat passo_sem_sleep. Qed.

Lemma sem_sleep_verificar_item self hh hoje p :
  sem_sleep (verificar_item self hh hoje p).
Proof.
  unfold verificar_item.
  apply sem_sleep_bind; [apply sem_sleep_elemento|intros it].
  destruct it; try apply sem_sleep_levantar.
  repeat match goal with
         | |- sem_sleep (if ?b then _ else _) => destruct b
         end; try apply sem_sleep_ret.
  apply sem_sleep_bind; [apply sem_sleep_subscrito|intros h].
  destruct (py_eq h (JStr hh)); [|apply sem_sleep_ret].
  apply sem_sleep_bind; [apply sem_sleep_subscrito|intros v].
  apply sem_sleep_bind; [apply sem_sleep_atualizar|intros _].
  apply sem_sleep_bind; [apply sem_sleep_elemento|intros it'].
  apply sem_sleep_bind; [apply sem_sleep_subscrito|intros h'].
  apply sem_sleep_bind; [apply sem_sleep_subscrito|intros t'].
  apply sem_sleep_notificar.
Qed.

Lemma sem_sleep_verificar self hh hoje : sem_sleep (verificar self hh hoje).
Proof.
  unfold verificar, listar.
  apply sem_sleep_bind; [apply sem_sleep_obter_lembretes|intros v].
  destruct (py_iter v); [|apply sem_sleep_levantar].
  apply sem_sleep_bind.
  - apply sem_sleep_para_cada. intros x. apply sem_sleep_verificar_item.
  - intros _. repeat passo_sem_sleep.
Qed.

(** The loop never raises, and it ends each of its cycles by a sleep. *)
Lemma run_retorna self : forall relogio w,
  exists w' novos,
    run self relogio w = (w', Retorna tt) /\
    saida w' = (saida w ++ novos)%list /\
    conta_sleep novos = List.length relogio.
Proof.
  induction relogio as [|[hh hoje] rel IH]; intros w.
  - exists w, []. simpl. now rewrite List.app_nil_r.
  - cbn [run]. unfold bind at 1.
    destruct (tentar (verificar self hh hoje)
                (fun e => emitir (EvPrint "Erro Scheduler:" e)) w)
      as [w1 r1] eqn:E1.
    assert (H1 : sem_sleep (tentar (verificar self hh hoje)
                   (fun e => emitir (EvPrint "Erro Scheduler:" e)))).
    { apply sem_sleep_tentar; [apply sem_sleep_verificar|].
      intros e. now apply sem_sleep_emitir. }
    destruct (H1 _ _ _ E1) as (n1 & En1 & Z1).
    assert (r1 = Retorna tt) as ->.
    { revert E1. unfold tentar, emitir.
      destruct (verificar self hh hoje w) as [w2 [[]|e]]; now intros [= <- <-]. }
    unfold bind at 1. unfold emitir at 1. cbn [dados disco gravavel saida].
    destruct (IH (mkMundo (dados w1) (disco w1) (gravavel w1)
                    (saida w1 ++ [EvSleep (if demo_speed self then 1%Z
                                           else intervalo self)])))
      as (w' & n2 & E2 & En2 & Z2).
    exists w', (n1 ++ EvSleep (if demo_speed self then 1%Z else intervalo self) :: n2)%list.
    split; [exact E2|]. split.
    + rewrite En2. cbn [saida]. rewrite En1, <- !List.app_assoc. reflexivity.
    + rewrite conta_sleep_app. simpl. lia.
Qed.

(** The loop ends at the item on which its body raises. *)
Lemma para_cada_interrompe {A} (f : A -> M unit) pre x post w w1 w2 e :
  para_cada f pre w = (w1, Retorna tt) ->
  f x w1 = (w2, Levanta e) ->
  para_cada f (pre ++ x :: post) w = (w2, Levanta e).
Proof.
  revert w. induction pre as [|y pre IH]; intros w Hpre Hx.
  - injection Hpre as <-. cbn [List.app para_cada].
    now apply bind_levanta_eq.
  - cbn [List.app para_cada] in *. unfold bind in Hpre |- *.
    destruct (f y w) as [w' [[]|e']]; [|discriminate].
    now apply IH.
Qed.

(** An exception raised inside a cycle ends the cycle: with a file that
    cannot be written, the first of two due reminders is marked in
    memory, the write raises, and the second one is neither marked nor
    notified; with an item that is not a dict, the cycle ends at that
    item and the due reminder after it is not evaluated. *)
Lemma C4_ciclo_interrompido :
  let self := mkScheduler 5 false None None (Some (fun _ _ _ => None)) in
  let l1 := mkLembrete 1 "a" "09:00" true None in
  let l2 := mkLembrete 2 "b" "09:00" true None in
  dispara "09:00" "2024-01-01" l2 /\
  verificar self "09:00" "2024-01-01" (mkMundo (doc_de [l1; l2]) Ausente false []) =
  (mkMundo (doc_de [marcar "2024-01-01" l1; l2]) Ausente false [], Levanta OSError) /\
  verificar self "09:00" "2024-01-01"
    (mkMundo (JObj [("lembretes", JList [JInt 1; json_de_lembrete l2])]) Ausente true []) =
  (mkMundo (JObj [("lembretes", JList [JInt 1; json_de_lembrete l2])]) Ausente true [],
   Levanta AttributeError).
Proof.
  split; [|split; reflexivity].
  repeat split; try reflexivity. discriminate.
Qed.

(** C4, amended.  An exception raised while a reminder is evaluated or
    while its fired-mark is written ends the cycle in which it is raised:
    [verificar] raises it in the world of the raise, so that the items
    after it are not evaluated and the status callback is not called
    (when the write of the mark of the first due reminder fails, the
    reminders after it are left as they are, and nothing is notified).
    The loop of the scheduler catches it, prints it, sleeps and goes on
    with the following cycles: the loop never raises and it runs every
    cycle to its sleep. *)
Theorem C4_excecao_no_ciclo (self : Scheduler) :
  (forall relogio w,
     exists w' novos,
       run self relogio w = (w', Retorna tt) /\
       saida w' = (saida w ++ novos)%list /\
       conta_sleep novos = List.length relogio) /\
  (forall hh hoje relogio w w1 e,
     verificar self hh hoje w = (w1, Levanta e) ->
     run self ((hh, hoje) :: relogio) w =
     run self relogio
       (mkMundo (dados w1) (disco w1) (gravavel w1)
          (saida w1 ++ [EvPrint "Erro Scheduler:" e;
                        EvSleep (if demo_speed self then 1%Z else intervalo self)]))) /\
  (forall hh hoje w w0 v l pre x post w1 w2 e,
     listar w = (w0, Retorna v) ->
     py_iter v = Some l ->
     combine (seq 0 (List.length l)) l = (pre ++ x :: post)%list ->
     para_cada (verificar_item self hh hoje) pre w0 = (w1, Retorna tt) ->
     verificar_item self hh hoje x w1 = (w2, Levanta e) ->
     verificar self hh hoje w = (w2, Levanta e)) /\
  (forall hh hoje antes r depois dk s,
     NoDup (map lid (antes ++ r :: depois)) ->
     existsb (dispara_b hh hoje) antes = false ->
     dispara_b hh hoje r = true ->
     verificar self hh hoje (mkMundo (doc_de (antes ++ r :: depois)) dk false s) =
     (mkMundo (doc_de (antes ++ marcar hoje r :: depois)) dk false s, Levanta OSError)).
Proof.
  split; [apply run_retorna|]. split; [|split].
  - intros hh hoje relogio w w1 e H. cbn [run].
    unfold bind at 1. unfold tentar. rewrite H.
    unfold emitir at 1. unfold bind at 1. unfold emitir at 1.
    cbn [dados disco gravavel saida]. rewrite <- List.app_assoc. reflexivity.
  - intros hh hoje w w0 v l pre x post w1 w2 e Hl Hv Hc Hpre Hx.
    unfold verificar. erewrite bind_ret_eq; [|exact Hl].
    rewrite Hv, Hc.
    erewrite bind_levanta_eq; [reflexivity|].
    now apply (para_cada_interrompe _ pre x post w0 w1 w2 e).
  - intros. now apply verificar_doc_falha.
Qed.

Lemma C4_excecao_no_ciclo_witness :
  let self := mkScheduler 5 false None None (Some (fun _ _ _ => None)) in
  let l1 := mkLembrete 1 "a" "09:00" true None in
  let l2 := mkLembrete 2 "b" "09:00" true None in
  verificar self "09:00" "2024-01-01" (mkMundo (doc_de [l1; l2]) Ausente false []) =
  (mkMundo (doc_de [marcar "2024-01-01" l1; l2]) Ausente false [], Levanta OSError).
Proof.
  apply (proj2 (proj2 (proj2 (C4_excecao_no_ciclo
                         (mkScheduler 5 false None None (Some (fun _ _ _ => None))))))
           "09:00" "2024-01-01" [] (mkLembrete 1 "a" "09:00" true None)
           [mkLembrete 2 "b" "09:00" true None] Ausente []).
  - repeat constructor; simpl; intuition discriminate.
  - reflexivity.
  - reflexivity.
Defined.

(** ** Scheduler: the mark is written before the notification *)

Lemma eventos_itens_divide self hh hoje : forall antes feitos r depois hist,
  dispara_b hh hoje r = true ->
  exists h1 h2,
    eventos_itens self hh hoje feitos (antes ++ r :: depois) hist =
    (h1 ++
     [EvEscrita (dumps (doc_de (feitos ++ map (apos_ciclo hh hoje) antes ++
                                marcar hoje r :: depois)))] ++
     eventos_notificar self
       (hist ++ h1 ++
        [EvEscrita (dumps (doc_de (feitos ++ map (apos_ciclo hh hoje) antes ++
                                   marcar hoje r :: depois)))])
       "Lembrete" (mensagem r) ++ h2)%list /\
    forall popup, ui_callback_popup self = Some popup ->
      chamadas_popup h2 =
      map (fun x => ("Lembrete", mensagem x)) (filter (dispara_b hh hoje) depois).
Proof.
  induction antes as [|x antes IH]; intros feitos r depois hist Hr.
  - exists []. eexists. cbn [List.app map eventos_itens]. rewrite Hr. cbv zeta.
    split; [reflexivity|].
    intros popup Hp. apply (chamadas_popup_itens self hh hoje popup Hp).
  - cbn [List.app map eventos_itens].
    destruct (dispara_b hh hoje x) eqn:Hx.
    + replace (apos_ciclo hh hoje x) with (marcar hoje x)
        by (unfold apos_ciclo; now rewrite Hx).
      cbv zeta.
      remember (dumps (doc_de (feitos ++ marcar hoje x :: antes ++ r :: depois))) as tx.
      remember (eventos_notificar self (hist ++ [EvEscrita tx]) "Lembrete" (mensagem x))
        as nx.
      match goal with
      | |- context [eventos_itens self hh hoje ?f (antes ++ r :: depois)%list ?h] =>
          destruct (IH f r depois h Hr) as (h1 & h2 & E & P)
      end.
      exists ([EvEscrita tx] ++ nx ++ h1)%list, h2. split; [|exact P].
      rewrite E. rewrite <- !List.app_assoc. cbn [List.app]. reflexivity.
    + replace (apos_ciclo hh hoje x) with x
        by (unfold apos_ciclo; now rewrite Hx).
      destruct (IH (feitos ++ [x])%list r depois hist Hr) as (h1 & h2 & E & P).
      exists h1, h2. split; [|exact P].
      rewrite E. rewrite <- !List.app_assoc. cbn [List.app]. reflexivity.
Qed.

(** ** Scheduler: a reminder that is not active *)

Lemma chamadas_notify_app l1 l2 :
  chamadas_notify (l1 ++ l2) = (chamadas_notify l1 ++ chamadas_notify l2)%list.
Proof.
  induction l1 as [|e l1 IH]; simpl; [reflexivity|].
  destruct e; simpl; now rewrite IH.
Qed.

Lemma chamadas_notify_notificar self hist t m :
  chamadas_notify (eventos_notificar self hist t m) =
  match notification self with
  | Some _ => [(t, m)]
  | None => []
  end.
Proof.
  unfold eventos_notificar.
  destruct (notification self), (ui_callback_popup self) as [p|]; simpl;
    try reflexivity; destruct (p t m _); reflexivity.
Qed.

Lemma chamadas_notify_status self hh : chamadas_notify (eventos_status self hh) = [].
Proof. unfold eventos_status. now destruct (ui_callback_status self). Qed.

(** Every call of a cycle is the notification of a due reminder. *)
Lemma chamadas_itens_devidos self hh hoje : forall resto feitos hist,
  Forall (chamada_de (filter (dispara_b hh hoje) resto))
    (chamadas_popup (eventos_itens self hh hoje feitos resto hist)) /\
  Forall (chamada_de (filter (dispara_b hh hoje) resto))
    (chamadas_notify (eventos_itens self hh hoje feitos resto hist)).
Proof.
  induction resto as [|r resto IH]; intros feitos hist;
    cbn [eventos_itens filter]; [split; constructor|].
  destruct (dispara_b hh hoje r).
  - cbv zeta. cbn [List.app chamadas_popup chamadas_notify].
    rewrite chamadas_popup_app, chamadas_notify_app,
      chamadas_popup_notificar, chamadas_notify_notificar.
    destruct (IH (feitos ++ [marcar hoje r])%list
                (hist ++ EvEscrita (dumps (doc_de (feitos ++ marcar hoje r :: resto))) ::
                 eventos_notificar self
                   (hist ++ [EvEscrita (dumps (doc_de (feitos ++ marcar hoje r :: resto)))])
                   "Lembrete" (mensagem r))%list) as [Hp Hn].
    assert (Hw : forall l, Forall (chamada_de (filter (dispara_b hh hoje) resto)) l ->
                           Forall (chamada_de (r :: filter (dispara_b hh hoje) resto)) l).
    { intros l. apply Forall_impl. intros c (x & Hx & ->). exists x. split; [now right|reflexivity]. }
    assert (Hr : chamada_de (r :: filter (dispara_b hh hoje) resto) ("Lembrete", mensagem r)).
    { exists r. split; [now left|reflexivity]. }
    split; apply Forall_app; split; auto.
    + destruct (ui_callback_popup self); repeat constructor; exact Hr.
    + destruct (notification self); repeat constructor; exact Hr.
  - apply IH.
Qed.

Lemma passo_ciclo_apos hh hoje ls :
  Forall2 (passo_ciclo hh hoje) ls (map (apos_ciclo hh hoje) ls).
Proof.
  induction ls as [|x ls IH]; simpl; constructor; [|exact IH].
  unfold passo_ciclo, apos_ciclo. destruct (dispara_b hh hoje x); auto.
Qed.

Lemma passo_ciclo_refl hh hoje ls : Forall2 (passo_ciclo hh hoje) ls ls.
Proof. induction ls; constructor; [now left|assumption]. Qed.

(** One cycle on a document of reminders with pairwise distinct ids,
    whether the file can be written or not. *)
Lemma verificar_geral self hh hoje ls dk g s :
  NoDup (map lid ls) ->
  exists ls' dk' novos res,
    verificar self hh hoje (mkMundo (doc_de ls) dk g s) =
      (mkMundo (doc_de ls') dk' g (s ++ novos), res) /\
    Forall2 (passo_ciclo hh hoje) ls ls' /\
    Forall (chamada_de (filter (dispara_b hh hoje) ls)) (chamadas_popup novos) /\
    Forall (chamada_de (filter (dispara_b hh hoje) ls)) (chamadas_notify novos).
Proof.
  intros Hnd.
  destruct g eqn:Eg; [|destruct (existsb (dispara_b hh hoje) ls) eqn:Hex].
  - do 4 eexists. split; [apply verificar_doc; [exact Hnd|now left]|].
    split; [apply passo_ciclo_apos|].
    destruct (chamadas_itens_devidos self hh hoje ls [] s) as [Hp Hn].
    rewrite chamadas_popup_app, chamadas_notify_app,
      chamadas_popup_status, chamadas_notify_status, !List.app_nil_r.
    now split.
  - destruct (primeiro_devido hh hoje ls Hex) as (antes & r & depois & -> & Ha & Hr).
    exists (antes ++ marcar hoje r :: depois)%list, dk, [], (Levanta OSError).
    rewrite List.app_nil_r.
    split; [now apply verificar_doc_falha|].
    split; [|split; constructor].
    apply Forall2_app; [apply passo_ciclo_refl|].
    constructor; [right; now split|apply passo_ciclo_refl].
  - do 4 eexists. split; [apply verificar_doc; [exact Hnd|now right]|].
    split; [apply passo_ciclo_apos|].
    destruct (chamadas_itens_devidos self hh hoje ls [] s) as [Hp Hn].
    rewrite chamadas_popup_app, chamadas_notify_app,
      chamadas_popup_status, chamadas_notify_status, !List.app_nil_r.
    now split.
Qed.

Lemma dispara_b_inativo hh hoje r : lativo r = false -> dispara_b hh hoje r = false.
Proof. intros H. unfold dispara_b. now rewrite H. Qed.

Lemma passo_ciclo_mesmo hh hoje (l l' : list Lembrete) :
  Forall2 (passo_ciclo hh hoje) l l' ->
  map lid l' = map lid l /\ map mensagem l' = map mensagem l.
Proof.
  induction 1 as [|x x' l l' Hx Hl [IH1 IH2]]; simpl; [split; reflexivity|].
  rewrite IH1, IH2. destruct Hx as [->|[_ ->]]; split; reflexivity.
Qed.

Lemma chamada_de_mesmo (l l' : list Lembrete) c :
  map mensagem l' = map mensagem l -> chamada_de l' c -> chamada_de l c.
Proof.
  intros E (x & Hx & ->).
  assert (Hm : In (mensagem x) (map mensagem l)) by (rewrite <- E; now apply in_map).
  apply in_map_iff in Hm as (y & Ey & Hy).
  exists y. split; [exact Hy|now rewrite Ey].
Qed.

Lemma chamada_de_devidos hh hoje antes r depois c :
  dispara_b hh hoje r = false ->
  chamada_de (filter (dispara_b hh hoje) (antes ++ r :: depois)) c ->
  chamada_de (antes ++ depois) c.
Proof.
  intros Hr (x & Hx & ->). exists x. split; [|reflexivity].
  rewrite filter_app in Hx. simpl in Hx. rewrite Hr in Hx.
  apply in_app_or in Hx as [Hx|Hx]; apply filter_In in Hx as [Hx _];
    apply in_or_app; auto.
Qed.

(** However many cycles run, a reminder that is not active stays as it
    is, and every call of the popup or of the native notification is the
    notification of another reminder. *)
Lemma run_inativo self : forall relogio antes r depois dk g s,
  NoDup (map lid (antes ++ r :: depois)) ->
  lativo r = false ->
  exists w' antes' depois' novos,
    run self relogio (mkMundo (doc_de (antes ++ r :: depois)) dk g s) = (w', Retorna tt) /\
    dados w' = doc_de (antes' ++ r :: depois') /\
    (map lid antes' = map lid antes /\ map mensagem antes' = map mensagem antes) /\
    (map lid depois' = map lid depois /\ map mensagem depois' = map mensagem depois) /\
    saida w' = (s ++ novos)%list /\
    Forall (chamada_de (antes ++ depois)) (chamadas_popup novos) /\
    Forall (chamada_de (antes ++ depois)) (chamadas_notify novos).
Proof.
  induction relogio as [|[hh hoje] rel IH]; intros antes r depois dk g s Hnd Hr.
  - eexists. exists antes, depois, []. cbn [run]. unfold ret.
    split; [reflexivity|]. cbn [dados saida]. rewrite List.app_nil_r.
    repeat split; constructor.
  - destruct (verificar_geral self hh hoje (antes ++ r :: depois) dk g s Hnd)
      as (ls' & dk' & novos & res & Ev & HF & Hp & Hn).
    apply Forall2_app_inv_l in HF as (antes' & l2 & Ha & H2 & ->).
    inversion H2 as [|? r' ? depois' Hr' Hd]; subst.
    assert (r' = r) as ->.
    { destruct Hr' as [E|[E _]]; [exact E|].
      rewrite (dispara_b_inativo hh hoje r Hr) in E. discriminate. }
    destruct (passo_ciclo_mesmo _ _ _ _ Ha) as [Hal Ham].
    destruct (passo_ciclo_mesmo _ _ _ _ Hd) as [Hdl Hdm].
    assert (Hnd' : NoDup (map lid (antes' ++ r :: depois'))).
    { rewrite map_app in *. simpl in *. now rewrite Hal, Hdl. }
    assert (Hmm : map mensagem (antes' ++ depois') = map mensagem (antes ++ depois)).
    { rewrite !map_app. now rewrite Ham, Hdm. }
    pose (extra := match res with
                   | Retorna _ => []
                   | Levanta e => [EvPrint "Erro Scheduler:" e]
                   end).
    destruct (IH antes' r depois' dk' g
                (s ++ novos ++ extra ++
                 [EvSleep (if demo_speed self then 1%Z else intervalo self)])%list
                Hnd' Hr)
      as (w' & antes2 & depois2 & novos2 & Erun & Hdd & [Hl1 Hm1] & [Hl2 Hm2] & Hs & Hp2 & Hn2).
    exists w', antes2, depois2,
      (novos ++ extra ++
       [EvSleep (if demo_speed self then 1%Z else intervalo self)] ++ novos2)%list.
    split.
    { cbn [run]. unfold bind at 1. unfold tentar. rewrite Ev.
      rewrite <- Erun. unfold extra.
      destruct res as [[]|e]; unfold bind at 1; unfold emitir;
        cbn [dados disco gravavel saida List.app];
        rewrite <- ?List.app_assoc; cbn [List.app];
        rewrite ?List.app_nil_r; reflexivity. }
    split; [exact Hdd|].
    split; [split; congruence|]. split; [split; congruence|].
    split.
    { rewrite Hs. rewrite <- !List.app_assoc. reflexivity. }
    assert (Hx1 : chamadas_popup extra = [])
      by (unfold extra; destruct res as [[]|e]; reflexivity).
    assert (Hx2 : chamadas_notify extra = [])
      by (unfold extra; destruct res as [[]|e]; reflexivity).
    rewrite !chamadas_popup_app, !chamadas_notify_app, Hx1, Hx2.
    cbn [chamadas_popup chamadas_notify List.app].
    pose proof (dispara_b_inativo hh hoje r Hr) as Hrb.
    split; apply Forall_app; split.
    + revert Hp. apply Forall_impl. intros c. now apply chamada_de_devidos.
    + revert Hp2. apply Forall_impl. intros c. now apply chamada_de_mesmo.
    + revert Hn. apply Forall_impl. intros c. now apply chamada_de_devidos.
    + revert Hn2. apply Forall_impl. intros c. now apply chamada_de_mesmo.
Qed.

(** C8, amended.  A reminder whose active flag is false never fires, whatever
    its time of day and however many cycles run, in a store that holds
    reminders with pairwise distinct ids: it stays in the document as it
    is, fired-mark included, and every call of the popup or of the
    native notification is the notification of another reminder. *)
Theorem C8_inativo_nunca_dispara (self : Scheduler) (relogio : list (string * string))
    (antes : list Lembrete) (r : Lembrete) (depois : list Lembrete)
    (dk : arquivo) (g : bool) (s : list evento) :
  NoDup (map lid (antes ++ r :: depois)) ->
  lativo r = false ->
  exists w' antes' depois' novos,
    run self relogio (mkMundo (doc_de (antes ++ r :: depois)) dk g s) = (w', Retorna tt) /\
    dados w' = doc_de (antes' ++ r :: depois') /\
    List.length antes' = List.length antes /\
    List.length depois' = List.length depois /\
    saida w' = (s ++ novos)%list /\
    Forall (chamada_de (antes ++ depois)) (chamadas_popup novos) /\
    Forall (chamada_de (antes ++ depois)) (chamadas_notify novos).
Proof.
  intros Hnd Hr.
  destruct (run_inativo self relogio antes r depois dk g s Hnd Hr)
    as (w' & antes' & depois' & novos & H1 & H2 & [Hl1 _] & [Hl2 _] & H5 & H6 & H7).
  exists w', antes', depois', novos.
  repeat split; try assumption.
  - rewrite <- (length_map lid antes'), Hl1. apply length_map.
  - rewrite <- (length_map lid depois'), Hl2. apply length_map.
Qed.

Lemma C8_inativo_nunca_dispara_witness :
  exists w' novos,
    run (mkScheduler 5 false None None (Some (fun _ _ _ => None)))
      [("09:00", "2024-01-01"); ("09:00", "2024-01-02")]
      (mkMundo (doc_de [mkLembrete 1 "Beber" "09:00" false None]) Ausente true [])
    = (w', Retorna tt) /\
    dados w' = doc_de [mkLembrete 1 "Beber" "09:00" false None] /\
    saida w' = novos /\
    chamadas_popup novos = [].
Proof.
  destruct (C8_inativo_nunca_dispara
              (mkScheduler 5 false None None (Some (fun _ _ _ => None)))
              [("09:00", "2024-01-01"); ("09:00", "2024-01-02")]
              [] (mkLembrete 1 "Beber" "09:00" false None) [] Ausente true [])
    as (w' & antes' & depois' & novos & H1 & H2 & H3 & H4 & H5 & H6 & _).
  - repeat constructor; simpl; intuition.
  - reflexivity.
  - exists w', novos.
    destruct antes'; [|discriminate]. destruct depois'; [|discriminate].
    split; [exact H1|]. split; [exact H2|]. split; [exact H5|].
    destruct (chamadas_popup novos) as [|c l]; [reflexivity|].
    inversion H6 as [|? ? (x & [] & _) _].
Defined.

(** ** Scheduler: a due reminder, whatever the ids *)

Lemma atualizar_em_primeiro hoje n : forall ls,
  (exists x, In x ls /\ lid x = n) ->
  exists it,
    atualizar_em (JInt n) [("ultimo_disparo_em", JStr hoje)] (map json_de_lembrete ls) =
    Retorna (map json_de_lembrete (marcar_primeiro hoje n ls), it).
Proof.
  induction ls as [|x l IH]; intros (y & Hy & Ey); [contradiction|].
  cbn [map marcar_primeiro]. unfold json_de_lembrete at 1.
  cbn [atualizar_em dict_get String.eqb Ascii.eqb Bool.eqb py_eq].
  destruct (Z.eqb_spec (lid x) n) as [E|E].
  - eexists. reflexivity.
  - destruct IH as (it & Hit).
    + exists y. split; [|exact Ey]. destruct Hy as [->|Hy]; [contradiction|exact Hy].
    + rewrite Hit. eexists. reflexivity.
Qed.

Lemma nth_marcar_primeiro hoje n : forall ls i r,
  nth_error ls i = Some r ->
  exists r',
    nth_error (marcar_primeiro hoje n ls) i = Some r' /\
    lhorario r' = lhorario r /\ ltexto r' = ltexto r.
Proof.
  induction ls as [|x l IH]; intros [|i] r H; try discriminate; simpl in H.
  - injection H as ->. cbn [marcar_primeiro].
    destruct (Z.eqb (lid r) n); eexists; repeat split; reflexivity.
  - cbn [marcar_primeiro]. destruct (Z.eqb (lid x) n).
    + exists r. repeat split. exact H.
    + apply (IH i r H).
Qed.

Lemma elemento_nth ls i r it0 dk g s :
  nth_error ls i = Some r ->
  elemento i it0 (mkMundo (doc_de ls) dk g s) =
  (mkMundo (doc_de ls) dk g s, Retorna (json_de_lembrete r)).
Proof.
  intros H. unfold elemento. mexec. simpl.
  erewrite nth_error_nth; [reflexivity|].
  now rewrite nth_error_map, H.
Qed.

(** The body of the loop on a due reminder, in any document of
    reminders whose file can be written: the document with the mark is
    written, then the notification is made, and the body returns. *)
Lemma verificar_item_dispara_geral self hh hoje ls i r it0 dk s :
  nth_error ls i = Some r ->
  dispara_b hh hoje r = true ->
  verificar_item self hh hoje (i, it0) (mkMundo (doc_de ls) dk true s) =
  (let d' := doc_de (marcar_primeiro hoje (lid r) ls) in
   let s1 := (s ++ [EvEscrita (dumps d')])%list in
   mkMundo d' (Texto (dumps d')) true
     (s1 ++ eventos_notificar self s1 "Lembrete" (mensagem r)), Retorna tt).
Proof.
  intros Hi Hd. destruct (dispara_b_true _ _ _ Hd) as (Ha & Hv & Hh & Hu).
  rewrite (verificar_item_obj self hh hoje _ _
             [("id", JInt (lid r)); ("texto", JStr (ltexto r));
              ("horario", JStr (lhorario r)); ("ativo", JBool (lativo r));
              ("ultimo_disparo_em", json_de_ultimo (lultimo r))]
             _ _ (elemento_nth ls i r it0 dk true s Hi)).
  cbn [get_ou dict_get String.eqb Ascii.eqb Bool.eqb py_truthy].
  rewrite Ha, Hv, py_eq_ultimo, Hu. cbn [negb].
  erewrite bind_ret_eq; [|reflexivity].
  cbn [py_eq]. rewrite Hh.
  erewrite bind_ret_eq; [|reflexivity].
  destruct (atualizar_em_primeiro hoje (lid r) ls) as (it & Hit).
  { exists r. split; [now apply nth_error_In in Hi|reflexivity]. }
  destruct (nth_marcar_primeiro hoje (lid r) ls i r Hi) as (r' & Hi' & Eh & Et).
  erewrite bind_ret_eq.
  2:{ unfold atualizar. unfold bind at 1.
      change (obter_lembretes (mkMundo (doc_de ls) dk true s))
        with (mkMundo (doc_de ls) dk true s,
              Retorna (A:=json) (JList (map json_de_lembrete ls))).
      cbn [py_iter]. rewrite Hit. reflexivity. }
  erewrite bind_ret_eq; [|apply (elemento_nth _ i r' it0); exact Hi'].
  erewrite bind_ret_eq; [|reflexivity].
  erewrite bind_ret_eq; [|reflexivity].
  rewrite notificar_eq.
  cbn [json_de_lembrete dict_get String.eqb Ascii.eqb Bool.eqb py_str].
  unfold mensagem. rewrite Eh, Et. reflexivity.
Qed.

(** ** Documents of reminders that can be written *)

Lemma forallb_de_map {A B} (f : A -> B) (p : B -> bool) l :
  forallb p (map f l) = forallb (fun x => p (f x)) l.
Proof. induction l as [|x l IH]; [reflexivity|]. cbn [map forallb]. now rewrite IH. Qed.

Lemma profundidade_doc_de ls : profundidade (doc_de ls) <= 3.
Proof.
  unfold doc_de. cbn [profundidade]. apply le_n_S.
  apply list_max_le. apply Forall_cons; [|apply Forall_nil].
  cbn [snd profundidade]. apply le_n_S.
  apply list_max_le. apply Forall_forall. intros n Hn.
  rewrite map_map in Hn. apply in_map_iff in Hn as (r & <- & _).
  unfold json_de_lembrete. cbn [profundidade]. apply le_n_S.
  apply list_max_le. cbn [map snd].
  repeat (apply Forall_cons; [cbn [profundidade]; try lia|]); [|apply Forall_nil].
  destruct (lultimo r); cbn; lia.
Qed.

(** A document of reminders that can be written can be encoded. *)
Lemma lembretes_codificaveis ls :
  forallb lembrete_codificavel ls = true -> codificavel (doc_de ls) = true.
Proof.
  intros H. unfold codificavel.
  assert (Hp : Nat.leb (profundidade (doc_de ls)) profundidade_maxima = true).
  { apply Nat.leb_le. pose proof (profundidade_doc_de ls). unfold profundidade_maxima. lia. }
  rewrite Hp, andb_true_r.
  unfold doc_de. cbn [sem_substituto inteiros_curtos forallb fst snd].
  rewrite !andb_true_r.
  replace (tem_substituto "lembretes") with false by reflexivity. cbn [negb andb].
  rewrite !forallb_de_map. apply andb_true_intro.
  rewrite forallb_forall in H.
  split; apply forallb_forall; intros r Hr; specialize (H r Hr);
    unfold lembrete_codificavel in H;
    apply andb_prop in H as [H H4]; apply andb_prop in H as [H H3];
    apply andb_prop in H as [H1 H2];
    unfold json_de_lembrete; cbn [sem_substituto inteiros_curtos forallb fst snd].
  - rewrite H2, H3.
    replace (tem_substituto "id") with false by reflexivity.
    replace (tem_substituto "texto") with false by reflexivity.
    replace (tem_substituto "horario") with false by reflexivity.
    replace (tem_substituto "ativo") with false by reflexivity.
    replace (tem_substituto "ultimo_disparo_em") with false by reflexivity.
    cbn [negb andb]. destruct (lultimo r); cbn [json_de_ultimo sem_substituto];
      [now rewrite H4|reflexivity].
  - rewrite H1. cbn [andb]. destruct (lultimo r); reflexivity.
Qed.

Lemma marcar_codificavel hoje r :
  tem_substituto hoje = false ->
  lembrete_codificavel r = true -> lembrete_codificavel (marcar hoje r) = true.
Proof.
  intros Hh H. unfold lembrete_codificavel in *. cbn [marcar lid ltexto lhorario lultimo].
  apply andb_prop in H as [H _]. rewrite H, Hh. reflexivity.
Qed.

Lemma apos_ciclo_codificavel hh hoje ls :
  tem_substituto hoje = false ->
  forallb lembrete_codificavel ls = true ->
  forallb lembrete_codificavel (map (apos_ciclo hh hoje) ls) = true.
Proof.
  intros Hh H. rewrite forallb_de_map. rewrite forallb_forall in *.
  intros r Hr. unfold apos_ciclo.
  destruct (dispara_b hh hoje r); [apply marcar_codificavel|]; auto.
Qed.

(** Two reminders with the same id, the first not due, the second due:
    the second fires (the popup is called for it), and the fired-mark
    that [atualizar] sets and writes is the one of the first; the mark of
    the reminder that fired is not set, in memory or in the file. *)
Lemma C5_marca_de_outro :
  let self := mkScheduler 5 false None None (Some (fun _ _ _ => None)) in
  let a := mkLembrete 1000 "a" "08:00" true None in
  let b := mkLembrete 1000 "b" "09:00" true None in
  let w1 := fst (adicionar_todos [(1000%Z, "a", "08:00", JBool true);
                                  (1000%Z, "b", "09:00", JBool true)]
                   (fst (Store_init mundo_novo))) in
  let w2 := fst (verificar self "09:00" "2024-01-01" w1) in
  dados w1 = doc_de [a; b] /\
  gravavel w1 = true /\
  codificavel (dados w1) = true /\
  dispara "09:00" "2024-01-01" b /\
  dispara_b "09:00" "2024-01-01" a = false /\
  chamadas_popup (saida w2) = [("Lembrete", "09:00 - b")] /\
  dados w2 = doc_de [marcar "2024-01-01" a; b] /\
  disco w2 = Texto (dumps (doc_de [marcar "2024-01-01" a; b])) /\
  lultimo b = None.
Proof.
  cbv zeta. split; [reflexivity|]. split; [reflexivity|].
  split; [vm_compute; reflexivity|].
  split; [repeat split; try reflexivity; discriminate|].
  split; [vm_compute; reflexivity|].
  split; [vm_compute; reflexivity|].
  split; [vm_compute; reflexivity|].
  split; [vm_compute; reflexivity|reflexivity].
Qed.

(** C5, amended.  In a store whose ids are pairwise distinct and whose
    reminders can be written, for a reminder that fires in a cycle: the
    document in which its mark is set is written to the file, whole, and
    only then are the native notification and the popup called; whatever
    the callbacks do (return or raise), the cycle returns, the mark stays
    in the document and in the file, and the reminders after it are
    evaluated (those that are due are marked and notified too). *)
Theorem C5_marca_antes_de_notificar (self : Scheduler) (hh hoje : string)
    (antes : list Lembrete) (r : Lembrete) (depois : list Lembrete)
    (dk : arquivo) (s : list evento) :
  NoDup (map lid (antes ++ r :: depois)) ->
  forallb lembrete_codificavel (antes ++ r :: depois) = true ->
  tem_substituto hoje = false ->
  dispara hh hoje r ->
  let d1 := doc_de (map (apos_ciclo hh hoje) antes ++ marcar hoje r :: depois) in
  exists w' h1 h2,
    verificar self hh hoje (mkMundo (doc_de (antes ++ r :: depois)) dk true s)
      = (w', Retorna tt) /\
    saida w' =
      ((s ++ h1 ++ [EvEscrita (dumps d1)]) ++
       eventos_notificar self (s ++ h1 ++ [EvEscrita (dumps d1)])
         "Lembrete" (mensagem r) ++ h2)%list /\
    json_dump d1 = (dumps d1, None) /\
    dados w' =
      doc_de (map (apos_ciclo hh hoje) antes ++ marcar hoje r ::
              map (apos_ciclo hh hoje) depois) /\
    disco w' = Texto (dumps (dados w')) /\
    json_dump (dados w') = (dumps (dados w'), None) /\
    (forall popup, ui_callback_popup self = Some popup ->
       chamadas_popup (eventos_notificar self (s ++ h1 ++ [EvEscrita (dumps d1)])
                         "Lembrete" (mensagem r)) = [("Lembrete", mensagem r)] /\
       chamadas_popup h2 =
       map (fun x => ("Lembrete", mensagem x)) (filter (dispara_b hh hoje) depois)).
Proof.
  intros Hnd Hc Hh Hd. cbv zeta. apply dispara_b_spec in Hd.
  destruct (eventos_itens_divide self hh hoje antes [] r depois s Hd)
    as (h1 & h2 & E & P).
  cbn [List.app] in E.
  assert (Hex : existsb (dispara_b hh hoje) (antes ++ r :: depois) = true).
  { rewrite existsb_app. simpl. rewrite Hd. now rewrite orb_true_r. }
  assert (Hap : map (apos_ciclo hh hoje) (antes ++ r :: depois) =
                (map (apos_ciclo hh hoje) antes ++ marcar hoje r ::
                 map (apos_ciclo hh hoje) depois)%list).
  { rewrite map_app. simpl. unfold apos_ciclo at 2. now rewrite Hd. }
  rewrite forallb_app in Hc. apply andb_prop in Hc as [Hc1 Hc2].
  cbn [forallb] in Hc2. apply andb_prop in Hc2 as [Hcr Hc3].
  assert (C1 : codificavel (doc_de (map (apos_ciclo hh hoje) antes ++
                                    marcar hoje r :: depois)) = true).
  { apply lembretes_codificaveis. rewrite forallb_app. cbn [forallb].
    rewrite (apos_ciclo_codificavel hh hoje antes Hh Hc1),
      (marcar_codificavel hoje r Hh Hcr), Hc3. reflexivity. }
  assert (C2 : codificavel (doc_de (map (apos_ciclo hh hoje) antes ++ marcar hoje r ::
                                    map (apos_ciclo hh hoje) depois)) = true).
  { apply lembretes_codificaveis. rewrite forallb_app. cbn [forallb].
    rewrite (apos_ciclo_codificavel hh hoje antes Hh Hc1),
      (marcar_codificavel hoje r Hh Hcr), (apos_ciclo_codificavel hh hoje depois Hh Hc3).
    reflexivity. }
  eexists. exists h1, (h2 ++ eventos_status self hh)%list.
  split; [apply (verificar_doc self hh hoje _ dk true s Hnd); now left|].
  cbn [dados disco saida]. rewrite Hex, Hap, E.
  split; [repeat (rewrite <- !List.app_assoc; cbn [List.app]); reflexivity|].
  split; [now apply json_dump_codificavel|].
  split; [reflexivity|]. split; [reflexivity|].
  split; [now apply json_dump_codificavel|].
  intros popup Hp. split.
  - now rewrite chamadas_popup_notificar, Hp.
  - rewrite chamadas_popup_app, chamadas_popup_status, List.app_nil_r.
    now apply P with popup.
Qed.

Lemma C5_marca_antes_de_notificar_witness :
  exists w' h2,
    verificar (mkScheduler 5 false None None (Some (fun _ _ _ => Some OSError)))
      "09:00" "2024-01-02"
      (mkMundo (doc_de [mkLembrete 1 "Beber" "09:00" true None;
                        mkLembrete 2 "Andar" "09:00" true None]) Ausente true [])
    = (w', Retorna tt) /\
    dados w' = doc_de [mkLembrete 1 "Beber" "09:00" true (Some "2024-01-02");
                       mkLembrete 2 "Andar" "09:00" true (Some "2024-01-02")] /\
    chamadas_popup h2 = [("Lembrete", "09:00 - Andar")].
Proof.
  destruct (C5_marca_antes_de_notificar
              (mkScheduler 5 false None None (Some (fun _ _ _ => Some OSError)))
              "09:00" "2024-01-02"
              [] (mkLembrete 1 "Beber" "09:00" true None)
              [mkLembrete 2 "Andar" "09:00" true None] Ausente [])
    as (w' & h1 & h2 & H1 & H2 & _ & H3 & H4 & _ & H5).
  - repeat constructor; simpl; intuition discriminate.
  - vm_compute. reflexivity.
  - reflexivity.
  - repeat split; try reflexivity. discriminate.
  - destruct (H5 _ eq_refl) as [_ H6].
    exists w', h2. split; [exact H1|]. split; [exact H3|exact H6].
Defined.

(** ** Scheduler: two reminders with the same id

    [atualizar] marks the first item whose id is the given one.  When two
    reminders got the same id (two calls of [adicionar] within one
    millisecond), the mark of the second goes to the first. *)


(** The first reminder is not active, the second is due: the cycle sets
    the fired-mark of the one that is not active. *)
Lemma C8_ids_repetidos :
  let self := mkScheduler 5 false None None (Some (fun _ _ _ => None)) in
  let a := mkLembrete 1000 "a" "09:00" false None in
  let b := mkLembrete 1000 "b" "09:00" true None in
  let w1 := fst (adicionar_todos [(1000%Z, "a", "09:00", JBool false);
                                  (1000%Z, "b", "09:00", JBool true)]
                   (fst (Store_init mundo_novo))) in
  let w2 := fst (verificar self "09:00" "2024-01-01" w1) in
  dados w1 = doc_de [a; b] /\
  lativo a = false /\
  dados w2 = doc_de [mkLembrete 1000 "a" "09:00" false (Some "2024-01-01"); b] /\
  chamadas_popup (saida w2) = [("Lembrete", "09:00 - b")].
Proof.
  cbv zeta. split; [reflexivity|]. split; [reflexivity|].
  split; vm_compute; reflexivity.
Qed.

(** ** The keys of the dicts of a store are pairwise distinct

    [chaves_unicas] holds of every document that a store holds: of what
    [json.loads] builds, of the empty document, of a document of
    reminders, and the operations of the store keep it. *)

Lemma dict_set_chaves k v d :
  NoDup (map fst d) -> NoDup (map fst (dict_set k v d)).
Proof.
  intros H. destruct (in_dec string_dec k (map fst d)) as [Hin|Hn].
  - assert (E : map fst (dict_set k v d) = map fst d).
    { clear H. induction d as [|[k' v'] d IH]; simpl in *; [contradiction|].
      destruct (String.eqb_spec k k') as [->|Hk]; simpl; [reflexivity|].
      rewrite IH; [reflexivity|]. destruct Hin as [E|Hin]; [congruence|exact Hin]. }
    now rewrite E.
  - rewrite (dict_set_novo k v d Hn), map_app. simpl.
    apply NoDup_app; [exact H|repeat constructor; intros []| ].
    intros x Hx [<-|[]]. contradiction.
Qed.

Lemma dict_set_valores (P : json -> Prop) k v d :
  Forall (fun p => P (snd p)) d -> P v ->
  Forall (fun p => P (snd p)) (dict_set k v d).
Proof.
  intros H Hv. induction H as [|[k' v'] d Hx Hd IH]; simpl.
  - now repeat constructor.
  - destruct (String.eqb k k'); constructor; auto.
Qed.

Lemma dict_update_chaves campos : forall d,
  NoDup (map fst d) -> NoDup (map fst (dict_update d campos)).
Proof.
  unfold dict_update. induction campos as [|[k v] c IH]; intros d H; simpl; [exact H|].
  apply IH. now apply dict_set_chaves.
Qed.

Lemma dict_update_valores (P : json -> Prop) campos : forall d,
  Forall (fun p => P (snd p)) d ->
  Forall (fun p => P (snd p)) campos ->
  Forall (fun p => P (snd p)) (dict_update d campos).
Proof.
  unfold dict_update. induction campos as [|[k v] c IH]; intros d H Hc; simpl; [exact H|].
  inversion Hc; subst. apply IH; [|assumption]. now apply dict_set_valores.
Qed.

Lemma chaves_unicas_obj kv :
  NoDup (map fst kv) -> Forall (fun p => chaves_unicas (snd p)) kv ->
  chaves_unicas (JObj kv).
Proof. intros. now constructor. Qed.

Lemma chaves_unicas_py_dict ps :
  Forall (fun p => chaves_unicas (snd p)) ps -> chaves_unicas (JObj (py_dict ps)).
Proof.
  intros H. unfold py_dict. apply chaves_unicas_obj.
  - apply dict_update_chaves. constructor.
  - apply dict_update_valores; [constructor|exact H].
Qed.

(** Destructs what the hypothesis [H] matches on, as long as it can. *)
Ltac abre H :=
  repeat match type of H with
         | context [match ?x with _ => _ end] => destruct x eqn:?; try discriminate H
         | context [if ?b then _ else _] => destruct b eqn:?; try discriminate H
         end.

Lemma scan_chaves_unicas : forall fuel,
  (forall s j r, scan_once fuel s = Some (j, r) -> chaves_unicas j) /\
  (forall s ps r, JSONObject fuel s = Some (ps, r) ->
                  Forall (fun p => chaves_unicas (snd p)) ps) /\
  (forall s vs r, JSONArray fuel s = Some (vs, r) -> Forall chaves_unicas vs).
Proof.
  induction fuel as [|f (IH1 & IH2 & IH3)]; [repeat split; discriminate|].
  repeat split.
  - intros s j r H. destruct s as [|c s]; [discriminate|].
    cbn [scan_once] in H. abre H; injection H as <- <-;
      first [ solve [repeat constructor]
            | apply chaves_unicas_py_dict; eapply IH2; eassumption
            | constructor; eapply IH3; eassumption ].
  - intros s ps r H. destruct s as [|c s]; [discriminate|].
    cbn [JSONObject] in H. abre H; injection H as <- <-.
    + constructor; [|constructor]. simpl. eapply IH1. eassumption.
    + constructor; [simpl; eapply IH1; eassumption|]. eapply IH2. eassumption.
  - intros s vs r H. cbn [JSONArray] in H. abre H; injection H as <- <-.
    + constructor; [|constructor]. eapply IH1. eassumption.
    + constructor; [eapply IH1; eassumption|]. eapply IH3. eassumption.
Qed.

Lemma loads_chaves_unicas s d : loads s = Some d -> chaves_unicas d.
Proof.
  unfold loads. intros H. abre H. injection H as <-.
  eapply (proj1 (scan_chaves_unicas _)). eassumption.
Qed.

Lemma chaves_unicas_lembrete r : chaves_unicas (json_de_lembrete r).
Proof.
  apply chaves_unicas_obj.
  - repeat constructor; simpl; intuition discriminate.
  - repeat constructor. simpl. destruct (lultimo r); constructor.
Qed.

Lemma chaves_unicas_doc_de ls : chaves_unicas (doc_de ls).
Proof.
  apply chaves_unicas_obj; [repeat constructor; intros []|].
  repeat constructor. simpl. apply Forall_forall. intros x Hx.
  apply in_map_iff in Hx as (r & <- & _). apply chaves_unicas_lembrete.
Qed.

(** A store just built holds a document whose keys are distinct. *)
Lemma Store_init_chaves_unicas w w' r :
  Store_init w = (w', r) -> chaves_unicas (dados w').
Proof.
  destruct w as [d dk g s]. unfold Store_init, carregar, salvar. mexec.
  assert (Hv : chaves_unicas documento_vazio) by apply (chaves_unicas_doc_de []).
  destruct dk as [| |txt].
  - destruct g; intros [= <- _]; exact Hv.
  - intros [= <- _]. exact Hv.
  - destruct (loads txt) as [d'|] eqn:E; intros [= <- _]; [|exact Hv].
    now apply loads_chaves_unicas in E.
Qed.

Lemma dict_get_valor (P : json -> Prop) k d v :
  Forall (fun p => P (snd p)) d -> dict_get k d = Some v -> P v.
Proof.
  induction 1 as [|[k' v'] d Hx Hd IH]; simpl; [discriminate|].
  destruct (String.eqb k k'); [now intros [= <-]|exact IH].
Qed.

Lemma atualizar_em_chaves item_id campos : forall l l' it,
  NoDup (map fst campos) ->
  Forall (fun p => chaves_unicas (snd p)) campos ->
  Forall chaves_unicas l ->
  atualizar_em item_id campos l = Retorna (l', it) ->
  Forall chaves_unicas l'.
Proof.
  intros l l' it Hn Hc Hl. revert l' it.
  induction Hl as [|x l Hx Hl IH]; intros l' it H; simpl in H; [discriminate|].
  abre H; injection H as <- <-.
  - constructor; [|exact Hl]. inversion Hx; subst.
    apply chaves_unicas_obj; [now apply dict_update_chaves|now apply dict_update_valores].
  - constructor; [exact Hx|]. eapply IH. reflexivity.
Qed.

Lemma remover_de_chaves item_id : forall l l',
  Forall chaves_unicas l -> remover_de item_id l = Retorna l' -> Forall chaves_unicas l'.
Proof.
  intros l l' Hl. revert l'.
  induction Hl as [|x l Hx Hl IH]; intros l' H; simpl in H.
  - injection H as <-. constructor.
  - abre H; injection H as <-.
    + eapply IH. reflexivity.
    + constructor; [exact Hx|]. eapply IH. reflexivity.
Qed.

(** The operations of the store keep the keys distinct. *)
Lemma operacoes_chaves_unicas w :
  chaves_unicas (dados w) ->
  (forall ms t h a, chaves_unicas (dados (fst (adicionar ms t h a w)))) /\
  (forall item_id, chaves_unicas (dados (fst (remover item_id w)))) /\
  (forall item_id campos,
     NoDup (map fst campos) ->
     Forall (fun p => chaves_unicas (snd p)) campos ->
     chaves_unicas (dados (fst (atualizar item_id campos w)))).
Proof.
  destruct w as [d dk g s]. cbn [dados]. intros Hd.
  assert (Hset : forall kv l, d = JObj kv -> Forall chaves_unicas l ->
                              chaves_unicas (JObj (dict_set "lembretes" (JList l) kv))).
  { intros kv l -> Hl. inversion Hd; subst.
    apply chaves_unicas_obj; [now apply dict_set_chaves|].
    apply dict_set_valores; [assumption|now constructor]. }
  assert (Hget : forall kv l, d = JObj kv -> dict_get "lembretes" kv = Some (JList l) ->
                              Forall chaves_unicas l).
  { intros kv l -> Hk. inversion Hd; subst.
    assert (Hv : chaves_unicas (JList l))
      by (eapply (dict_get_valor chaves_unicas); eassumption).
    now inversion Hv. }
  repeat split.
  - intros ms t h a. unfold adicionar, salvar. mexec.
    destruct d as [| | | | |kv]; try exact Hd.
    destruct (dict_get "lembretes" kv) as [[| | | |l|]|] eqn:Hk; try exact Hd.
    + destruct g; cbn [fst dados]; apply (Hset kv _ eq_refl);
        (apply Forall_app; split; [apply (Hget kv l eq_refl Hk)|]);
        repeat constructor; simpl; intuition discriminate.
    + destruct g; cbn [fst dados]; apply (Hset kv _ eq_refl);
        repeat constructor; simpl; intuition discriminate.
  - intros item_id. unfold remover, salvar. mexec.
    destruct d as [| | | | |kv]; try exact Hd.
    destruct (dict_get "lembretes" kv) as [v|] eqn:Hk.
    + destruct (py_iter v) as [l|] eqn:Hv; [|exact Hd].
      destruct (remover_de item_id l) as [l'|e] eqn:Hr; [|exact Hd].
      assert (Hl' : Forall chaves_unicas l').
      { apply (remover_de_chaves item_id l l'); [|exact Hr].
        destruct v; try discriminate; injection Hv as <-.
        - apply Forall_forall. intros x Hx. apply in_map_iff in Hx as (c & <- & _).
          constructor.
        - apply (Hget kv _ eq_refl Hk).
        - apply Forall_forall. intros x Hx. apply in_map_iff in Hx as (c & <- & _).
          constructor. }
      destruct g; cbn [fst dados]; now apply (Hset kv _ eq_refl).
    + cbn [py_iter remover_de]. destruct g; cbn [fst dados];
        apply (Hset kv _ eq_refl); constructor.
  - intros item_id campos Hn Hc. unfold atualizar, por_lembretes, salvar. mexec.
    destruct d as [| | | | |kv]; try exact Hd.
    destruct (dict_get "lembretes" kv) as [v|] eqn:Hk; [|exact Hd].
    destruct (py_iter v) as [l|] eqn:Hv; [|exact Hd].
    destruct (atualizar_em item_id campos l) as [[l' it]|e] eqn:Hr; [|exact Hd].
    rewrite Hk.
    destruct v; try (destruct g; exact Hd).
    injection Hv as <-.
    assert (Hl' : Forall chaves_unicas l').
    { eapply (atualizar_em_chaves item_id campos); [exact Hn|exact Hc| |exact Hr].
      apply (Hget kv _ eq_refl Hk). }
    destruct g; cbn [fst dados]; now apply (Hset kv _ eq_refl).
Qed.

(** * Further properties *)

Lemma is_digit_ate c : is_digit c = digito_ate 9 c.
Proof. casos_ascii c; reflexivity. Qed.

Lemma digito_ate_N m c :
  digito_ate m c = true <-> (48 <= N_of_ascii c /\ N_of_ascii c <= 48 + m)%N.
Proof.
  unfold digito_ate. cbv zeta. rewrite andb_true_iff, !N.leb_le. tauto.
Qed.

Lemma digito_ate_false m c :
  digito_ate m c = false <-> (N_of_ascii c < 48 \/ 48 + m < N_of_ascii c)%N.
Proof.
  unfold digito_ate. cbv zeta. rewrite andb_false_iff, !N.leb_gt. tauto.
Qed.

Lemma ascii_eqb_N a b : Ascii.eqb a b = (N_of_ascii a =? N_of_ascii b)%N.
Proof.
  destruct (Ascii.eqb_spec a b) as [->|H].
  - now rewrite N.eqb_refl.
  - symmetry. apply N.eqb_neq. intros E. apply H.
    rewrite <- (ascii_N_embedding a), <- (ascii_N_embedding b). now rewrite E.
Qed.

Ltac fecha_N :=
  repeat match goal with
    | H : context [N_of_ascii (Ascii ?b0 ?b1 ?b2 ?b3 ?b4 ?b5 ?b6 ?b7)] |- _ =>
        let n := eval vm_compute in (N_of_ascii (Ascii b0 b1 b2 b3 b4 b5 b6 b7)) in
        change (N_of_ascii (Ascii b0 b1 b2 b3 b4 b5 b6 b7)) with n in H
    | |- context [N_of_ascii (Ascii ?b0 ?b1 ?b2 ?b3 ?b4 ?b5 ?b6 ?b7)] =>
        let n := eval vm_compute in (N_of_ascii (Ascii b0 b1 b2 b3 b4 b5 b6 b7)) in
        change (N_of_ascii (Ascii b0 b1 b2 b3 b4 b5 b6 b7)) with n
    end.

Ltac para_N :=
  repeat match goal with
    | H : is_digit _ = _ |- _ => rewrite is_digit_ate in H
    | H : digito_ate _ _ = true |- _ => apply digito_ate_N in H
    | H : digito_ate _ _ = false |- _ => apply digito_ate_false in H
    | H : Ascii.eqb _ _ = true |- _ => rewrite ascii_eqb_N in H; apply N.eqb_eq in H
    | H : Ascii.eqb _ _ = false |- _ => rewrite ascii_eqb_N in H; apply N.eqb_neq in H
    | H : (_ && _) = true |- _ => apply andb_prop in H; destruct H
    | H : (_ && _) = false |- _ => apply andb_false_iff in H; destruct H
    | |- is_digit _ = true => rewrite is_digit_ate
    | |- digito_ate _ _ = true => apply digito_ate_N
    | |- digito_ate _ _ = false => apply digito_ate_false
    end; fecha_N.

Lemma so_ascii_cons a r : so_ascii (String a r) -> (N_of_ascii a < 128)%N /\ so_ascii r.
Proof.
  intros H. split; [apply H; now left|]. intros c Hc. apply H. now right.
Qed.

Lemma is_digit_ascii a : is_digit a = true -> (N_of_ascii a < 128)%N.
Proof. intros H. para_N. lia. Qed.

(** On a character of the ASCII range [\d] is one of the ten digits. *)
Lemma casa_d_ascii a r :
  (N_of_ascii a < 128)%N ->
  casa_d (String a r) = if is_digit a then Some r else None.
Proof.
  intros H. unfold casa_d, ponto.
  replace (N_of_ascii a <? 128)%N with true by (symmetry; now apply N.ltb_lt).
  replace (decimal (N_of_ascii a)) with (is_digit a); [reflexivity|].
  clear r. casos_ascii a; try reflexivity; vm_compute in H; discriminate.
Qed.

Lemma casa_d_vazio : casa_d EmptyString = None.
Proof. reflexivity. Qed.

(** The expression of [%M] on a text of ASCII characters. *)
Lemma casa_M_ascii s :
  so_ascii s ->
  casa_M s =
  match s with
  | EmptyString => None
  | String a EmptyString => if is_digit a then Some EmptyString else None
  | String a (String b r) =>
      if digito_ate 5 a && is_digit b then Some r
      else if is_digit a then Some (String b r)
      else None
  end.
Proof.
  intros H. unfold casa_M. destruct s as [|a r]; [reflexivity|].
  apply so_ascii_cons in H as [Ha Hr]. rewrite (casa_d_ascii a r Ha).
  destruct r as [|b r].
  - rewrite casa_d_vazio. destruct (digito_ate 5 a), (is_digit a); reflexivity.
  - apply so_ascii_cons in Hr as [Hb _]. rewrite (casa_d_ascii b r Hb).
    destruct (digito_ate 5 a), (is_digit b), (is_digit a); reflexivity.
Qed.

(** The expression of ["%H:%M"] on a text of ASCII characters. *)
Lemma casa_HM_ascii s :
  so_ascii s ->
  casa_HM s =
  (let alt1 :=
     match s with
     | String a (String b r) =>
         if Ascii.eqb a "2" && digito_ate 3 b then casa_dois_pontos_M r else None
     | _ => None
     end in
   let alt2 :=
     match s with
     | String a (String b r) =>
         if digito_ate 1 a && is_digit b then casa_dois_pontos_M r else None
     | _ => None
     end in
   let alt3 :=
     match s with
     | String a r => if is_digit a then casa_dois_pontos_M r else None
     | EmptyString => None
     end in
   match alt1 with
   | Some r => Some r
   | None => match alt2 with
             | Some r => Some r
             | None => alt3
             end
   end).
Proof.
  intros H. unfold casa_HM. cbv zeta. destruct s as [|a r]; [reflexivity|].
  apply so_ascii_cons in H as [Ha Hr]. rewrite (casa_d_ascii a r Ha).
  destruct r as [|b r].
  - rewrite casa_d_vazio. destruct (digito_ate 1 a), (is_digit a); reflexivity.
  - apply so_ascii_cons in Hr as [Hb _]. rewrite (casa_d_ascii b r Hb).
    destruct (Ascii.eqb a "2" && digito_ate 3 b), (digito_ate 1 a), (is_digit b),
      (is_digit a); reflexivity.
Qed.

(** A text that [le_numero] reads is made of ASCII digits. *)
Lemma le_numero_ascii s m : le_numero s = Some m -> so_ascii s.
Proof.
  destruct s as [|a [|b [|c r]]]; cbn [le_numero]; unfold valor_digito; try discriminate.
  - destruct (is_digit a) eqn:Ha; [|discriminate].
    intros _ c [<-|[]]. now apply is_digit_ascii.
  - destruct (is_digit a) eqn:Ha; [|discriminate].
    destruct (is_digit b) eqn:Hb; [|discriminate].
    intros _ c [<-|[<-|[]]]; now apply is_digit_ascii.
Qed.

Lemma so_ascii_app a b : so_ascii a -> so_ascii b -> so_ascii (a ++ b).
Proof.
  intros Ha Hb. induction a as [|x a IH]; [exact Hb|].
  apply so_ascii_cons in Ha as [Hx Ha]. intros c [<-|Hc]; [exact Hx|].
  now apply (IH Ha).
Qed.

Lemma casa_M_vazio s :
  so_ascii s ->
  (casa_M s = Some EmptyString <-> exists m, le_numero s = Some m /\ (m < 60)%N).
Proof.
  intros Hs. rewrite (casa_M_ascii s Hs). clear Hs.
  destruct s as [|a [|b [|c r]]]; cbn [le_numero]; unfold valor_digito.
  - split; [discriminate|intros (m & H & _); discriminate].
  - destruct (is_digit a) eqn:Ha.
    + split; [intros _|reflexivity]. eexists. split; [reflexivity|]. para_N; lia.
    + split; [discriminate|intros (m & H & _); discriminate].
  - destruct (digito_ate 5 a) eqn:H5, (is_digit b) eqn:Hb, (is_digit a) eqn:Ha;
      cbn [andb]; split; try discriminate; try reflexivity;
      try (intros (m & H & _); discriminate).
    + intros _. eexists. split; [reflexivity|]. para_N; lia.
    + para_N; lia.
    + intros (m & E & Hm). apply (f_equal (fun o => match o with Some x => x | None => 0%N end)) in E.
      subst m. para_N; lia.
  - destruct (digito_ate 5 a && is_digit b); [|destruct (is_digit a)];
      split; try discriminate; intros (m & H & _); discriminate.
Qed.

Lemma casa_dois_pontos_M_vazio s :
  so_ascii s ->
  (casa_dois_pontos_M s = Some EmptyString <->
   exists b m, s = String ":" b /\ le_numero b = Some m /\ (m < 60)%N).
Proof.
  intros Hs. destruct s as [|c r]; cbn [casa_dois_pontos_M].
  - split; [discriminate|intros (b & m & H & _); discriminate].
  - apply so_ascii_cons in Hs as [_ Hr].
    destruct (Ascii.eqb_spec c ":") as [->|Hc].
    + rewrite (casa_M_vazio r Hr). split.
      * intros (m & H1 & H2). now exists r, m.
      * intros (b & m & [= <-] & H1 & H2). now exists m.
    + split; [discriminate|]. intros (b & m & [= E _] & _). contradiction.
Qed.

Lemma casa_dois_pontos_M_inicio s r :
  casa_dois_pontos_M s = Some r -> exists t, s = String ":" t.
Proof.
  destruct s as [|c t]; cbn [casa_dois_pontos_M]; [discriminate|].
  destruct (Ascii.eqb_spec c ":") as [->|]; [|discriminate]. intros _. now exists t.
Qed.

Lemma casa_dois_pontos_M_digito y r :
  is_digit y = true -> casa_dois_pontos_M (String y r) = None.
Proof.
  intros H. cbn [casa_dois_pontos_M].
  destruct (Ascii.eqb y ":") eqn:E; [|reflexivity]. para_N; lia.
Qed.

Lemma le_numero_um x :
  is_digit x = true ->
  le_numero (String x EmptyString) = Some (N_of_ascii x - 48)%N.
Proof. intros H. cbn [le_numero]. unfold valor_digito. now rewrite H. Qed.

Lemma le_numero_dois x y :
  is_digit x = true -> is_digit y = true ->
  le_numero (String x (String y EmptyString)) =
  Some (10 * (N_of_ascii x - 48) + (N_of_ascii y - 48))%N.
Proof. intros Hx Hy. cbn [le_numero]. unfold valor_digito. now rewrite Hx, Hy. Qed.

Lemma le_numero_forma a h :
  le_numero a = Some h ->
  (exists x, a = String x EmptyString /\ is_digit x = true /\ h = (N_of_ascii x - 48)%N) \/
  (exists x y, a = String x (String y EmptyString) /\ is_digit x = true /\
               is_digit y = true /\ h = (10 * (N_of_ascii x - 48) + (N_of_ascii y - 48))%N).
Proof.
  destruct a as [|x [|y [|z r]]]; cbn [le_numero]; unfold valor_digito; try discriminate.
  - destruct (is_digit x) eqn:Hx; [|discriminate].
    intros E. left. exists x. repeat split; congruence.
  - destruct (is_digit x) eqn:Hx; [|discriminate].
    destruct (is_digit y) eqn:Hy; [|discriminate].
    intros E. right. exists x, y. repeat split; congruence.
Qed.

(** An hour, a colon and a minute make a text of ASCII characters. *)
Lemma forma_ascii a b h m :
  le_numero a = Some h -> le_numero b = Some m -> so_ascii (a ++ ":" ++ b).
Proof.
  intros Ha Hb. apply so_ascii_app; [now apply le_numero_ascii in Ha|].
  apply (so_ascii_app (String ":" EmptyString) b); [|now apply le_numero_ascii in Hb].
  intros c [<-|[]]. vm_compute. reflexivity.
Qed.

Lemma strptime_HM_forma s :
  so_ascii s ->
  (strptime_HM s = true <->
   exists a b h m,
     s = a ++ ":" ++ b /\ le_numero a = Some h /\ le_numero b = Some m /\
     (h < 24)%N /\ (m < 60)%N).
Proof.
  intros Hs. unfold strptime_HM. rewrite (casa_HM_ascii s Hs). cbv zeta. split.
  - intros H.
    match type of H with
    | match ?e with _ => _ end = true =>
        assert (E : e = Some EmptyString)
          by (destruct e as [[|]|]; [reflexivity|discriminate|discriminate])
    end.
    clear H. revert E.
    destruct s as [|x [|y r]].
    + discriminate.
    + destruct (is_digit x); discriminate.
    + assert (Hr : so_ascii r).
      { apply so_ascii_cons in Hs as [_ Hs]. now apply so_ascii_cons in Hs as [_ Hs]. }
      assert (Hyr : so_ascii (String y r)) by now apply so_ascii_cons in Hs as [_ Hs].
      destruct (Ascii.eqb x "2" && digito_ate 3 y) eqn:C1.
      { assert (Hx : is_digit x = true) by (para_N; lia).
        assert (Hy : is_digit y = true) by (para_N; lia).
        destruct (casa_dois_pontos_M r) as [r1|] eqn:E1.
        - intros [= ->]. apply (casa_dois_pontos_M_vazio r Hr) in E1 as (b & m & -> & Hb & Hm).
          exists (String x (String y EmptyString)), b. eexists. exists m.
          split; [reflexivity|]. split; [now apply le_numero_dois|].
          split; [exact Hb|]. split; [|exact Hm]. para_N; lia.
        - rewrite Hx, (casa_dois_pontos_M_digito y r Hy).
          destruct (digito_ate 1 x && is_digit y) eqn:C2; [|discriminate].
          discriminate. }
      destruct (digito_ate 1 x && is_digit y) eqn:C2.
      { assert (Hx : is_digit x = true) by (para_N; lia).
        assert (Hy : is_digit y = true) by (para_N; lia).
        destruct (casa_dois_pontos_M r) as [r1|] eqn:E1.
        - intros [= ->]. apply (casa_dois_pontos_M_vazio r Hr) in E1 as (b & m & -> & Hb & Hm).
          exists (String x (String y EmptyString)), b. eexists. exists m.
          split; [reflexivity|]. split; [now apply le_numero_dois|].
          split; [exact Hb|]. split; [|exact Hm]. para_N; lia.
        - rewrite Hx, (casa_dois_pontos_M_digito y r Hy). discriminate. }
      destruct (is_digit x) eqn:Hx; [|discriminate].
      intros E. apply (casa_dois_pontos_M_vazio _ Hyr) in E as (b & m & [= -> ->] & Hb & Hm).
      exists (String x EmptyString), b. eexists. exists m.
      split; [reflexivity|]. split; [now apply le_numero_um|].
      split; [exact Hb|]. split; [|exact Hm]. para_N; lia.
  - intros (a & b & h & m & -> & Ha & Hb & Hh & Hm).
    assert (Ec : casa_dois_pontos_M (String ":" b) = Some EmptyString).
    { apply casa_dois_pontos_M_vazio; [|now exists b, m].
      apply (so_ascii_app (String ":" EmptyString) b);
        [intros c [<-|[]]; vm_compute; reflexivity|].
      now apply le_numero_ascii in Hb. }
    destruct (le_numero_forma a h Ha) as [(x & -> & Hx & ->)|(x & y & -> & Hx & Hy & ->)].
    + cbn [append].
      replace (digito_ate 3 ":") with false by reflexivity.
      replace (is_digit ":") with false by reflexivity.
      rewrite !andb_false_r, Hx, Ec. reflexivity.
    + cbn [append]. rewrite Hy, Ec.
      destruct (Ascii.eqb x "2" && digito_ate 3 y) eqn:C1; [reflexivity|].
      destruct (digito_ate 1 x && true) eqn:C2; [reflexivity|].
      exfalso. rewrite andb_true_r in C2. para_N; lia.
Qed.

(** X1.  The times of day that [validar_horario] accepts: an hour from 0
    to 23 and a minute from 0 to 59, each written with one or two decimal
    digits, with a colon between them and nothing else.  Every such text
    of ASCII digits is accepted; what is accepted is a str, and when its
    characters are ASCII it is such a text (beyond ASCII the expression
    of [strptime] takes the other decimal digits of Unicode as well). *)
Theorem validar_horario_aceita (v : json) :
  ((exists a b h m,
      v = JStr (a ++ ":" ++ b) /\ le_numero a = Some h /\ le_numero b = Some m /\
      (h < 24)%N /\ (m < 60)%N) ->
   validar_horario v = true) /\
  (validar_horario v = true ->
   exists s, v = JStr s /\
     ((forall c, In c (list_ascii_of_string s) -> (N_of_ascii c < 128)%N) ->
      exists a b h m,
        s = a ++ ":" ++ b /\ le_numero a = Some h /\ le_numero b = Some m /\
        (h < 24)%N /\ (m < 60)%N)).
Proof.
  split.
  - intros (a & b & h & m & -> & Ha & Hb & H). cbn [validar_horario].
    apply strptime_HM_forma; [now apply (forma_ascii a b h m)|]. now exists a, b, h, m.
  - destruct v as [| | |s| |]; cbn [validar_horario]; try discriminate.
    intros H. exists s. split; [reflexivity|]. intros Hs.
    now apply (strptime_HM_forma s Hs).
Qed.

(** ** The clock *)

Lemma N_ascii_dig d : (d < 10)%N -> N_of_ascii (ascii_of_N (48 + d)) = (48 + d)%N.
Proof. intros H. apply N_ascii_embedding. lia. Qed.

Lemma is_digit_dig d : (d < 10)%N -> is_digit (ascii_of_N (48 + d)) = true.
Proof.
  intros H. rewrite is_digit_ate. apply digito_ate_N. rewrite N_ascii_dig by exact H. lia.
Qed.

Lemma valor_digito_dig d : (d < 10)%N -> valor_digito (ascii_of_N (48 + d)) = Some d.
Proof.
  intros H. unfold valor_digito. rewrite is_digit_dig, N_ascii_dig by exact H.
  f_equal. lia.
Qed.

(** Reading back the two digits of a number below 100. *)
Lemma le_numero_dois_digitos n : (n < 100)%N -> le_numero (dois_digitos n) = Some n.
Proof.
  intros H. unfold dois_digitos. cbn [le_numero].
  pose proof (N.div_mod n 10 ltac:(lia)) as E.
  pose proof (N.mod_lt n 10 ltac:(lia)) as Hm.
  assert (Hd : (n / 10 < 10)%N) by (apply N.Div0.div_lt_upper_bound; lia).
  rewrite !valor_digito_dig by assumption. f_equal. lia.
Qed.

Lemma length_agora_hhmm h m : String.length (agora_hhmm h m) = 5.
Proof. reflexivity. Qed.

Lemma strptime_agora_hhmm h m :
  (h < 24)%N -> (m < 60)%N -> strptime_HM (agora_hhmm h m) = true.
Proof.
  intros Hh Hm.
  assert (Eh : le_numero (dois_digitos h) = Some h) by (apply le_numero_dois_digitos; lia).
  assert (Em : le_numero (dois_digitos m) = Some m) by (apply le_numero_dois_digitos; lia).
  apply strptime_HM_forma; [exact (forma_ascii _ _ h m Eh Em)|].
  exists (dois_digitos h), (dois_digitos m), h, m.
  split; [reflexivity|].
  split; [apply le_numero_dois_digitos; lia|].
  split; [apply le_numero_dois_digitos; lia|]. now split.
Qed.

Lemma dois_digitos_inj a b :
  (a < 100)%N -> (b < 100)%N -> dois_digitos a = dois_digitos b -> a = b.
Proof.
  intros Ha Hb E.
  assert (H : le_numero (dois_digitos a) = le_numero (dois_digitos b)) by now rewrite E.
  rewrite !le_numero_dois_digitos in H by assumption. congruence.
Qed.

Lemma dois_digitos_append x r y r' :
  dois_digitos x ++ r = dois_digitos y ++ r' -> dois_digitos x = dois_digitos y /\ r = r'.
Proof.
  unfold dois_digitos. cbn [append]. intros E. split.
  - apply (f_equal (fun s => match s with
                             | String a (String b _) => String a (String b EmptyString)
                             | _ => s
                             end)) in E. exact E.
  - apply (f_equal (fun s => match s with
                             | String _ (String _ t) => t
                             | _ => s
                             end)) in E. exact E.
Qed.

Lemma agora_hhmm_inj h m h' m' :
  (h < 24)%N -> (m < 60)%N -> (h' < 24)%N -> (m' < 60)%N ->
  agora_hhmm h m = agora_hhmm h' m' -> h = h' /\ m = m'.
Proof.
  intros Hh Hm Hh' Hm'. unfold agora_hhmm. intros E.
  apply dois_digitos_append in E as [E1 E2].
  apply (f_equal (fun s => match s with String _ t => t | _ => s end)) in E2.
  cbn [append] in E2.
  split; apply dois_digitos_inj; try lia; assumption.
Qed.

(** X2.  [agora_hhmm] writes every reading of the clock as five
    characters that [validar_horario] accepts, and two readings with
    different hours or minutes as different texts. *)
Theorem agora_hhmm_valido (h m : N) :
  (h < 24)%N -> (m < 60)%N ->
  validar_horario (JStr (agora_hhmm h m)) = true /\
  String.length (agora_hhmm h m) = 5 /\
  (forall h' m', (h' < 24)%N -> (m' < 60)%N ->
     agora_hhmm h m = agora_hhmm h' m' -> h = h' /\ m = m').
Proof.
  intros Hh Hm. split; [now apply strptime_agora_hhmm|].
  split; [reflexivity|]. intros h' m' Hh' Hm'. now apply agora_hhmm_inj.
Qed.

Lemma agora_hhmm_valido_witness :
  validar_horario (JStr (agora_hhmm 9 5)) = true /\ agora_hhmm 9 5 = "09:05".
Proof.
  split; [|reflexivity].
  apply (agora_hhmm_valido 9 5); reflexivity.
Defined.

Lemma quatro_digitos_append x r y r' :
  quatro_digitos x ++ r = quatro_digitos y ++ r' ->
  quatro_digitos x = quatro_digitos y /\ r = r'.
Proof.
  unfold quatro_digitos, dois_digitos. cbn [append]. intros E. split.
  - apply (f_equal (fun s => match s with
                             | String a (String b (String c (String d _))) =>
                                 String a (String b (String c (String d EmptyString)))
                             | _ => s
                             end)) in E. exact E.
  - apply (f_equal (fun s => match s with
                             | String _ (String _ (String _ (String _ t))) => t
                             | _ => s
                             end)) in E. exact E.
Qed.

Lemma dig_inj x y :
  (x < 10)%N -> (y < 10)%N -> ascii_of_N (48 + x) = ascii_of_N (48 + y) -> x = y.
Proof.
  intros Hx Hy E.
  assert (E' : N_of_ascii (ascii_of_N (48 + x)) = N_of_ascii (ascii_of_N (48 + y)))
    by now rewrite E.
  rewrite !N_ascii_dig in E' by assumption. lia.
Qed.

Lemma quatro_digitos_inj a b :
  (a < 10000)%N -> (b < 10000)%N -> quatro_digitos a = quatro_digitos b -> a = b.
Proof.
  intros Ha Hb. unfold quatro_digitos. intros E.
  assert (E1 : ascii_of_N (48 + a / 1000) = ascii_of_N (48 + b / 1000))
    by (apply (f_equal (fun s => match s with String c _ => c | _ => Ascii.zero end)) in E;
        exact E).
  assert (E2 : ascii_of_N (48 + (a / 100) mod 10) = ascii_of_N (48 + (b / 100) mod 10))
    by (apply (f_equal (fun s => match s with String _ (String c _) => c | _ => Ascii.zero end))
          in E; exact E).
  assert (E3 : dois_digitos (a mod 100) = dois_digitos (b mod 100))
    by (apply (f_equal (fun s => match s with String _ (String _ t) => t | _ => s end))
          in E; exact E).
  assert (Hm : (a mod 100 = b mod 100)%N).
  { apply dois_digitos_inj; try (apply N.mod_lt; lia). exact E3. }
  assert (H1 : (a / 1000 = b / 1000)%N).
  { apply dig_inj; try (apply N.Div0.div_lt_upper_bound; lia). exact E1. }
  assert (H2 : ((a / 100) mod 10 = (b / 100) mod 10)%N).
  { apply dig_inj; try (apply N.mod_lt; lia). exact E2. }
  pose proof (N.div_mod a 100 ltac:(lia)).
  pose proof (N.div_mod b 100 ltac:(lia)).
  pose proof (N.div_mod (a / 100) 10 ltac:(lia)).
  pose proof (N.div_mod (b / 100) 10 ltac:(lia)).
  assert (Ka : (a / 100 / 10 = a / 1000)%N) by (rewrite N.Div0.div_div; reflexivity).
  assert (Kb : (b / 100 / 10 = b / 1000)%N) by (rewrite N.Div0.div_div; reflexivity).
  lia.
Qed.

Lemma hoje_iso_inj a m d a' m' d' :
  (a < 10000)%N -> (m < 100)%N -> (d < 100)%N ->
  (a' < 10000)%N -> (m' < 100)%N -> (d' < 100)%N ->
  hoje_iso a m d = hoje_iso a' m' d' -> a = a' /\ m = m' /\ d = d'.
Proof.
  intros Ha Hm Hd Ha' Hm' Hd'. unfold hoje_iso. intros E.
  apply quatro_digitos_append in E as [E1 E].
  apply (f_equal (fun s => match s with String _ t => t | _ => s end)) in E.
  cbn [append] in E.
  change (dois_digitos m ++ String "-" (dois_digitos d) =
          dois_digitos m' ++ String "-" (dois_digitos d')) in E.
  apply dois_digitos_append in E as [E2 E].
  apply (f_equal (fun s => match s with String _ t => t | _ => s end)) in E.
  split; [|split].
  - now apply quatro_digitos_inj.
  - now apply dois_digitos_inj.
  - now apply dois_digitos_inj.
Qed.

(** ** Scheduler: cycles in which no reminder is due *)

Lemma verificar_itens_parado self hh hoje : forall resto feitos dk g s,
  existsb (dispara_b hh hoje) resto = false ->
  para_cada (verificar_item self hh hoje)
    (combine (seq (List.length feitos) (List.length resto))
       (map json_de_lembrete resto))
    (mkMundo (doc_de (feitos ++ resto)) dk g s) =
  (mkMundo (doc_de (feitos ++ resto)) dk g s, Retorna tt).
Proof.
  induction resto as [|r resto IH]; intros feitos dk g s Hex; [reflexivity|].
  cbn [existsb] in Hex. apply orb_false_elim in Hex as [Hr Hex].
  cbn [List.length seq map combine]. rewrite para_cada_cons.
  erewrite bind_ret_eq; [|apply verificar_item_nao_dispara; exact Hr].
  rewrite (snoc_app feitos r resto).
  replace (S (List.length feitos)) with (List.length (feitos ++ [r]))
    by (rewrite length_app; simpl; lia).
  now apply IH.
Qed.

Lemma verificar_parado self hh hoje ls dk g s :
  existsb (dispara_b hh hoje) ls = false ->
  verificar self hh hoje (mkMundo (doc_de ls) dk g s) =
  (mkMundo (doc_de ls) dk g (s ++ eventos_status self hh), Retorna tt).
Proof.
  intros Hex. unfold verificar.
  erewrite bind_ret_eq; [|rewrite listar_eq; reflexivity].
  cbn [py_iter get_ou dict_get String.eqb Ascii.eqb Bool.eqb].
  rewrite length_map.
  erewrite bind_ret_eq; [|apply (verificar_itens_parado self hh hoje ls [] dk g s Hex)].
  cbn [List.app]. unfold eventos_status.
  destruct (ui_callback_status self) as [f|].
  - unfold tentar, chamar. cbn [dados disco gravavel saida].
    destruct (f _ _); reflexivity.
  - rewrite List.app_nil_r. reflexivity.
Qed.

Lemma run_parado self ls dk g : forall relogio s,
  Forall (fun c => existsb (dispara_b (fst c) (snd c)) ls = false) relogio ->
  run self relogio (mkMundo (doc_de ls) dk g s) =
  (mkMundo (doc_de ls) dk g (s ++ eventos_parado self relogio), Retorna tt).
Proof.
  induction relogio as [|[hh hoje] rel IH]; intros s H.
  - cbn [run eventos_parado flat_map]. now rewrite List.app_nil_r.
  - inversion H as [|? ? Hc Hrel]; subst. cbn [fst snd] in Hc.
    cbn [run]. unfold bind at 1. unfold tentar.
    rewrite (verificar_parado self hh hoje ls dk g s Hc).
    unfold bind at 1. unfold emitir at 1. cbn [dados disco gravavel saida].
    rewrite IH by exact Hrel.
    unfold eventos_parado. cbn [flat_map fst]. unfold eventos_ciclo_parado.
    rewrite <- !List.app_assoc. reflexivity.
Qed.

Lemma escritas_app l1 l2 : escritas (l1 ++ l2) = (escritas l1 ++ escritas l2)%list.
Proof.
  induction l1 as [|e l1 IH]; simpl; [reflexivity|].
  destruct e; simpl; now rewrite IH.
Qed.

Lemma sleeps_app l1 l2 : sleeps (l1 ++ l2) = (sleeps l1 ++ sleeps l2)%list.
Proof.
  induction l1 as [|e l1 IH]; simpl; [reflexivity|].
  destruct e; simpl; now rewrite IH.
Qed.

Lemma eventos_parado_nada self relogio :
  escritas (eventos_parado self relogio) = [] /\
  chamadas_popup (eventos_parado self relogio) = [] /\
  chamadas_notify (eventos_parado self relogio) = [] /\
  conta_sleep (eventos_parado self relogio) = List.length relogio.
Proof.
  unfold eventos_parado.
  induction relogio as [|[hh hoje] rel (I1 & I2 & I3 & I4)]; [now repeat split|].
  cbn [flat_map fst List.length].
  rewrite escritas_app, chamadas_popup_app, chamadas_notify_app, conta_sleep_app,
    I1, I2, I3, I4.
  unfold eventos_ciclo_parado, eventos_status.
  destruct (ui_callback_status self); now repeat split.
Qed.

(** X3.  When no reminder of the store is due at any of the readings of
    the clock, the loop leaves the document and the file as they are:
    nothing is written and nothing is notified; each cycle only calls
    the status callback (when there is one) and sleeps. *)
Theorem run_sem_devidos (self : Scheduler) (ls : list Lembrete)
    (relogio : list (string * string)) (dk : arquivo) (g : bool) (s : list evento) :
  Forall (fun c => existsb (dispara_b (fst c) (snd c)) ls = false) relogio ->
  run self relogio (mkMundo (doc_de ls) dk g s) =
    (mkMundo (doc_de ls) dk g (s ++ eventos_parado self relogio), Retorna tt) /\
  escritas (eventos_parado self relogio) = [] /\
  chamadas_popup (eventos_parado self relogio) = [] /\
  chamadas_notify (eventos_parado self relogio) = [] /\
  conta_sleep (eventos_parado self relogio) = List.length relogio.
Proof.
  intros H. split; [now apply run_parado|apply eventos_parado_nada].
Qed.

Lemma run_sem_devidos_witness :
  run (mkScheduler 5 false None (Some (fun _ _ => None)) None)
    [("09:00", "2024-01-01"); ("09:01", "2024-01-01")]
    (mkMundo (doc_de [mkLembrete 1 "Beber" "10:00" true None]) Ausente false []) =
  (mkMundo (doc_de [mkLembrete 1 "Beber" "10:00" true None]) Ausente false
     [EvStatus "Monitorando — 09:00"; EvSleep 5;
      EvStatus "Monitorando — 09:01"; EvSleep 5], Retorna tt).
Proof.
  apply (proj1 (run_sem_devidos
                  (mkScheduler 5 false None (Some (fun _ _ => None)) None)
                  [mkLembrete 1 "Beber" "10:00" true None]
                  [("09:00", "2024-01-01"); ("09:01", "2024-01-01")]
                  Ausente false [] ltac:(repeat constructor))).
Defined.

(** ** Scheduler: several cycles within the same minute *)








(** ** Scheduler: a reminder that is due at none of the readings *)

Lemma run_nunca_devido self : forall relogio antes r depois dk g s,
  NoDup (map lid (antes ++ r :: depois)) ->
  Forall (fun c => dispara_b (fst c) (snd c) r = false) relogio ->
  exists w' antes' depois' novos,
    run self relogio (mkMundo (doc_de (antes ++ r :: depois)) dk g s) = (w', Retorna tt) /\
    dados w' = doc_de (antes' ++ r :: depois') /\
    (map lid antes' = map lid antes /\ map mensagem antes' = map mensagem antes) /\
    (map lid depois' = map lid depois /\ map mensagem depois' = map mensagem depois) /\
    saida w' = (s ++ novos)%list /\
    Forall (chamada_de (antes ++ depois)) (chamadas_popup novos) /\
    Forall (chamada_de (antes ++ depois)) (chamadas_notify novos).
Proof.
  induction relogio as [|[hh hoje] rel IH]; intros antes r depois dk g s Hnd Hr.
  - eexists. exists antes, depois, []. cbn [run]. unfold ret.
    split; [reflexivity|]. cbn [dados saida]. rewrite List.app_nil_r.
    repeat split; constructor.
  - inversion Hr as [|? ? Hrb Hrel]; subst. cbn [fst snd] in Hrb.
    destruct (verificar_geral self hh hoje (antes ++ r :: depois) dk g s Hnd)
      as (ls' & dk' & novos & res & Ev & HF & Hp & Hn).
    apply Forall2_app_inv_l in HF as (antes' & l2 & Ha & H2 & ->).
    inversion H2 as [|? r' ? depois' Hr' Hd]; subst.
    assert (r' = r) as ->.
    { destruct Hr' as [E|[E _]]; [exact E|]. rewrite Hrb in E. discriminate. }
    destruct (passo_ciclo_mesmo _ _ _ _ Ha) as [Hal Ham].
    destruct (passo_ciclo_mesmo _ _ _ _ Hd) as [Hdl Hdm].
    assert (Hnd' : NoDup (map lid (antes' ++ r :: depois'))).
    { rewrite map_app in *. simpl in *. now rewrite Hal, Hdl. }
    pose (extra := match res with
                   | Retorna _ => []
                   | Levanta e => [EvPrint "Erro Scheduler:" e]
                   end).
    destruct (IH antes' r depois' dk' g
                (s ++ novos ++ extra ++
                 [EvSleep (if demo_speed self then 1%Z else intervalo self)])%list
                Hnd' Hrel)
      as (w' & antes2 & depois2 & novos2 & Erun & Hdd & [Hl1 Hm1] & [Hl2 Hm2] & Hs & Hp2 & Hn2).
    exists w', antes2, depois2,
      (novos ++ extra ++
       [EvSleep (if demo_speed self then 1%Z else intervalo self)] ++ novos2)%list.
    split.
    { cbn [run]. unfold bind at 1. unfold tentar. rewrite Ev.
      rewrite <- Erun. unfold extra.
      destruct res as [[]|e]; unfold bind at 1; unfold emitir;
        cbn [dados disco gravavel saida List.app];
        rewrite <- ?List.app_assoc; cbn [List.app];
        rewrite ?List.app_nil_r; reflexivity. }
    split; [exact Hdd|].
    split; [split; congruence|]. split; [split; congruence|].
    split.
    { rewrite Hs. rewrite <- !List.app_assoc. reflexivity. }
    assert (Hmm : map mensagem (antes' ++ depois') = map mensagem (antes ++ depois)).
    { rewrite !map_app. now rewrite Ham, Hdm. }
    assert (Hx1 : chamadas_popup extra = [])
      by (unfold extra; destruct res as [[]|e]; reflexivity).
    assert (Hx2 : chamadas_notify extra = [])
      by (unfold extra; destruct res as [[]|e]; reflexivity).
    rewrite !chamadas_popup_app, !chamadas_notify_app, Hx1, Hx2.
    cbn [chamadas_popup chamadas_notify List.app].
    split; apply Forall_app; split.
    + revert Hp. apply Forall_impl. intros c. now apply chamada_de_devidos.
    + revert Hp2. apply Forall_impl. intros c. now apply chamada_de_mesmo.
    + revert Hn. apply Forall_impl. intros c. now apply chamada_de_devidos.
    + revert Hn2. apply Forall_impl. intros c. now apply chamada_de_mesmo.
Qed.

Lemma dispara_b_comprimento hh hoje r :
  String.length (lhorario r) <> String.length hh -> dispara_b hh hoje r = false.
Proof.
  intros H. unfold dispara_b.
  destruct (String.eqb_spec (lhorario r) hh) as [E|_].
  - now rewrite E in H.
  - now rewrite andb_false_r.
Qed.

(** X5.  A reminder whose time of day is not written with five
    characters never fires, accepted by [validar_horario] or not: the
    clock of the scheduler is written by [agora_hhmm] with two digits for
    the hour and two for the minute, and the time of the reminder is
    compared with it character by character.  So the reminder of 9:05
    stays as it is and is never notified, however many cycles run.  (Ids
    pairwise distinct.) *)
Theorem horario_sem_zero_nunca_dispara (self : Scheduler) (cs : list (N * N * string))
    (antes : list Lembrete) (r : Lembrete) (depois : list Lembrete)
    (dk : arquivo) (g : bool) (s : list evento) :
  NoDup (map lid (antes ++ r :: depois)) ->
  String.length (lhorario r) <> 5 ->
  exists w' antes' depois' novos,
    run self (map (fun c => (agora_hhmm (fst (fst c)) (snd (fst c)), snd c)) cs)
      (mkMundo (doc_de (antes ++ r :: depois)) dk g s) = (w', Retorna tt) /\
    dados w' = doc_de (antes' ++ r :: depois') /\
    List.length antes' = List.length antes /\
    List.length depois' = List.length depois /\
    saida w' = (s ++ novos)%list /\
    Forall (chamada_de (antes ++ depois)) (chamadas_popup novos) /\
    Forall (chamada_de (antes ++ depois)) (chamadas_notify novos).
Proof.
  intros Hnd Hr.
  destruct (run_nunca_devido self
              (map (fun c => (agora_hhmm (fst (fst c)) (snd (fst c)), snd c)) cs)
              antes r depois dk g s Hnd)
    as (w' & antes' & depois' & novos & H1 & H2 & [Hl1 _] & [Hl2 _] & H5 & H6 & H7).
  { apply Forall_forall. intros c Hc. apply in_map_iff in Hc as ([[h m] d] & <- & _).
    cbn [fst snd]. apply dispara_b_comprimento. now rewrite length_agora_hhmm. }
  exists w', antes', depois', novos.
  repeat split; try assumption.
  - rewrite <- (length_map lid antes'), Hl1. apply length_map.
  - rewrite <- (length_map lid depois'), Hl2. apply length_map.
Qed.

Lemma horario_sem_zero_nunca_dispara_witness :
  validar_horario (JStr "9:05") = true /\
  exists w' novos,
    run (mkScheduler 5 false None None (Some (fun _ _ _ => None)))
      [(agora_hhmm 9 5, "2024-01-01"); (agora_hhmm 9 5, "2024-01-02")]
      (mkMundo (doc_de [mkLembrete 1 "Beber" "9:05" true None]) Ausente true [])
    = (w', Retorna tt) /\
    dados w' = doc_de [mkLembrete 1 "Beber" "9:05" true None] /\
    saida w' = novos /\
    chamadas_popup novos = [].
Proof.
  split; [reflexivity|].
  destruct (horario_sem_zero_nunca_dispara
              (mkScheduler 5 false None None (Some (fun _ _ _ => None)))
              [(9%N, 5%N, "2024-01-01"); (9%N, 5%N, "2024-01-02")]
              [] (mkLembrete 1 "Beber" "9:05" true None) [] Ausente true [])
    as (w' & antes' & depois' & novos & H1 & H2 & H3 & H4 & H5 & H6 & _).
  - repeat constructor; simpl; intuition.
  - discriminate.
  - exists w', novos.
    destruct antes'; [|discriminate]. destruct depois'; [|discriminate].
    split; [exact H1|]. split; [exact H2|]. split; [exact H5|].
    destruct (chamadas_popup novos) as [|c l]; [reflexivity|].
    inversion H6 as [|? ? (x & [] & _) _].
Defined.

(** ** Scheduler: the same minute on another day *)

Lemma lid_apos hh hoje ls : map lid (map (apos_ciclo hh hoje) ls) = map lid ls.
Proof.
  rewrite map_map. apply map_ext. intros r. unfold apos_ciclo.
  now destruct (dispara_b hh hoje r).
Qed.

Lemma ultimo_e_true hoje u : ultimo_e hoje u = true -> u = Some hoje.
Proof.
  destruct u as [d|]; simpl; [|discriminate].
  intros H. apply String.eqb_eq in H. now subst.
Qed.

(** After the cycle of its minute, an active reminder bears the mark of
    the day. *)
Lemma apos_ciclo_marcado hh hoje r :
  lativo r = true -> validar_horario (JStr (lhorario r)) = true -> lhorario r = hh ->
  apos_ciclo hh hoje r = marcar hoje r.
Proof.
  intros Ha Hv Hh. unfold apos_ciclo, dispara_b. rewrite Ha, Hv, Hh, String.eqb_refl.
  cbn [andb]. destruct (ultimo_e hoje (lultimo r)) eqn:E; [|reflexivity].
  apply ultimo_e_true in E. cbn [negb]. unfold marcar. destruct r; simpl in *.
  now subst.
Qed.

(** A text of ASCII characters holds no surrogate. *)
Lemma tem_substituto_ascii s : so_ascii s -> tem_substituto s = false.
Proof.
  induction s as [|a r IH]; [reflexivity|]. intros H.
  apply so_ascii_cons in H as [Ha Hr]. cbn [tem_substituto].
  destruct r as [|b r]; [reflexivity|]. rewrite (IH Hr), orb_false_r.
  destruct (N.eqb_spec (N_of_ascii a) 237) as [E|_]; [lia|reflexivity].
Qed.

Lemma hoje_iso_ascii a m d :
  (a < 10000)%N -> (m < 100)%N -> (d < 100)%N -> so_ascii (hoje_iso a m d).
Proof.
  intros Ha Hm Hd.
  assert (D : forall n, (n < 100)%N -> (n / 10 < 10)%N /\ (n mod 10 < 10)%N).
  { intros n Hn. split; [apply N.Div0.div_lt_upper_bound; lia|apply N.mod_lt; lia]. }
  destruct (D m Hm), (D d Hd), (D (a mod 100)%N ltac:(apply N.mod_lt; lia)).
  assert ((a / 1000 < 10)%N) by (apply N.Div0.div_lt_upper_bound; lia).
  assert (((a / 100) mod 10 < 10)%N) by (apply N.mod_lt; lia).
  unfold hoje_iso, quatro_digitos, dois_digitos. cbn [append list_ascii_of_string].
  intros c Hc. repeat (destruct Hc as [<-|Hc];
    [first [rewrite N_ascii_dig by assumption; lia|vm_compute; reflexivity]|]).
  destruct Hc.
Qed.

(** X6.  In a store whose ids are pairwise distinct and whose reminders
    can be written (file writable), a reminder that is active and whose
    time of day is the reading [agora_hhmm h m] fires on every day at
    that minute: after the cycle of that minute on one day, the cycle of
    the same minute on any other day calls the popup for it and sets its
    mark to that day.  [hoje_iso] writes two different dates as two
    different texts. *)
Theorem dispara_em_outro_dia (self : Scheduler) (popup : string -> string -> callback)
    (h m a1 m1 d1 a2 m2 d2 : N) (ls : list Lembrete) (i : nat) (r : Lembrete)
    (dk : arquivo) (s : list evento) :
  NoDup (map lid ls) ->
  forallb lembrete_codificavel ls = true ->
  ui_callback_popup self = Some popup ->
  (h < 24)%N -> (m < 60)%N ->
  (a1 < 10000)%N -> (m1 < 100)%N -> (d1 < 100)%N ->
  (a2 < 10000)%N -> (m2 < 100)%N -> (d2 < 100)%N ->
  (a1, m1, d1) <> (a2, m2, d2) ->
  nth_error ls i = Some r ->
  lativo r = true ->
  lhorario r = agora_hhmm h m ->
  exists w1 w2 ls2 novos2,
    verificar self (agora_hhmm h m) (hoje_iso a1 m1 d1) (mkMundo (doc_de ls) dk true s)
      = (w1, Retorna tt) /\
    verificar self (agora_hhmm h m) (hoje_iso a2 m2 d2) w1 = (w2, Retorna tt) /\
    saida w2 = (saida w1 ++ novos2)%list /\
    In ("Lembrete", mensagem r) (chamadas_popup novos2) /\
    dados w2 = doc_de ls2 /\
    List.length ls2 = List.length ls /\
    nth_error ls2 i = Some (marcar (hoje_iso a2 m2 d2) r) /\
    json_dump (dados w1) = (dumps (dados w1), None) /\
    json_dump (dados w2) = (dumps (dados w2), None).
Proof.
  intros Hnd Hc Hp Hh Hm Ha1 Hm1 Hd1 Ha2 Hm2 Hd2 Hdif Hi Hat Hhor.
  set (hh := agora_hhmm h m). set (dia1 := hoje_iso a1 m1 d1).
  set (dia2 := hoje_iso a2 m2 d2).
  assert (Hneq : dia1 <> dia2).
  { intros E. apply Hdif.
    destruct (hoje_iso_inj a1 m1 d1 a2 m2 d2) as (-> & -> & ->); auto. }
  assert (Hv : validar_horario (JStr (lhorario r)) = true)
    by (rewrite Hhor; now apply strptime_agora_hhmm).
  pose (r1 := marcar dia1 r).
  assert (E1 : apos_ciclo hh dia1 r = r1) by now apply apos_ciclo_marcado.
  assert (Hb2 : dispara_b hh dia2 r1 = true).
  { unfold dispara_b, r1, marcar. cbn [lativo lhorario lultimo ultimo_e].
    rewrite Hat, Hv. fold hh in Hhor. rewrite Hhor, String.eqb_refl.
    destruct (String.eqb_spec dia1 dia2); [contradiction|reflexivity]. }
  assert (E2 : apos_ciclo hh dia2 r1 = marcar dia2 r).
  { unfold apos_ciclo. now rewrite Hb2. }
  assert (Hnd1 : NoDup (map lid (map (apos_ciclo hh dia1) ls))) by now rewrite lid_apos.
  assert (Hi1 : nth_error (map (apos_ciclo hh dia1) ls) i = Some r1)
    by (rewrite <- E1; now apply nth_error_apos).
  do 2 eexists. exists (map (apos_ciclo hh dia2) (map (apos_ciclo hh dia1) ls)).
  eexists.
  split; [apply (verificar_doc self hh dia1 ls dk true s Hnd); now left|].
  split; [apply (verificar_doc self hh dia2 _ _ true _ Hnd1); now left|].
  cbn [dados saida].
  split; [reflexivity|].
  split.
  - rewrite chamadas_popup_app, chamadas_popup_status, List.app_nil_r.
    rewrite (chamadas_popup_itens self hh dia2 popup Hp).
    apply in_map_iff. exists r1. split; [reflexivity|].
    apply filter_In. split; [|exact Hb2]. now apply nth_error_In in Hi1.
  - split; [reflexivity|]. split; [now rewrite !length_map|].
    split; [rewrite <- E2; now apply nth_error_apos|].
    assert (S1 : tem_substituto dia1 = false)
      by now apply tem_substituto_ascii, hoje_iso_ascii.
    assert (S2 : tem_substituto dia2 = false)
      by now apply tem_substituto_ascii, hoje_iso_ascii.
    split; apply json_dump_codificavel, lembretes_codificaveis;
      repeat apply apos_ciclo_codificavel; assumption.
Qed.

Lemma dispara_em_outro_dia_witness :
  exists w1 w2 novos2,
    verificar (mkScheduler 5 false None None (Some (fun _ _ _ => None)))
      "09:05" "2024-01-31" (mkMundo (doc_de [mkLembrete 1 "Beber" "09:05" true None])
                              Ausente true [])
      = (w1, Retorna tt) /\
    verificar (mkScheduler 5 false None None (Some (fun _ _ _ => None)))
      "09:05" "2024-02-01" w1 = (w2, Retorna tt) /\
    saida w2 = (saida w1 ++ novos2)%list /\
    In ("Lembrete", "09:05 - Beber") (chamadas_popup novos2) /\
    dados w2 = doc_de [mkLembrete 1 "Beber" "09:05" true (Some "2024-02-01")].
Proof.
  destruct (dispara_em_outro_dia
              (mkScheduler 5 false None None (Some (fun _ _ _ => None)))
              (fun _ _ _ => None) 9 5 2024 1 31 2024 2 1
              [mkLembrete 1 "Beber" "09:05" true None] 0
              (mkLembrete 1 "Beber" "09:05" true None) Ausente [])
    as (w1 & w2 & ls2 & novos2 & H1 & H2 & H3 & H4 & H5 & H6 & H7 & _);
    try reflexivity.
  - repeat constructor; simpl; intuition.
  - discriminate.
  - exists w1, w2, novos2.
    split; [exact H1|]. split; [exact H2|]. split; [exact H3|]. split; [exact H4|].
    rewrite H5. destruct ls2 as [|x [|y l]]; try discriminate.
    injection H7 as ->. reflexivity.
Defined.

(** ** Store: the operations on a document of reminders *)

Lemma obter_lembretes_doc ls dk g s :
  obter_lembretes (mkMundo (doc_de ls) dk g s) =
  (mkMundo (doc_de ls) dk g s, Retorna (JList (map json_de_lembrete ls))).
Proof. reflexivity. Qed.

Lemma adicionar_doc ms t h a ls dk g s :
  adicionar ms t h a (mkMundo (doc_de ls) dk g s) =
  (let d' := doc_de (ls ++ [novo_lembrete ms t h a]) in
   if g then (mkMundo d' (Texto (dumps d')) true (s ++ [EvEscrita (dumps d')]),
              Retorna (json_de_lembrete (novo_lembrete ms t h a)))
   else (mkMundo d' dk false s, Levanta OSError)).
Proof.
  unfold adicionar, salvar, doc_de. mexec. cbn [dict_get String.eqb Ascii.eqb Bool.eqb].
  cbn [dict_set String.eqb Ascii.eqb Bool.eqb]. rewrite map_app.
  destruct g; reflexivity.
Qed.

Lemma remover_de_lembretes n ls :
  remover_de (JInt n) (map json_de_lembrete ls) =
  Retorna (map json_de_lembrete (sem_id n ls)).
Proof.
  induction ls as [|r ls IH]; [reflexivity|].
  cbn [map]. unfold json_de_lembrete at 1.
  cbn [remover_de dict_get String.eqb Ascii.eqb Bool.eqb py_eq].
  rewrite IH. unfold sem_id. cbn [filter].
  destruct (Z.eqb (lid r) n); reflexivity.
Qed.

Lemma remover_doc n ls dk g s :
  remover (JInt n) (mkMundo (doc_de ls) dk g s) =
  (let d' := doc_de (sem_id n ls) in
   if g then (mkMundo d' (Texto (dumps d')) true (s ++ [EvEscrita (dumps d')]),
              Retorna tt)
   else (mkMundo d' dk false s, Levanta OSError)).
Proof.
  unfold remover. unfold bind at 1. rewrite obter_lembretes_doc.
  cbn [py_iter]. rewrite remover_de_lembretes.
  unfold salvar, doc_de. mexec. cbn [dict_set String.eqb Ascii.eqb Bool.eqb].
  destruct g; reflexivity.
Qed.


Lemma sem_id_nenhum n ls : Forall (fun r => lid r <> n) ls -> sem_id n ls = ls.
Proof.
  induction 1 as [|r ls Hr Hl IH]; [reflexivity|].
  unfold sem_id in *. cbn [filter].
  apply Z.eqb_neq in Hr. rewrite Hr. cbn [negb]. now rewrite IH.
Qed.

Lemma primeiro_com_id_nenhum n ls :
  Forall (fun r => lid r <> n) ls -> primeiro_com_id n ls = None.
Proof.
  induction 1 as [|r ls Hr Hl IH]; [reflexivity|].
  cbn [primeiro_com_id]. apply Z.eqb_neq in Hr. now rewrite Hr.
Qed.

(** [atualizar_em] on reminders, for fields that make of a reminder the
    reminder [f r]. *)
Lemma atualizar_em_no_primeiro campos f n :
  (forall r, JObj (dict_update [("id", JInt (lid r)); ("texto", JStr (ltexto r));
                                ("horario", JStr (lhorario r));
                                ("ativo", JBool (lativo r));
                                ("ultimo_disparo_em", json_de_ultimo (lultimo r))]
                     campos) = json_de_lembrete (f r)) ->
  forall ls,
    atualizar_em (JInt n) campos (map json_de_lembrete ls) =
    match primeiro_com_id n ls with
    | Some r => Retorna (map json_de_lembrete (no_primeiro f n ls), json_de_lembrete (f r))
    | None => Levanta (KeyError "Item não encontrado")
    end.
Proof.
  intros Hf. induction ls as [|r ls IH]; [reflexivity|].
  cbn [map primeiro_com_id no_primeiro]. unfold json_de_lembrete at 1.
  cbn [atualizar_em dict_get String.eqb Ascii.eqb Bool.eqb py_eq].
  destruct (Z.eqb (lid r) n).
  - rewrite Hf. reflexivity.
  - rewrite IH. destruct (primeiro_com_id n ls); reflexivity.
Qed.

Lemma atualizar_doc campos f n ls dk g s :
  (forall r, JObj (dict_update [("id", JInt (lid r)); ("texto", JStr (ltexto r));
                                ("horario", JStr (lhorario r));
                                ("ativo", JBool (lativo r));
                                ("ultimo_disparo_em", json_de_ultimo (lultimo r))]
                     campos) = json_de_lembrete (f r)) ->
  atualizar (JInt n) campos (mkMundo (doc_de ls) dk g s) =
  match primeiro_com_id n ls with
  | Some r =>
      let d' := doc_de (no_primeiro f n ls) in
      if g then (mkMundo d' (Texto (dumps d')) true (s ++ [EvEscrita (dumps d')]),
                 Retorna (json_de_lembrete (f r)))
      else (mkMundo d' dk false s, Levanta OSError)
  | None => (mkMundo (doc_de ls) dk g s, Levanta (KeyError "Item não encontrado"))
  end.
Proof.
  intros Hf. unfold atualizar. unfold bind at 1. rewrite obter_lembretes_doc.
  cbn [py_iter]. rewrite (atualizar_em_no_primeiro campos f n Hf).
  destruct (primeiro_com_id n ls) as [r|]; [|reflexivity].
  unfold por_lembretes, salvar, doc_de. mexec.
  cbn [dict_get dict_set String.eqb Ascii.eqb Bool.eqb].
  destruct g; reflexivity.
Qed.

(** ** Validation is made by the window, not by the store *)

(** [Store.adicionar] and [Store.atualizar] take a time of day that
    [validar_horario] rejects: they return and the document holds it. *)
Lemma C2_store_aceita_invalido :
  validar_horario (JStr "25:99") = false /\
  (let w := fst (Store_init mundo_novo) in
   let d1 := doc_de [mkLembrete 1 "x" "25:99" true None] in
   dados w = documento_vazio /\
   adicionar 1 "x" "25:99" (JBool true) w =
   (mkMundo d1 (Texto (dumps d1)) true (saida w ++ [EvEscrita (dumps d1)]),
    Retorna (json_de_lembrete (mkLembrete 1 "x" "25:99" true None))) /\
   d1 <> documento_vazio) /\
  (let d0 := doc_de [mkLembrete 1 "x" "09:00" true None] in
   let d1 := doc_de [mkLembrete 1 "x" "25:99" true None] in
   atualizar (JInt 1) [("horario", JStr "25:99")] (mkMundo d0 (Texto (dumps d0)) true []) =
   (mkMundo d1 (Texto (dumps d1)) true [EvEscrita (dumps d1)],
    Retorna (json_de_lembrete (mkLembrete 1 "x" "25:99" true None)))).
Proof.
  split; [reflexivity|]. split.
  - split; [reflexivity|]. split; [reflexivity|discriminate].
  - reflexivity.
Qed.

(** C2, amended.  The store validates nothing; the handlers of the
    window do.  When the text typed is empty once stripped, or the time
    typed, once stripped, is not accepted by [validar_horario], the add
    handler and the save handler of the edit dialog show a warning and
    return without calling the store: no exception is raised, and the
    document in memory and the file are unchanged.  [Store.adicionar]
    takes any text and any time into the document (stripped, and nothing
    else is looked at), and [Store.atualizar] any text and any time as
    they are. *)
Theorem C2_janela_valida (w : Mundo) (ms sel : Z) (ent_texto ent_horario : string) :
  (strip ent_texto = EmptyString \/
   validar_horario (JStr (strip ent_horario)) = false ->
   (exists aviso,
      App_adicionar ms ent_texto ent_horario w =
      (mkMundo (dados w) (disco w) (gravavel w)
         (saida w ++ [EvWarning "Atenção" aviso]), Retorna tt)) /\
   App_editar_salvar sel ent_texto ent_horario w =
   (mkMundo (dados w) (disco w) (gravavel w)
      (saida w ++ [EvWarning "Atenção" "Preencha corretamente."]), Retorna tt)) /\
  (forall t h a ls dk g s,
     dados (fst (adicionar ms t h a (mkMundo (doc_de ls) dk g s))) =
     doc_de (ls ++ [mkLembrete ms (strip t) (strip h) (py_truthy a) None])) /\
  (forall t h ls dk g s r,
     primeiro_com_id sel ls = Some r ->
     dados (fst (atualizar (JInt sel) [("texto", JStr t); ("horario", JStr h)]
                   (mkMundo (doc_de ls) dk g s))) =
     doc_de (no_primeiro (fun x => mkLembrete (lid x) t h (lativo x) (lultimo x)) sel ls)).
Proof.
  split; [|split].
  - intros H. unfold App_adicionar, App_editar_salvar.
    destruct (String.eqb_spec (strip ent_texto) EmptyString) as [E|E].
    + split; [eexists|]; reflexivity.
    + destruct H as [H|H]; [contradiction|]. rewrite H. simpl.
      split; [eexists|]; reflexivity.
  - intros t h a ls dk g s. rewrite adicionar_doc. cbv zeta.
    destruct g; reflexivity.
  - intros t h ls dk g s r Hr.
    rewrite (atualizar_doc _ (fun x => mkLembrete (lid x) t h (lativo x) (lultimo x)) sel)
      by (intros x; reflexivity).
    rewrite Hr. cbv zeta. destruct g; reflexivity.
Qed.

Lemma C2_janela_valida_witness :
  App_editar_salvar 1 "x" "25:99" mundo_novo =
  (mkMundo JNull Ausente true [EvWarning "Atenção" "Preencha corretamente."],
   Retorna tt).
Proof.
  apply (proj2 (proj1 (C2_janela_valida mundo_novo 1 1 "x" "25:99") (or_intror eq_refl))).
Defined.

(** ** Store: removing and adding back *)


(** X8.  On a document of reminders that can be written, the new one
    included (file writable): [adicionar] puts the new reminder last,
    with the text and the time stripped, not yet fired, and returns it;
    [listar] then gives the old reminders followed by it.  When no older
    reminder has its id, [remover] on that id gives back the document as
    it was, in memory and in the file. *)
Theorem adicionar_remover (ms : Z) (t h : string) (a : json) (ls : list Lembrete)
    (dk : arquivo) (s : list evento) :
  Forall (fun r => lid r <> ms) ls ->
  forallb lembrete_codificavel (ls ++ [novo_lembrete ms t h a]) = true ->
  exists w1 w2,
    adicionar ms t h a (mkMundo (doc_de ls) dk true s) =
      (w1, Retorna (json_de_lembrete (novo_lembrete ms t h a))) /\
    listar w1 =
      (w1, Retorna (JList (map json_de_lembrete ls ++
                           [json_de_lembrete (novo_lembrete ms t h a)]))) /\
    disco w1 = Texto (dumps (dados w1)) /\
    remover (JInt ms) w1 = (w2, Retorna tt) /\
    dados w2 = doc_de ls /\
    disco w2 = Texto (dumps (doc_de ls)) /\
    json_dump (dados w1) = (dumps (dados w1), None) /\
    json_dump (doc_de ls) = (dumps (doc_de ls), None).
Proof.
  intros H Hc. do 2 eexists.
  split; [apply (adicionar_doc ms t h a ls dk true s)|].
  cbv zeta. split.
  { rewrite listar_eq. cbn [dados doc_de get_ou dict_get String.eqb Ascii.eqb Bool.eqb].
    now rewrite map_app. }
  split; [reflexivity|].
  assert (E : sem_id ms (ls ++ [novo_lembrete ms t h a]) = ls).
  { unfold sem_id. rewrite filter_app. cbn [filter novo_lembrete lid].
    rewrite Z.eqb_refl. cbn [negb]. rewrite List.app_nil_r. now apply sem_id_nenhum. }
  split; [rewrite remover_doc; cbv zeta; rewrite E; reflexivity|].
  split; [reflexivity|]. split; [reflexivity|].
  split; [now apply json_dump_codificavel, lembretes_codificaveis|].
  rewrite forallb_app in Hc. apply andb_prop in Hc as [Hc _].
  now apply json_dump_codificavel, lembretes_codificaveis.
Qed.

Lemma adicionar_remover_witness :
  exists w1 w2,
    adicionar 7 " Beber " "09:00" (JBool true)
      (mkMundo (doc_de [mkLembrete 1 "a" "10:00" true None]) Ausente true []) =
      (w1, Retorna (json_de_lembrete (mkLembrete 7 "Beber" "09:00" true None))) /\
    remover (JInt 7) w1 = (w2, Retorna tt) /\
    dados w2 = doc_de [mkLembrete 1 "a" "10:00" true None].
Proof.
  destruct (adicionar_remover 7 " Beber " "09:00" (JBool true)
              [mkLembrete 1 "a" "10:00" true None] Ausente [])
    as (w1 & w2 & H1 & _ & _ & H4 & H5 & _).
  - repeat constructor. discriminate.
  - vm_compute. reflexivity.
  - exists w1, w2. split; [exact H1|]. split; [exact H4|exact H5].
Defined.

(** ** Store: what is written survives a restart *)

Lemma reabre w :
  disco w = Texto (dumps (dados w)) -> chaves_unicas (dados w) -> reabre_igual w.
Proof.
  intros Hd Hu [d0 dk0 g0 s0] E. cbn [disco] in E. rewrite Hd in E. subst dk0.
  unfold Store_init, bind, por_dados, carregar. cbn [dados disco gravavel saida].
  rewrite (loads_dumps _ Hu). eexists. split; reflexivity.
Qed.

Lemma adicionar_grava ms t h a w w1 it :
  adicionar ms t h a w = (w1, Retorna it) -> disco w1 = Texto (dumps (dados w1)).
Proof.
  destruct w as [d dk g s]. unfold adicionar, salvar. mexec.
  destruct d as [| | | | |kv]; try discriminate.
  destruct (dict_get "lembretes" kv) as [[| | | |l|]|]; try discriminate;
    destruct g; try discriminate; intros [= <- _]; reflexivity.
Qed.

Lemma remover_grava item_id w w1 :
  remover item_id w = (w1, Retorna tt) -> disco w1 = Texto (dumps (dados w1)).
Proof.
  destruct w as [d dk g s]. unfold remover, salvar. mexec.
  destruct d as [| | | | |kv]; try discriminate.
  destruct (py_iter _) as [l|]; try discriminate.
  destruct (remover_de item_id l) as [l'|e]; try discriminate.
  destruct g; try discriminate. intros [= <-]. reflexivity.
Qed.

Lemma atualizar_grava item_id campos w w1 it :
  atualizar item_id campos w = (w1, Retorna it) -> disco w1 = Texto (dumps (dados w1)).
Proof.
  destruct w as [d dk g s]. unfold atualizar, por_lembretes, salvar. mexec.
  destruct d as [| | | | |kv]; try discriminate.
  destruct (py_iter _) as [l|]; try discriminate.
  destruct (atualizar_em item_id campos l) as [[l' x]|e]; try discriminate.
  destruct (dict_get "lembretes" kv) as [[| | | |l0|]|];
    destruct g; try discriminate; intros [= <- _]; reflexivity.
Qed.

(** X9.  What the store returns from is in the file: after a call of
    [adicionar], [remover] or [atualizar] that returns, a new [Store]
    built on the file holds the document that the store holds. *)
Theorem operacoes_duraveis (w : Mundo) :
  chaves_unicas (dados w) ->
  (forall ms t h a w1 it,
     adicionar ms t h a w = (w1, Retorna it) -> reabre_igual w1) /\
  (forall item_id w1,
     remover item_id w = (w1, Retorna tt) -> reabre_igual w1) /\
  (forall item_id campos w1 it,
     NoDup (map fst campos) ->
     Forall (fun p => chaves_unicas (snd p)) campos ->
     atualizar item_id campos w = (w1, Retorna it) -> reabre_igual w1).
Proof.
  intros Hu. destruct (operacoes_chaves_unicas w Hu) as (Ha & Hr & Hat).
  split; [|split].
  - intros ms t h a w1 it E. apply reabre; [now apply adicionar_grava in E|].
    specialize (Ha ms t h a). now rewrite E in Ha.
  - intros item_id w1 E. apply reabre; [now apply remover_grava in E|].
    specialize (Hr item_id). now rewrite E in Hr.
  - intros item_id campos w1 it Hn Hc E. apply reabre; [now apply atualizar_grava in E|].
    specialize (Hat item_id campos Hn Hc). now rewrite E in Hat.
Qed.

Lemma operacoes_duraveis_witness :
  exists w1,
    Store_init (mkMundo JNull
                  (Texto (dumps (doc_de [mkLembrete 7 "Beber" "09:00" true None])))
                  false []) = (w1, Retorna tt) /\
    dados w1 = doc_de [mkLembrete 7 "Beber" "09:00" true None].
Proof.
  apply (proj1 (operacoes_duraveis (mkMundo documento_vazio Ausente true [])
                  (chaves_unicas_doc_de []))
           7%Z "Beber" "09:00" (JBool true) _ _ eq_refl
           (mkMundo JNull
              (Texto (dumps (doc_de [mkLembrete 7 "Beber" "09:00" true None])))
              false [])).
  reflexivity.
Defined.




(** ** Store: a file that holds another JSON value *)





(** ** Scheduler: the pause between two cycles *)

Lemma conta_sleep_zero l : conta_sleep l = 0 -> sleeps l = [].
Proof.
  induction l as [|e l IH]; [reflexivity|].
  destruct e; simpl; try exact IH. discriminate.
Qed.

Lemma run_sleeps self : forall relogio w,
  exists w' novos,
    run self relogio w = (w', Retorna tt) /\
    saida w' = (saida w ++ novos)%list /\
    sleeps novos =
      repeat (if demo_speed self then 1%Z else intervalo self) (List.length relogio).
Proof.
  induction relogio as [|[hh hoje] rel IH]; intros w.
  - exists w, []. simpl. now rewrite List.app_nil_r.
  - cbn [run]. unfold bind at 1.
    destruct (tentar (verificar self hh hoje)
                (fun e => emitir (EvPrint "Erro Scheduler:" e)) w)
      as [w1 r1] eqn:E1.
    assert (H1 : sem_sleep (tentar (verificar self hh hoje)
                   (fun e => emitir (EvPrint "Erro Scheduler:" e)))).
    { apply sem_sleep_tentar; [apply sem_sleep_verificar|].
      intros e. now apply sem_sleep_emitir. }
    destruct (H1 _ _ _ E1) as (n1 & En1 & Z1).
    assert (r1 = Retorna tt) as ->.
    { revert E1. unfold tentar, emitir.
      destruct (verificar self hh hoje w) as [w2 [[]|e]]; now intros [= <- <-]. }
    unfold bind at 1. unfold emitir at 1. cbn [dados disco gravavel saida].
    destruct (IH (mkMundo (dados w1) (disco w1) (gravavel w1)
                    (saida w1 ++ [EvSleep (if demo_speed self then 1%Z
                                           else intervalo self)])))
      as (w' & n2 & E2 & En2 & Z2).
    exists w', (n1 ++ EvSleep (if demo_speed self then 1%Z else intervalo self) :: n2)%list.
    split; [exact E2|]. split.
    + rewrite En2. cbn [saida]. rewrite En1, <- !List.app_assoc. reflexivity.
    + rewrite sleeps_app, (conta_sleep_zero _ Z1). cbn [List.app sleeps List.length repeat].
      now rewrite Z2.
Qed.

(** X13.  The scheduler pauses at least one second after every cycle,
    whatever interval it was built with (zero and negative numbers
    included) and whatever the cycle did: [Scheduler.__init__] keeps
    [max(1, intervalo)], and the loop sleeps that many seconds after each
    cycle, or one second once [demo_speed] is set. *)
Theorem pausa_minima (notif : option (string -> string -> callback))
    (st : option (string -> callback)) (pp : option (string -> string -> callback))
    (i : Z) (relogio : list (string * string)) (w : Mundo) :
  (1 <= intervalo (Scheduler_init notif st pp i))%Z /\
  (exists w' novos,
     run (Scheduler_init notif st pp i) relogio w = (w', Retorna tt) /\
     saida w' = (saida w ++ novos)%list /\
     sleeps novos = repeat (Z.max 1 i) (List.length relogio)) /\
  (forall self, demo_speed self = true ->
     exists w' novos,
       run self relogio w = (w', Retorna tt) /\
       saida w' = (saida w ++ novos)%list /\
       sleeps novos = repeat 1%Z (List.length relogio)).
Proof.
  split; [cbn [Scheduler_init intervalo]; lia|]. split.
  - apply (run_sleeps (Scheduler_init notif st pp i) relogio w).
  - intros self Hd. destruct (run_sleeps self relogio w) as (w' & novos & H1 & H2 & H3).
    rewrite Hd in H3. now exists w', novos.
Qed.

(** ** Scheduler: a due item without the key of the text *)




(** ** The window: ativar/desativar *)

Lemma filtrar_id_lembretes n ls :
  filtrar_id (JInt n) (map json_de_lembrete ls) =
  Retorna (map json_de_lembrete (filter (fun r => Z.eqb (lid r) n) ls)).
Proof.
  induction ls as [|r ls IH]; [reflexivity|].
  cbn [map]. unfold json_de_lembrete at 1.
  cbn [filtrar_id dict_get String.eqb Ascii.eqb Bool.eqb py_eq].
  rewrite IH. cbn [filter]. destruct (Z.eqb (lid r) n); reflexivity.
Qed.

Lemma filter_primeiro n ls :
  match filter (fun r => Z.eqb (lid r) n) ls with
  | [] => primeiro_com_id n ls = None
  | x :: _ => primeiro_com_id n ls = Some x
  end.
Proof.
  induction ls as [|r ls IH]; [reflexivity|].
  cbn [filter primeiro_com_id]. destruct (Z.eqb (lid r) n); [reflexivity|exact IH].
Qed.

Lemma no_primeiro_ext f g n ls r :
  primeiro_com_id n ls = Some r -> f r = g r -> no_primeiro f n ls = no_primeiro g n ls.
Proof.
  induction ls as [|x l IH]; [discriminate|].
  cbn [primeiro_com_id no_primeiro]. destruct (Z.eqb (lid x) n).
  - intros [= ->] E. now rewrite E.
  - intros H E. now rewrite IH.
Qed.



(** [App.toggle] on a document of reminders. *)
Lemma App_toggle_doc n ls dk g s :
  n <> 0%Z ->
  App_toggle (Some n) (mkMundo (doc_de ls) dk g s) =
  match primeiro_com_id n ls with
  | None => (mkMundo (doc_de ls) dk g s, Retorna tt)
  | Some _ =>
      let d' := doc_de (no_primeiro alternar n ls) in
      if g then (mkMundo d' (Texto (dumps d')) true
                   (s ++ [EvEscrita (dumps d'); EvRefresh]), Retorna tt)
      else (mkMundo d' dk false s, Levanta OSError)
  end.
Proof.
  intros Hn. unfold App_toggle. apply Z.eqb_neq in Hn. rewrite Hn.
  unfold bind at 1. rewrite listar_eq.
  cbn [dados doc_de get_ou dict_get String.eqb Ascii.eqb Bool.eqb py_iter].
  rewrite filtrar_id_lembretes.
  pose proof (filter_primeiro n ls) as Hp.
  destruct (filter (fun r => Z.eqb (lid r) n) ls) as [|r rs].
  - rewrite Hp. reflexivity.
  - rewrite Hp. cbn [map]. unfold json_de_lembrete at 1.
    cbn [get_ou dict_get String.eqb Ascii.eqb Bool.eqb py_truthy].
    unfold bind at 1.
    rewrite (atualizar_doc _ (fun x => mkLembrete (lid x) (ltexto x) (lhorario x)
                                        (negb (lativo r)) (lultimo x)) n)
      by (intros x; reflexivity).
    rewrite Hp. cbv zeta.
    rewrite (no_primeiro_ext
               (fun x => mkLembrete (lid x) (ltexto x) (lhorario x)
                           (negb (lativo r)) (lultimo x))
               alternar n ls r Hp eq_refl).
    destruct g; [|reflexivity].
    unfold emitir. cbn [dados disco gravavel saida].
    rewrite <- List.app_assoc. reflexivity.
Qed.




(** ** The window: save of the edit dialog *)

Lemma primeiro_com_id_meio antes r depois :
  Forall (fun x => lid x <> lid r) antes ->
  primeiro_com_id (lid r) (antes ++ r :: depois) = Some r.
Proof.
  induction 1 as [|x l Hx Hl IH]; cbn [List.app primeiro_com_id].
  - now rewrite Z.eqb_refl.
  - apply Z.eqb_neq in Hx. now rewrite Hx.
Qed.

Lemma no_primeiro_meio f antes r depois :
  Forall (fun x => lid x <> lid r) antes ->
  no_primeiro f (lid r) (antes ++ r :: depois) = (antes ++ f r :: depois)%list.
Proof.
  induction 1 as [|x l Hx Hl IH]; cbn [List.app no_primeiro].
  - now rewrite Z.eqb_refl.
  - apply Z.eqb_neq in Hx. now rewrite Hx, IH.
Qed.

Lemma App_editar_salvar_doc sel ent_t ent_h ls dk g s :
  strip ent_t <> EmptyString ->
  validar_horario (JStr (strip ent_h)) = true ->
  App_editar_salvar sel ent_t ent_h (mkMundo (doc_de ls) dk g s) =
  match primeiro_com_id sel ls with
  | Some _ =>
      let d' := doc_de (no_primeiro (editar (strip ent_t) (strip ent_h)) sel ls) in
      if g then (mkMundo d' (Texto (dumps d')) true
                   (s ++ [EvEscrita (dumps d'); EvRefresh]), Retorna tt)
      else (mkMundo d' dk false s, Levanta OSError)
  | None => (mkMundo (doc_de ls) dk g s, Levanta (KeyError "Item não encontrado"))
  end.
Proof.
  intros Ht Hh. unfold App_editar_salvar.
  apply String.eqb_neq in Ht. rewrite Ht, Hh. cbn [negb orb].
  unfold bind at 1.
  rewrite (atualizar_doc _ (editar (strip ent_t) (strip ent_h)) sel)
    by (intros x; reflexivity).
  destruct (primeiro_com_id sel ls); [|reflexivity].
  cbv zeta. destruct g; [|reflexivity].
  unfold emitir. cbn [dados disco gravavel saida].
  rewrite <- List.app_assoc. reflexivity.
Qed.

(** X16.  The save of the edit dialog, on a text that is not empty once
    stripped and a time that, stripped, [validar_horario] accepts,
    replaces the text and the time of the reminder (both stripped) and
    nothing else: the active flag and the fired-mark stay.  So a
    reminder that already fired today and is moved to a later time of
    today does not fire at the new time today: in every cycle of that
    day it stays as it is and is not notified.  (Ids pairwise distinct,
    reminders that can be written, the edited one included, file
    writable.) *)
Theorem editar_mantem_marca (self : Scheduler) (ent_t ent_h hoje : string)
    (relogio : list (string * string))
    (antes : list Lembrete) (r : Lembrete) (depois : list Lembrete)
    (dk : arquivo) (s : list evento) :
  NoDup (map lid (antes ++ r :: depois)) ->
  forallb lembrete_codificavel
    (antes ++ mkLembrete (lid r) (strip ent_t) (strip ent_h) (lativo r) (lultimo r)
           :: depois) = true ->
  strip ent_t <> EmptyString ->
  validar_horario (JStr (strip ent_h)) = true ->
  lultimo r = Some hoje ->
  Forall (fun c => snd c = hoje) relogio ->
  let r' := mkLembrete (lid r) (strip ent_t) (strip ent_h) (lativo r) (lultimo r) in
  let d1 := doc_de (antes ++ r' :: depois) in
  let w1 := mkMundo d1 (Texto (dumps d1)) true (s ++ [EvEscrita (dumps d1); EvRefresh]) in
  App_editar_salvar (lid r) ent_t ent_h (mkMundo (doc_de (antes ++ r :: depois)) dk true s)
    = (w1, Retorna tt) /\
  exists w2 antes' depois' novos,
    run self relogio w1 = (w2, Retorna tt) /\
    dados w2 = doc_de (antes' ++ r' :: depois') /\
    List.length antes' = List.length antes /\
    List.length depois' = List.length depois /\
    saida w2 = (saida w1 ++ novos)%list /\
    Forall (chamada_de (antes ++ depois)) (chamadas_popup novos) /\
    Forall (chamada_de (antes ++ depois)) (chamadas_notify novos) /\
    json_dump d1 = (dumps d1, None).
Proof.
  intros Hnd Hc Ht Hh Hu Hrel. cbv zeta.
  pose proof (nodup_outros antes r depois Hnd) as Hout.
  split.
  { rewrite App_editar_salvar_doc by assumption.
    rewrite (primeiro_com_id_meio antes r depois Hout). cbv zeta.
    rewrite (no_primeiro_meio _ antes r depois Hout). reflexivity. }
  set (r' := mkLembrete (lid r) (strip ent_t) (strip ent_h) (lativo r) (lultimo r)).
  assert (Hnd' : NoDup (map lid (antes ++ r' :: depois)))
    by (rewrite map_app in *; exact Hnd).
  destruct (run_nunca_devido self relogio antes r' depois
              (Texto (dumps (doc_de (antes ++ r' :: depois)))) true
              (s ++ [EvEscrita (dumps (doc_de (antes ++ r' :: depois))); EvRefresh])
              Hnd')
    as (w2 & antes' & depois' & novos & H1 & H2 & [Hl1 _] & [Hl2 _] & H5 & H6 & H7).
  { revert Hrel. apply Forall_impl. intros [hh d] E. cbn [fst snd] in *. subst d.
    unfold dispara_b, r'. cbn [lativo lhorario lultimo]. rewrite Hu.
    cbn [ultimo_e]. rewrite String.eqb_refl. now rewrite andb_false_r. }
  exists w2, antes', depois', novos.
  repeat split; try assumption.
  - rewrite <- (length_map lid antes'), Hl1. apply length_map.
  - rewrite <- (length_map lid depois'), Hl2. apply length_map.
  - now apply json_dump_codificavel, lembretes_codificaveis.
Qed.

Lemma editar_mantem_marca_witness :
  App_editar_salvar 1 " Beber agua " " 18:30 "
    (mkMundo (doc_de [mkLembrete 1 "Beber" "09:00" true (Some "2024-01-01")])
       Ausente true []) =
  (let d1 := doc_de [mkLembrete 1 "Beber agua" "18:30" true (Some "2024-01-01")] in
   mkMundo d1 (Texto (dumps d1)) true [EvEscrita (dumps d1); EvRefresh], Retorna tt).
Proof.
  apply (proj1 (editar_mantem_marca
                  (mkScheduler 5 false None None None)
                  " Beber agua " " 18:30 " "2024-01-01" [("18:30", "2024-01-01")]
                  [] (mkLembrete 1 "Beber" "09:00" true (Some "2024-01-01")) []
                  Ausente []
                  ltac:(repeat constructor; simpl; intuition)
                  ltac:(vm_compute; reflexivity)
                  ltac:(discriminate) eq_refl eq_refl
                  ltac:(repeat constructor))).
Defined.

(** ** strip *)






(** What [rstrip] gives is empty or starts as the text does. *)
Lemma rstrip_cons c r :
  rstrip (String c r) = EmptyString \/ rstrip (String c r) = String c (rstrip r).
Proof.
  cbn [rstrip]. cbv zeta. destruct (um_espaco (String c (rstrip r))); [now left|now right].
Qed.


Lemma lstrip_casos s :
  lstrip s = s \/
  exists p r, s = (p ++ r)%string /\ p <> EmptyString /\ lstrip s = lstrip r.
Proof.
  destruct s as [|a r]; [now left|]. cbn [lstrip].
  destruct (is_space a) eqn:Ea.
  { right. exists (String a EmptyString), r. split; [reflexivity|]. split; [discriminate|reflexivity]. }
  destruct r as [|b r2]; [now left|].
  destruct (espaco2 a b) eqn:E2.
  { right. exists (String a (String b EmptyString)), r2.
    split; [reflexivity|]. split; [discriminate|reflexivity]. }
  destruct r2 as [|c r3]; [now left|].
  destruct (espaco3 a b c) eqn:E3; [|now left].
  right. exists (String a (String b (String c EmptyString))), r3.
  split; [reflexivity|]. split; [discriminate|reflexivity].
Qed.

(** Induction on the text along the calls of [lstrip]. *)
Lemma lstrip_ind (P : string -> Prop) :
  (forall s, lstrip s = s -> P s) ->
  (forall p r, p <> EmptyString -> lstrip (p ++ r) = lstrip r -> P r -> P (p ++ r)%string) ->
  forall s, P s.
Proof.
  intros H0 H1 s.
  remember (String.length s) as n eqn:En.
  revert s En. induction n as [n IH] using lt_wf_ind. intros s En.
  destruct (lstrip_casos s) as [E|(p & r & -> & Hp & E)]; [now apply H0|].
  apply H1; [exact Hp|exact E|].
  apply (IH (String.length r)); [|reflexivity].
  subst n. rewrite length_append. destruct p; [congruence|simpl; lia].
Qed.

Lemma lstrip_lstrip s : lstrip (lstrip s) = lstrip s.
Proof.
  induction s as [s E|p r _ E IH] using lstrip_ind; [now rewrite E|].
  now rewrite E.
Qed.

Lemma length_lstrip s : String.length (lstrip s) <= String.length s.
Proof.
  induction s as [s E|p r _ E IH] using lstrip_ind; [now rewrite E|].
  rewrite E, length_append. lia.
Qed.

(** A text that [lstrip] keeps whole starts with no white-space
    character. *)
Lemma lstrip_fixo a r :
  lstrip (String a r) = String a r ->
  is_space a = false /\
  match r with
  | EmptyString => True
  | String b r2 =>
      espaco2 a b = false /\
      match r2 with
      | EmptyString => True
      | String c r3 => espaco3 a b c = false
      end
  end.
Proof.
  intros E. cbn [lstrip] in E.
  assert (L : forall t, lstrip t = String a r -> String.length t <= String.length r -> False).
  { intros t Ht Hl. pose proof (length_lstrip t) as H. rewrite Ht in H. simpl in H. lia. }
  destruct (is_space a); [exfalso; apply (L _ E); lia|]. split; [reflexivity|].
  destruct r as [|b r2]; [exact I|].
  destruct (espaco2 a b); [exfalso; apply (L _ E); simpl; lia|]. split; [reflexivity|].
  destruct r2 as [|c r3]; [exact I|].
  destruct (espaco3 a b c); [exfalso; apply (L _ E); simpl; lia|reflexivity].
Qed.


Lemma rstrip_rstrip s : rstrip (rstrip s) = rstrip s.
Proof.
  induction s as [|c r IH]; [reflexivity|].
  cbn [rstrip]. cbv zeta. destruct (um_espaco (String c (rstrip r))) eqn:E; [reflexivity|].
  cbn [rstrip]. cbv zeta. now rewrite IH, E.
Qed.

(** [rstrip] uncovers no white space at the head. *)
Lemma lstrip_rstrip s : lstrip s = s -> lstrip (rstrip s) = rstrip s.
Proof.
  destruct s as [|a r]; [reflexivity|]. intros E.
  destruct (lstrip_fixo a r E) as [Ha H].
  destruct (rstrip_cons a r) as [->| ->]; [reflexivity|].
  cbn [lstrip]. rewrite Ha.
  destruct r as [|b r2]; [reflexivity|]. destruct H as [H2 H].
  destruct (rstrip_cons b r2) as [->| ->]; [reflexivity|]. rewrite H2.
  destruct r2 as [|c r3]; [reflexivity|].
  destruct (rstrip_cons c r3) as [->| ->]; [reflexivity|]. now rewrite H.
Qed.

Lemma strip_strip s : strip (strip s) = strip s.
Proof.
  unfold strip. rewrite lstrip_rstrip by apply lstrip_lstrip. apply rstrip_rstrip.
Qed.







(** ** The window: a reminder added and then due *)

Lemma App_adicionar_doc ms ent_texto ent_horario ls dk g s :
  strip ent_texto <> EmptyString ->
  validar_horario (JStr (strip ent_horario)) = true ->
  App_adicionar ms ent_texto ent_horario (mkMundo (doc_de ls) dk g s) =
  (let r := mkLembrete ms (strip ent_texto) (strip ent_horario) true None in
   let d' := doc_de (ls ++ [r]) in
   if g then (mkMundo d' (Texto (dumps d')) true
                (s ++ [EvEscrita (dumps d'); EvRefresh]), Retorna tt)
   else (mkMundo d' dk false s, Levanta OSError)).
Proof.
  intros Ht Hh. unfold App_adicionar.
  apply String.eqb_neq in Ht. rewrite Ht, Hh. cbn [negb].
  unfold bind at 1. rewrite adicionar_doc. cbv zeta.
  unfold novo_lembrete. rewrite !strip_strip. cbn [py_truthy].
  destruct g; [|reflexivity].
  unfold emitir. cbn [dados disco gravavel saida].
  rewrite <- List.app_assoc. reflexivity.
Qed.

(** The popup is called for a reminder that is due. *)
Lemma popup_do_devido self popup hh hoje ls r dk s :
  NoDup (map lid ls) ->
  ui_callback_popup self = Some popup ->
  In r ls ->
  dispara_b hh hoje r = true ->
  exists w2 novos,
    verificar self hh hoje (mkMundo (doc_de ls) dk true s) = (w2, Retorna tt) /\
    saida w2 = (s ++ novos)%list /\
    In ("Lembrete", mensagem r) (chamadas_popup novos) /\
    dados w2 = doc_de (map (apos_ciclo hh hoje) ls) /\
    disco w2 = Texto (dumps (dados w2)).
Proof.
  intros Hnd Hp Hin Hr.
  assert (Hex : existsb (dispara_b hh hoje) ls = true)
    by (apply existsb_exists; now exists r).
  do 2 eexists.
  split; [apply (verificar_doc self hh hoje ls dk true s Hnd); now left|].
  cbn [dados disco saida]. rewrite Hex.
  split; [reflexivity|]. split; [|split; reflexivity].
  rewrite chamadas_popup_app, chamadas_popup_status, List.app_nil_r.
  rewrite (chamadas_popup_itens self hh hoje popup Hp).
  apply in_map_iff. exists r. split; [reflexivity|].
  apply filter_In. now split.
Qed.

(** X17.  [App.adicionar], on a text that is not empty once stripped and
    a time that, stripped, is the reading of the clock as [agora_hhmm]
    writes it, stores the reminder with the stripped text and time,
    active and not yet fired, and refreshes the list; the cycle of that
    minute, on any day, calls the popup with the time and the text and
    marks the reminder.  (Ids pairwise distinct, reminders that can be
    written, the new one included, a date without surrogates, file
    writable.) *)
Theorem adicionar_e_disparar (self : Scheduler) (popup : string -> string -> callback)
    (ms : Z) (ent_texto ent_horario hoje : string) (h m : N)
    (ls : list Lembrete) (dk : arquivo) (s : list evento) :
  NoDup (map lid ls) ->
  ~ In ms (map lid ls) ->
  forallb lembrete_codificavel
    (ls ++ [mkLembrete ms (strip ent_texto) (agora_hhmm h m) true None]) = true ->
  tem_substituto hoje = false ->
  ui_callback_popup self = Some popup ->
  strip ent_texto <> EmptyString ->
  (h < 24)%N -> (m < 60)%N ->
  strip ent_horario = agora_hhmm h m ->
  let r := mkLembrete ms (strip ent_texto) (agora_hhmm h m) true None in
  let d1 := doc_de (ls ++ [r]) in
  let w1 := mkMundo d1 (Texto (dumps d1)) true (s ++ [EvEscrita (dumps d1); EvRefresh]) in
  App_adicionar ms ent_texto ent_horario (mkMundo (doc_de ls) dk true s) = (w1, Retorna tt) /\
  exists w2 novos,
    verificar self (agora_hhmm h m) hoje w1 = (w2, Retorna tt) /\
    saida w2 = (saida w1 ++ novos)%list /\
    In ("Lembrete", agora_hhmm h m ++ " - " ++ strip ent_texto) (chamadas_popup novos) /\
    dados w2 = doc_de (map (apos_ciclo (agora_hhmm h m) hoje) ls ++ [marcar hoje r]) /\
    disco w2 = Texto (dumps (dados w2)) /\
    json_dump d1 = (dumps d1, None) /\
    json_dump (dados w2) = (dumps (dados w2), None).
Proof.
  intros Hnd Hnew Hc Hs Hp Ht Hh Hm Hhor. cbv zeta.
  assert (Hv : validar_horario (JStr (strip ent_horario)) = true)
    by (rewrite Hhor; now apply strptime_agora_hhmm).
  split; [rewrite App_adicionar_doc by assumption; cbv zeta; now rewrite Hhor|].
  set (r := mkLembrete ms (strip ent_texto) (agora_hhmm h m) true None).
  assert (Hr : dispara_b (agora_hhmm h m) hoje r = true).
  { unfold dispara_b, r. cbn [lativo lhorario lultimo ultimo_e].
    rewrite <- Hhor at 1. rewrite Hv, String.eqb_refl. reflexivity. }
  assert (Hnd' : NoDup (map lid (ls ++ [r]))).
  { rewrite map_app. cbn [map lid r]. apply NoDup_app; [exact Hnd|repeat constructor; intros []|].
    intros x Hx [<-|[]]. contradiction. }
  destruct (popup_do_devido self popup (agora_hhmm h m) hoje (ls ++ [r]) r
              (Texto (dumps (doc_de (ls ++ [r]))))
              (s ++ [EvEscrita (dumps (doc_de (ls ++ [r]))); EvRefresh]) Hnd' Hp)
    as (w2 & novos & H1 & H2 & H3 & H4 & H5).
  { apply in_or_app. right. now left. }
  { exact Hr. }
  exists w2, novos. split; [exact H1|]. split; [exact H2|]. split; [exact H3|].
  split; [rewrite H4, map_app; cbn [map]; unfold apos_ciclo at 2; now rewrite Hr|].
  split; [exact H5|].
  split; [now apply json_dump_codificavel, lembretes_codificaveis|].
  rewrite H4. now apply json_dump_codificavel, lembretes_codificaveis,
                apos_ciclo_codificavel.
Qed.

Lemma adicionar_e_disparar_witness :
  App_adicionar 7 " Beber " " 09:05 " (mkMundo (doc_de []) Ausente true []) =
  (let d1 := doc_de [mkLembrete 7 "Beber" "09:05" true None] in
   mkMundo d1 (Texto (dumps d1)) true [EvEscrita (dumps d1); EvRefresh], Retorna tt).
Proof.
  apply (proj1 (adicionar_e_disparar
                  (mkScheduler 5 false None None (Some (fun _ _ _ => None)))
                  (fun _ _ _ => None) 7 " Beber " " 09:05 " "2024-01-01" 9 5
                  [] Ausente []
                  ltac:(constructor) ltac:(intros []) ltac:(vm_compute; reflexivity)
                  eq_refl eq_refl ltac:(discriminate)
                  eq_refl eq_refl eq_refl)).
Defined.

(** ** The window: the demonstration mode *)



(** ** Scheduler: the cycles change fired-marks and nothing else *)

Lemma dict_set_set k v v' d : dict_set k v' (dict_set k v d) = dict_set k v' d.
Proof.
  induction d as [|[k1 v1] d IH]; cbn [dict_set].
  - now rewrite String.eqb_refl.
  - destruct (String.eqb k k1) eqn:E; cbn [dict_set]; rewrite E; [reflexivity|].
    now rewrite IH.
Qed.

Lemma dict_set_mesmo k v d : dict_get k d = Some v -> dict_set k v d = d.
Proof.
  induction d as [|[k1 v1] d IH]; cbn [dict_get dict_set]; [discriminate|].
  destruct (String.eqb_spec k k1) as [->|_].
  - now intros [= ->].
  - intros H. now rewrite IH.
Qed.

Lemma so_a_marca_refl x : so_a_marca x x.
Proof. now left. Qed.

Lemma so_a_marca_trans x y z : so_a_marca x y -> so_a_marca y z -> so_a_marca x z.
Proof.
  intros [->|(kv & d & -> & ->)] [->|(kv' & d' & E & ->)].
  - now left.
  - right. now exists kv', d'.
  - right. now exists kv, d.
  - injection E as <-. right. exists kv, d'. split; [reflexivity|].
    now rewrite dict_set_set.
Qed.

Lemma Forall2_so_a_marca_refl l : Forall2 so_a_marca l l.
Proof. induction l; constructor; [apply so_a_marca_refl|assumption]. Qed.

Lemma Forall2_so_a_marca_trans l1 : forall l2 l3,
  Forall2 so_a_marca l1 l2 -> Forall2 so_a_marca l2 l3 -> Forall2 so_a_marca l1 l3.
Proof.
  induction l1 as [|x l1 IH]; intros l2 l3 H12 H23.
  - inversion H12; subst. inversion H23; subst. constructor.
  - inversion H12 as [|? y ? l2' Hxy Hl]; subst.
    inversion H23 as [|? z ? l3' Hyz Hl']; subst.
    constructor; [now apply (so_a_marca_trans x y z)|now apply (IH l2')].
Qed.

Lemma so_marcas_refl d : so_marcas d d.
Proof. now left. Qed.

Lemma so_marcas_trans d1 d2 d3 : so_marcas d1 d2 -> so_marcas d2 d3 -> so_marcas d1 d3.
Proof.
  intros [->|(kv & l & l' & -> & Hk & -> & HF)] H23; [exact H23|].
  destruct H23 as [->|(kv2 & l2 & l2' & E & Hk2 & -> & HF2)].
  - right. now exists kv, l, l'.
  - injection E as <-. rewrite dict_get_set, String.eqb_refl in Hk2.
    injection Hk2 as <-. right. exists kv, l, l2'.
    split; [reflexivity|]. split; [exact Hk|]. split; [now rewrite dict_set_set|].
    now apply (Forall2_so_a_marca_trans l l').
Qed.

Lemma mantem_mesmos {A} (c : M A) :
  (forall w w' r, c w = (w', r) -> dados w' = dados w) -> mantem c.
Proof. intros H w w' r E. rewrite (H _ _ _ E). apply so_marcas_refl. Qed.

Lemma mantem_ret {A} (a : A) : mantem (ret a).
Proof. apply mantem_mesmos. now intros w w' r [= <- _]. Qed.

Lemma mantem_levantar {A} e : mantem (@levantar A e).
Proof. apply mantem_mesmos. now intros w w' r [= <- _]. Qed.

Lemma mantem_ler_dados : mantem ler_dados.
Proof. apply mantem_mesmos. now intros w w' r [= <- _]. Qed.

Lemma mantem_emitir e : mantem (emitir e).
Proof. apply mantem_mesmos. now intros w w' r [= <- _]. Qed.

Lemma mantem_chamar e cb : mantem (chamar e cb).
Proof.
  apply mantem_mesmos. intros w w' r. unfold chamar.
  destruct (cb (saida w)); now intros [= <- _].
Qed.

Lemma mantem_salvar : mantem salvar.
Proof.
  apply mantem_mesmos. intros w w' r. unfold salvar.
  destruct (gravavel w); now intros [= <- _].
Qed.

Lemma mantem_bind {A B} (c : M A) (k : A -> M B) :
  mantem c -> (forall a, mantem (k a)) -> mantem (bind c k).
Proof.
  intros Hc Hk w w' r. unfold bind.
  destruct (c w) as [w1 [a|e]] eqn:E.
  - intros H. apply (so_marcas_trans _ (dados w1)); [exact (Hc _ _ _ E)|exact (Hk a _ _ _ H)].
  - intros [= <- _]. exact (Hc _ _ _ E).
Qed.

Lemma mantem_tentar {A} (c : M A) (h : excecao -> M A) :
  mantem c -> (forall e, mantem (h e)) -> mantem (tentar c h).
Proof.
  intros Hc Hh w w' r. unfold tentar.
  destruct (c w) as [w1 [a|e]] eqn:E.
  - intros [= <- _]. exact (Hc _ _ _ E).
  - intros H. apply (so_marcas_trans _ (dados w1)); [exact (Hc _ _ _ E)|exact (Hh e _ _ _ H)].
Qed.

Lemma mantem_para_cada {A} (f : A -> M unit) l :
  (forall x, mantem (f x)) -> mantem (para_cada f l).
Proof.
  intros Hf. induction l as [|x l IH]; cbn [para_cada].
  - apply mantem_ret.
  - apply mantem_bind; [apply Hf|intros _; exact IH].
Qed.

Ltac passo_mantem :=
  first
    [ apply mantem_ret
    | apply mantem_levantar
    | apply mantem_ler_dados
    | apply mantem_salvar
    | apply mantem_emitir
    | apply mantem_chamar
    | apply mantem_bind; [|intros ?]
    | apply mantem_tentar; [|intros ?]
    | match goal with
      | |- mantem (match ?x with _ => _ end) => destruct x
      | |- mantem (if ?b then _ else _) => destruct b
      end ].

Lemma mantem_obter_lembretes : mantem obter_lembretes.
Proof. unfold obter_lembretes. repeat passo_mantem. Qed.

Lemma mantem_subscrito k it : mantem (subscrito k it).
Proof. unfold subscrito. repeat passo_mantem. Qed.

Lemma mantem_elemento i it0 : mantem (elemento i it0).
Proof. unfold elemento. repeat passo_mantem. Qed.

Lemma mantem_notificar self t m : mantem (notificar self t m).
Proof. unfold notificar. repeat passo_mantem. Qed.

Lemma atualizar_em_so_marca item_id hoje : forall l l' it,
  atualizar_em item_id [("ultimo_disparo_em", JStr hoje)] l = Retorna (l', it) ->
  Forall2 so_a_marca l l'.
Proof.
  induction l as [|x l IH]; intros l' it H; cbn [atualizar_em] in H; [discriminate|].
  destruct x as [| | | | |kv]; try discriminate.
  destruct (dict_get "id" kv) as [v|]; [|discriminate].
  destruct (py_eq v item_id).
  - injection H as <- _. constructor; [|apply Forall2_so_a_marca_refl].
    right. now exists kv, hoje.
  - destruct (atualizar_em item_id [("ultimo_disparo_em", JStr hoje)] l)
      as [[l'' r]|e] eqn:E; [|discriminate].
    injection H as <- _. constructor; [apply so_a_marca_refl|]. now apply (IH l'' r).
Qed.

Lemma mantem_atualizar_marca item_id hoje :
  mantem (atualizar item_id [("ultimo_disparo_em", JStr hoje)]).
Proof.
  intros [d dk g s] w' r. unfold atualizar. unfold bind at 1.
  change obter_lembretes with listar. rewrite listar_eq. cbn [dados].
  destruct d as [| | | | |kv]; try (intros [= <- _]; apply so_marcas_refl).
  unfold get_ou.
  destruct (dict_get "lembretes" kv) as [v|] eqn:Hk.
  - destruct (py_iter v) as [l|] eqn:Hv; [|intros [= <- _]; apply so_marcas_refl].
    destruct (atualizar_em item_id [("ultimo_disparo_em", JStr hoje)] l)
      as [[l' it]|e] eqn:Ha; [|intros [= <- _]; apply so_marcas_refl].
    unfold por_lembretes. unfold bind at 1 2. unfold ler_dados. cbn [dados].
    rewrite Hk.
    destruct v as [| | | |l0|];
      try (unfold ret, salvar, bind; cbn [gravavel dados];
           destruct g; intros [= <- _]; apply so_marcas_refl).
    injection Hv as <-.
    assert (Hs : so_marcas (JObj kv) (JObj (dict_set "lembretes" (JList l') kv))).
    { right. exists kv, l0, l'. repeat split; [exact Hk|].
      now apply (atualizar_em_so_marca item_id hoje l0 l' it). }
    unfold por_dados, salvar, bind, ret. cbn [gravavel dados disco saida].
    destruct g; intros [= <- _]; exact Hs.
  - cbn [py_iter atualizar_em]. intros [= <- _]. apply so_marcas_refl.
Qed.

Lemma mantem_verificar_item self hh hoje p : mantem (verificar_item self hh hoje p).
Proof.
  unfold verificar_item.
  apply mantem_bind; [apply mantem_elemento|intros it].
  destruct it; try apply mantem_levantar.
  repeat match goal with
         | |- mantem (if ?b then _ else _) => destruct b
         end; try apply mantem_ret.
  apply mantem_bind; [apply mantem_subscrito|intros h].
  destruct (py_eq h (JStr hh)); [|apply mantem_ret].
  apply mantem_bind; [apply mantem_subscrito|intros v].
  apply mantem_bind; [apply mantem_atualizar_marca|intros _].
  apply mantem_bind; [apply mantem_elemento|intros it'].
  apply mantem_bind; [apply mantem_subscrito|intros h'].
  apply mantem_bind; [apply mantem_subscrito|intros t'].
  apply mantem_notificar.
Qed.

Lemma mantem_verificar self hh hoje : mantem (verificar self hh hoje).
Proof.
  unfold verificar, listar.
  apply mantem_bind; [apply mantem_obter_lembretes|intros v].
  destruct (py_iter v); [|apply mantem_levantar].
  apply mantem_bind.
  - apply mantem_para_cada. intros x. apply mantem_verificar_item.
  - intros _. repeat passo_mantem.
Qed.

Lemma mantem_run self relogio : mantem (run self relogio).
Proof.
  induction relogio as [|[hh hoje] rel IH]; cbn [run].
  - apply mantem_ret.
  - apply mantem_bind.
    + apply mantem_tentar; [apply mantem_verificar|intros e; apply mantem_emitir].
    + intros _. apply mantem_bind; [apply mantem_emitir|intros _; exact IH].
Qed.

Lemma so_a_marca_campos x x' :
  so_a_marca x x' ->
  match x, x' with
  | JObj kv, JObj kv' =>
      forall k, k <> "ultimo_disparo_em" -> dict_get k kv' = dict_get k kv
  | _, _ => x' = x
  end.
Proof.
  intros [->|(kv & d & -> & ->)].
  - destruct x; reflexivity.
  - intros k Hk. rewrite dict_get_set.
    destruct (String.eqb_spec k "ultimo_disparo_em"); [contradiction|reflexivity].
Qed.

(** X19.  Whatever the document, the ids, the callbacks and the file, and
    however many cycles run, the scheduler changes fired-marks and
    nothing else: the document keeps its keys, the list under
    ["lembretes"] keeps its length and its order, an item that is not a
    dict stays as it is, and a dict item keeps every key other than
    ["ultimo_disparo_em"] with its value.  (It never adds, deletes or
    reorders a reminder, and never changes an id, a text, a time or an
    active flag.) *)
Theorem ciclos_so_marcam (self : Scheduler) (relogio : list (string * string))
    (w : Mundo) :
  so_marcas (dados w) (dados (fst (run self relogio w))) /\
  (forall kv l,
     dados w = JObj kv ->
     dict_get "lembretes" kv = Some (JList l) ->
     exists l',
       dados (fst (run self relogio w)) = JObj (dict_set "lembretes" (JList l') kv) /\
       List.length l' = List.length l /\
       forall i x, nth_error l i = Some x ->
         exists x', nth_error l' i = Some x' /\
           match x, x' with
           | JObj ikv, JObj ikv' =>
               forall k, k <> "ultimo_disparo_em" -> dict_get k ikv' = dict_get k ikv
           | _, _ => x' = x
           end) /\
  (forall kv,
     dados w = JObj kv ->
     forall k, k <> "lembretes" ->
       exists kv', dados (fst (run self relogio w)) = JObj kv' /\
                   dict_get k kv' = dict_get k kv).
Proof.
  assert (H : so_marcas (dados w) (dados (fst (run self relogio w)))).
  { destruct (run self relogio w) as [w' r] eqn:E. exact (mantem_run self relogio _ _ _ E). }
  split; [exact H|]. split.
  - intros kv l Hd Hk. rewrite Hd in H.
    destruct H as [->|(kv0 & l0 & l' & [= <-] & Hk0 & -> & HF)].
    + exists l. split; [now rewrite (dict_set_mesmo _ _ _ Hk)|]. split; [reflexivity|].
      intros i x Hi. exists x. split; [exact Hi|]. destruct x; reflexivity.
    + rewrite Hk in Hk0. injection Hk0 as <-.
      exists l'. split; [reflexivity|]. split; [symmetry; now apply (Forall2_length HF)|].
      intros i x Hi. clear Hk. revert i Hi.
      induction HF as [|a b l l' Hab HF IH]; intros [|i] Hi; try discriminate.
      * injection Hi as ->. exists b. split; [reflexivity|]. now apply so_a_marca_campos.
      * now apply IH.
  - intros kv Hd k Hk. rewrite Hd in H.
    destruct H as [->|(kv0 & l0 & l' & [= <-] & Hk0 & -> & HF)].
    + now exists kv.
    + eexists. split; [reflexivity|]. rewrite dict_get_set.
      destruct (String.eqb_spec k "lembretes"); [contradiction|reflexivity].
Qed.

(** ** The window: a text of white space *)








(** ** The window: excluir *)

Lemma App_excluir_doc n ls dk g s :
  n <> 0%Z ->
  App_excluir (Some n) true (mkMundo (doc_de ls) dk g s) =
  (let d' := doc_de (sem_id n ls) in
   if g then (mkMundo d' (Texto (dumps d')) true
                (s ++ [EvEscrita (dumps d'); EvRefresh]), Retorna tt)
   else (mkMundo d' dk false s, Levanta OSError)).
Proof.
  intros Hn. unfold App_excluir. apply Z.eqb_neq in Hn. rewrite Hn.
  unfold bind at 1. rewrite remover_doc. cbv zeta.
  destruct g; [|reflexivity].
  unfold emitir. cbn [dados disco gravavel saida].
  rewrite <- List.app_assoc. reflexivity.
Qed.



(** ** The document stays a document of reminders *)

Lemma so_a_marca_lembrete r x' :
  so_a_marca (json_de_lembrete r) x' ->
  exists r', x' = json_de_lembrete r' /\ (r' = r \/ exists d, r' = marcar d r).
Proof.
  intros [->|(kv & d & E & ->)].
  - exists r. split; [reflexivity|now left].
  - injection E as <-. exists (marcar d r). split; [reflexivity|]. right. now exists d.
Qed.

Lemma so_marcas_doc ls d' :
  so_marcas (doc_de ls) d' ->
  exists ls', d' = doc_de ls' /\
              Forall2 (fun r r' => r' = r \/ exists d, r' = marcar d r) ls ls'.
Proof.
  intros [->|(kv & l & l' & E & Hk & -> & HF)].
  - exists ls. split; [reflexivity|]. induction ls; constructor; auto.
  - injection E as <-. cbn [dict_get String.eqb Ascii.eqb Bool.eqb] in Hk.
    injection Hk as <-. cbn [dict_set String.eqb Ascii.eqb Bool.eqb].
    assert (H : exists ls', l' = map json_de_lembrete ls' /\
                  Forall2 (fun r r' => r' = r \/ exists d, r' = marcar d r) ls ls').
    { clear -HF. revert l' HF. induction ls as [|r ls IH]; intros l' HF.
      - inversion HF; subst. exists []. split; [reflexivity|constructor].
      - cbn [map] in HF. inversion HF as [|? x' ? l'' Hx Hl]; subst.
        destruct (so_a_marca_lembrete r x' Hx) as (r' & -> & Hr).
        destruct (IH l'' Hl) as (ls' & -> & HF').
        exists (r' :: ls'). split; [reflexivity|now constructor]. }
    destruct H as (ls' & -> & HF'). now exists ls'.
Qed.

(** X22.  A store built where there is no file holds the document with
    no reminder, and from a document of reminders (a dict whose only key
    is ["lembretes"], bound to a list of dicts with the five keys of the
    data model and values of their types) every handler of the window
    and every run of the scheduler gives a document of reminders,
    whatever was typed or selected and whether the file can be written
    or not; the scheduler leaves each reminder as it is or with its
    fired-mark set. *)
Theorem documento_de_lembretes (ls : list Lembrete) (dk : arquivo) (g : bool)
    (s : list evento) :
  let w := mkMundo (doc_de ls) dk g s in
  dados (fst (Store_init mundo_novo)) = doc_de [] /\
  (forall ms t h, exists ls', dados (fst (App_adicionar ms t h w)) = doc_de ls') /\
  (forall sel t h, exists ls', dados (fst (App_editar_salvar sel t h w)) = doc_de ls') /\
  (forall sel, exists ls', dados (fst (App_toggle sel w)) = doc_de ls') /\
  (forall sel c, exists ls', dados (fst (App_excluir sel c w)) = doc_de ls') /\
  (forall self h m a b c,
     exists ls', dados (fst (App_ativar_demo self h m a b c w)) = doc_de ls') /\
  (forall self relogio,
     exists ls', dados (fst (run self relogio w)) = doc_de ls' /\
                 Forall2 (fun r r' => r' = r \/ exists d, r' = marcar d r) ls ls').
Proof.
  cbv zeta. split; [reflexivity|].
  split.
  { intros ms t h. unfold App_adicionar.
    destruct (String.eqb (strip t) EmptyString); [now exists ls|].
    destruct (validar_horario (JStr (strip h))); cbn [negb]; [|now exists ls].
    unfold bind at 1. rewrite adicionar_doc. cbv zeta.
    destruct g; eexists; reflexivity. }
  split.
  { intros sel t h. unfold App_editar_salvar.
    destruct (String.eqb (strip t) EmptyString || negb (validar_horario (JStr (strip h))));
      [now exists ls|].
    unfold bind at 1.
    rewrite (atualizar_doc _ (editar (strip t) (strip h)) sel) by (intros x; reflexivity).
    destruct (primeiro_com_id sel ls); [|now exists ls].
    cbv zeta. destruct g; eexists; reflexivity. }
  split.
  { intros [n|]; [|now exists ls].
    destruct (Z.eq_dec n 0) as [->|Hn]; [now exists ls|].
    rewrite App_toggle_doc by exact Hn.
    destruct (primeiro_com_id n ls); [|now exists ls].
    cbv zeta. destruct g; eexists; reflexivity. }
  split.
  { intros [n|] c; [|now exists ls].
    destruct (Z.eq_dec n 0) as [->|Hn]; [now exists ls|].
    destruct c.
    - rewrite App_excluir_doc by exact Hn. cbv zeta. destruct g; eexists; reflexivity.
    - unfold App_excluir. apply Z.eqb_neq in Hn. rewrite Hn. now exists ls. }
  split.
  { intros self h m a b c. unfold App_ativar_demo.
    unfold bind at 1. rewrite adicionar_doc. cbv zeta.
    destruct g; [|eexists; reflexivity].
    unfold bind at 1. rewrite adicionar_doc. cbv zeta.
    unfold bind at 1. rewrite adicionar_doc. cbv zeta.
    eexists. reflexivity. }
  intros self relogio. apply so_marcas_doc.
  destruct (run self relogio (mkMundo (doc_de ls) dk g s)) as [w' r] eqn:E.
  exact (mantem_run self relogio _ _ _ E).
Qed.
